(** * smdba: the PostgreSQL gate (src/smdba/postgresqlgate.py)

    A shallow embedding of the configuration store ([_get_conf],
    [_write_conf]), the reconciliation command ([do_system_check]), the
    archival switch ([_perform_enable_backups], [_restart_db]) and the
    restore command ([do_backup_restore]) of the gate, with the properties
    the specification states about them.

    Python 2 [str] is a byte string: it is embedded as [string], whose
    characters are the 256 values of [ascii].  A [dict] is a [gmap]; the
    order in which [dict.items()] enumerates it is left open (class
    [DictOrder]).  The host (files, directories, the postmaster, the clock
    and the outcome of external commands) is the record [World], threaded
    through a state-and-exception monad. *)

From Stdlib Require Import ZArith QArith Ascii String List Lia Bool DecimalString.
From stdpp Require Import base gmap strings list fin_maps.

Local Open Scope Z_scope.

(** ** Python string primitives *)

Module PyStr.

(** Characters that have no printable literal. *)
Definition TAB : ascii := "009"%char.
Definition LF : ascii := "010"%char.
Definition DQUOTE : ascii := "034"%char.

Definition nl : string := String LF "".
Definition tab : string := String TAB "".
Definition dquote : string := String DQUOTE "".

(** [s.lstrip()], [s.rstrip()], [s.strip()]: the stripped characters are
    those of [str.isspace], i.e. codes 9 to 13 and 32. *)
Fixpoint lstrip (s : string) : string :=
  match s with
  | "" => ""
  | String c s' => if Ascii.is_space c then lstrip s' else s
  end.

Fixpoint rstrip (s : string) : string :=
  match s with
  | "" => ""
  | String c s' =>
      match rstrip s' with
      | "" => if Ascii.is_space c then "" else String c ""
      | r => String c r
      end
  end.

Definition strip (s : string) : string := lstrip (rstrip s).

(** [s.startswith(p)] *)
Definition startswith (s p : string) : bool := String.prefix p s.

(** [not s] on a string. *)
Definition is_empty (s : string) : bool :=
  match s with "" => true | _ => false end.

(** [s.split(sep)] for a one-character separator: never the empty list. *)
Fixpoint split (sep : ascii) (s : string) : list string :=
  match s with
  | "" => [""]
  | String c s' =>
      if Ascii.eqb c sep then "" :: split sep s'
      else match split sep s' with
           | h :: t => String c h :: t
           | [] => [String c ""]
           end
  end.

(** The part of [s] before the first [sep], and what follows it if any. *)
Fixpoint partition (sep : ascii) (s : string) : string * option string :=
  match s with
  | "" => ("", None)
  | String c s' =>
      if Ascii.eqb c sep then ("", Some s')
      else let '(a, b) := partition sep s' in (String c a, b)
  end.

(** [s.split(sep, 1)] *)
Definition split1 (sep : ascii) (s : string) : list string :=
  match partition sep s with
  | (a, None) => [a]
  | (a, Some b) => [a; b]
  end.

(** [sep.join(l)] *)
Fixpoint join (sep : string) (l : list string) : string :=
  match l with
  | [] => ""
  | [x] => x
  | x :: l' => x +:+ sep +:+ join sep l'
  end.

(** [s.replace(a, b)] for one-character [a] and [b]. *)
Fixpoint replace_char (a b : ascii) (s : string) : string :=
  match s with
  | "" => ""
  | String c s' =>
      String (if Ascii.eqb c a then b else c) (replace_char a b s')
  end.

(** [s.replace(a, '')] for a one-character [a]. *)
Fixpoint remove_char (a : ascii) (s : string) : string :=
  match s with
  | "" => ""
  | String c s' =>
      if Ascii.eqb c a then remove_char a s' else String c (remove_char a s')
  end.

(** [f.readlines()]: the lines of a text, each with its line feed. *)
Fixpoint readlines (s : string) : list string :=
  match s with
  | "" => []
  | String c s' =>
      if Ascii.eqb c LF then nl :: readlines s'
      else match readlines s' with
           | h :: t => String c h :: t
           | [] => [String c ""]
           end
  end.

(** [''.join(l)] *)
Fixpoint concat (l : list string) : string :=
  match l with
  | [] => ""
  | x :: l' => x +:+ concat l'
  end.

(** [str(n)] for an integer. *)
Definition str_of_Z (n : Z) : string := NilZero.string_of_int (Z.to_int n).

(** [s.zfill(w)] for a string that carries no sign. *)
Fixpoint zeros (n : nat) : string :=
  match n with O => "" | S n' => String "0" (zeros n') end.
Definition zfill (w : nat) (s : string) : string :=
  zeros (w - String.length s) +:+ s.

(** [c in s] for a character. *)
Fixpoint has_char (c : ascii) (s : string) : bool :=
  match s with
  | "" => false
  | String d s' => Ascii.eqb d c || has_char c s'
  end.

End PyStr.

Import PyStr.

(** ** Values, exceptions and the host *)

(** The values a configuration dictionary holds: the strings read from a
    file, and the integers the policy and the tuner assign. *)
Inductive value : Type :=
  | VStr (s : string)
  | VInt (n : Z).

#[global] Instance value_eq_dec : EqDecision value.
Proof. solve_decision. Defined.

(** [str(v)] *)
Definition py_str (v : value) : string :=
  match v with
  | VStr s => s
  | VInt n => str_of_Z n
  end.

(** Truth value of [v] in a condition. *)
Definition truthy (v : value) : bool :=
  match v with
  | VStr s => negb (is_empty s)
  | VInt n => negb (n =? 0)
  end.

(** [a < b] in Python 2: strings compare byte-wise, and a number is
    smaller than any string. *)
Definition py_lt (a b : value) : bool :=
  match a, b with
  | VStr x, VStr y => String.ltb x y
  | VInt x, VInt y => x <? y
  | VInt _, VStr _ => true
  | VStr _, VInt _ => false
  end.

Inductive exn : Type :=
  | GateException (msg : string)
  | IOError (msg : string)
  | OSError (msg : string)
  | TypeError (msg : string)
  | PyException (msg : string)
  | SystemExit (code : Z).

#[global] Instance exn_eq_dec : EqDecision exn.
Proof. solve_decision. Defined.

(** What a command does to the outside besides the files it writes itself:
    its output, the shell commands it runs through [os.system], and the
    directory operations.  [Enter] records that a method was called. *)
Inductive event : Type :=
  | Stdout (s : string)
  | Stderr (s : string)
  | System (cmd : string)
  | Chdir (d : string)
  | CleanupPids
  | Rmtree (d : string)
  | Mkdir (d : string)
  | Mkdtemp (d : string)
  | Chown (d : string)
  | Sleep
  | Enter (method : string).

#[global] Instance event_eq_dec : EqDecision event.
Proof. solve_decision. Defined.

(** What the host answers when asked: the clock ([time.localtime()]),
    whether [pg_ctl start] and [pg_ctl stop] succeed, what [du] and [df]
    report for a path, whether [pg_basebackup] leaves an archive, the
    directory [tempfile.mkdtemp()] creates, the directory of the unpacked
    archive that holds [backup_label] if any, the physical memory ([None]
    when [os.sysconf] fails), and the two lines of the backup report that
    come from file times and [df]. *)
Record Host : Type := mkHost {
  localtime : list Z;
  pg_ctl_start_ok : bool;
  pg_ctl_stop_ok : bool;
  du_bytes : string → Z;
  df_available : string → Z;
  basebackup_ok : bool;
  tempdir : string;
  unpacked_root : option string;
  phys_mem : option Z;
  last_transaction_report : string → string;
  space_available_report : string → string
}.

(** The state of the host.  [files] holds the regular files by path,
    [dirs] the directories; [db_running] summarises [_get_db_status] (the
    pid file exists and names a live process); [trace] is what the command
    has done so far. *)
Record World : Type := mkWorld {
  files : gmap string string;
  dirs : gset string;
  db_running : bool;
  cwd : string;
  trace : list event;
  host : Host
}.

Definition set_files (f : gmap string string) (w : World) : World :=
  mkWorld f (dirs w) (db_running w) (cwd w) (trace w) (host w).

Definition set_dirs (d : gset string) (w : World) : World :=
  mkWorld (files w) d (db_running w) (cwd w) (trace w) (host w).

Definition set_running (b : bool) (w : World) : World :=
  mkWorld (files w) (dirs w) b (cwd w) (trace w) (host w).

Definition set_cwd (d : string) (w : World) : World :=
  mkWorld (files w) (dirs w) (db_running w) d (trace w) (host w).

Definition set_trace (t : list event) (w : World) : World :=
  mkWorld (files w) (dirs w) (db_running w) (cwd w) t (host w).

(** ** The command monad: state and exceptions *)

Definition M (A : Type) : Type := World → World * (exn + A).

Definition ret {A} (a : A) : M A := λ w, (w, inr a).
Definition raise {A} (e : exn) : M A := λ w, (w, inl e).
Definition bind {A B} (m : M A) (k : A → M B) : M B :=
  λ w, match m w with
       | (w', inl e) => (w', inl e)
       | (w', inr a) => k a w'
       end.

Notation "'let*' x ':=' c1 'in' c2" := (bind c1 (λ x, c2))
  (at level 10, x name, c1 at level 100, c2 at level 200).
Notation "'let*' ' p ':=' c1 'in' c2" :=
  (bind c1 (λ x, match x with p => c2 end))
  (at level 10, p pattern, c1 at level 100, c2 at level 200).
Notation "c1 ;; c2" := (bind c1 (λ _, c2))
  (at level 100, c2 at level 200, right associativity).

Definition gets {A} (f : World → A) : M A := λ w, (w, inr (f w)).
Definition modify (f : World → World) : M unit := λ w, (f w, inr tt).
Definition emit (e : event) : M unit :=
  modify (λ w, set_trace (trace w ++ [e]) w).

(** A command that leaves an observation [f] of the host as it found it,
    whatever it returns or raises. *)
Definition keeps {A X} (f : World → X) (m : M A) : Prop :=
  ∀ w, f (m w).1 = f w.

(** How often [_restart_db] has been called. *)
Definition restarts (w : World) : nat :=
  count_occ event_eq_dec (trace w) (Enter "_restart_db").

(** [for x in l: body x] *)
Fixpoint for_each {A} (l : list A) (body : A → M unit) : M unit :=
  match l with
  | [] => ret tt
  | x :: l' => body x ;; for_each l' body
  end.

(** ** File primitives *)

(** [os.path.exists] on a path *)
Definition path_exists (p : string) : M bool :=
  gets (λ w, bool_decide (is_Some (files w !! p)) || bool_decide (p ∈ dirs w)).

(** [open(p, 'w')]: the file is created, or emptied if it exists. *)
Definition open_w (p : string) : M unit :=
  modify (λ w, set_files (<[p := ""]> (files w)) w).

(** [f.write(s)] on the file opened at [p]. *)
Definition file_write (p s : string) : M unit :=
  modify (λ w, set_files (<[p := default "" (files w !! p) +:+ s]> (files w)) w).

(** ['-'.join([str(el).zfill(2) for el in time.localtime()][:6])] *)
Definition timestamp (h : Host) : string :=
  join "-" (take 6 ((λ el, zfill 2 (str_of_Z el)) <$> localtime h)).

Definition time_prefix : M string := gets (λ w, timestamp (host w)).

(** [open(p).read()] of a regular file. *)
Definition read_file (p : string) : M string :=
  λ w, match files w !! p with
       | Some text => (w, inr text)
       | None => (w, inl (IOError "[Errno 2] No such file or directory"))
       end.

(** [os.rename(src, dst)] of a regular file: it replaces a file at [dst].
    The directory of [dst] is taken to exist; renaming a directory is
    outside the model and answered like a missing source. *)
Definition os_rename (src dst : string) : M unit :=
  λ w, match files w !! src with
       | Some text =>
           (set_files (<[dst := text]> (delete src (files w))) w, inr tt)
       | None => (w, inl (OSError "[Errno 2] No such file or directory"))
       end.

(** ** Config Store Adapter: [_get_conf] and [_write_conf] *)

(** One pass of the loop body of [_get_conf]. *)
Inductive conf_line_result : Type :=
  | Skipped
  | Entry (k v : string)
  | Unparsable (line : string).

Definition conf_line (raw : string) : conf_line_result :=
  let line := strip raw in
  if is_empty line || startswith line "#" then Skipped
  else match strip <$> split1 "=" (strip (hd "" (split "#" line))) with
       | [k; v] => Entry k v
       | _ => Unparsable line
       end.

Fixpoint conf_of_lines (conf_path : string) (lines : list string)
    (conf : gmap string value) : M (gmap string value) :=
  match lines with
  | [] => ret conf
  | raw :: rest =>
      match conf_line raw with
      | Skipped => conf_of_lines conf_path rest conf
      | Entry k v => conf_of_lines conf_path rest (<[k := VStr v]> conf)
      | Unparsable line =>
          raise (GateException ("Cannot parse line [" +:+ line +:+ "] in "
                                  +:+ conf_path +:+ "."))
      end
  end.

Definition _get_conf (conf_path : string) : M (gmap string value) :=
  let* ex := path_exists conf_path in
  if negb ex then
    raise (GateException ("Cannot open config at " +:+ dquote +:+ conf_path
                            +:+ dquote +:+ "."))
  else
    let* text := read_file conf_path in
    conf_of_lines conf_path (readlines text) ∅.

(** The order of [dict.items()]: some enumeration of the entries. *)
Class DictOrder : Type := {
  dict_items : gmap string value → list (string * value);
  dict_items_perm : ∀ m, dict_items m ≡ₚ map_to_list m
}.

#[global] Instance canonical_order : DictOrder :=
  {| dict_items := map_to_list; dict_items_perm := λ m, reflexivity _ |}.

(** The characters [str] writes for an integer. *)
Definition numeric_char (c : ascii) : bool := has_char c "0123456789-".

(** The name [_write_conf] gives to the previous file. *)
Definition backup_name (conf_path pref : string) : string :=
  let conf_path_new := split "." conf_path in
  join "." (removelast conf_path_new) +:+ "." +:+ pref +:+ "."
    +:+ List.last conf_path_new "".

(** The line written for one entry of a document, ['%s = %s\n' % items],
    and for one record of a table. *)
Definition conf_entry_line (items : string * value) : string :=
  items.1 +:+ " = " +:+ py_str items.2 +:+ nl.

Definition table_line (items : list string) : string := join tab items +:+ nl.

Section ConfigStore.
Context `{DictOrder}.

(** [_write_conf(self, conf_path, *table, **data)], on the bound
    arguments. *)
Definition _write_conf (conf_path : string) (table : list (list string))
    (data : gmap string value) : M (option string) :=
  let* ex := path_exists conf_path in
  let* backup :=
    (if ex then
       let* pref := time_prefix in
       let conf_path_new := backup_name conf_path pref in
       os_rename conf_path conf_path_new ;;
       ret (Some conf_path_new)
     else ret None) in
  let has_data := negb (bool_decide (data = ∅)) in
  let has_table := negb (bool_decide (table = [])) in
  if has_data || has_table then
    open_w conf_path ;;
    (if has_data && negb has_table then
       for_each (dict_items data)
         (λ items, file_write conf_path (conf_entry_line items))
     else if has_table && negb has_data then
       for_each table (λ items, file_write conf_path (table_line items))
     else ret tt) ;;
    ret backup
  else
    raise (IOError
             "Cannot write two different types of config into the same file!").

(** [_write_conf] from its second statement on, given the backup made
    by the first: the part of its effect that does not depend on what was
    at [conf_path]. *)
Definition write_body (conf_path : string) (table : list (list string))
    (data : gmap string value) (backup : option string) : M (option string) :=
  let has_data := negb (bool_decide (data = ∅)) in
  let has_table := negb (bool_decide (table = [])) in
  if has_data || has_table then
    open_w conf_path ;;
    (if has_data && negb has_table then
       for_each (dict_items data)
         (λ items, file_write conf_path (conf_entry_line items))
     else if has_table && negb has_data then
       for_each table (λ items, file_write conf_path (table_line items))
     else ret tt) ;;
    ret backup
  else
    raise (IOError
             "Cannot write two different types of config into the same file!").

(** The call [self._write_conf(conf_path, **conf)]: a key of [conf] that
    names a positional parameter of the method is refused by the call
    itself, before the body runs. *)
Definition _write_conf_kwargs (conf_path : string)
    (conf : gmap string value) : M (option string) :=
  if bool_decide (is_Some (conf !! "self")) then
    raise (TypeError
             "_write_conf() got multiple values for keyword argument 'self'")
  else if bool_decide (is_Some (conf !! "conf_path")) then
    raise (TypeError
             "_write_conf() got multiple values for keyword argument 'conf_path'")
  else _write_conf conf_path [] conf.

End ConfigStore.

(** The loop of [_get_conf] without the host: the entries of the lines in
    the order of the file, or the first line that cannot be parsed. *)
Fixpoint parse_lines (lines : list string) : string + list (string * string) :=
  match lines with
  | [] => inr []
  | raw :: rest =>
      match conf_line raw with
      | Skipped => parse_lines rest
      | Entry k v =>
          match parse_lines rest with
          | inr es => inr ((k, v) :: es)
          | inl bad => inl bad
          end
      | Unparsable line => inl line
      end
  end.

(** [conf[k] = v] for each entry in turn. *)
Definition doc_of_entries (es : list (string * string))
    (conf : gmap string value) : gmap string value :=
  foldl (λ conf e, <[e.1 := VStr e.2]> conf) conf es.

(** The text [_write_conf] produces from the entries of a document, and
    from the records of a table. *)
Definition render_conf (items : list (string * value)) : string :=
  concat (conf_entry_line <$> items).

Definition render_table (table : list (list string)) : string :=
  concat (table_line <$> table).

(** The files after the first step of [_write_conf], and the backup it
    made: a file at [conf_path] moves to its backup name. *)
Definition backed_up (conf_path pref : string) (fs : gmap string string)
    : gmap string string * option string :=
  match fs !! conf_path with
  | Some text =>
      (<[backup_name conf_path pref := text]> (delete conf_path fs),
       Some (backup_name conf_path pref))
  | None => (fs, None)
  end.

(** What a document becomes when written and read: every value turns into
    the string [str] gives for it. *)
Definition as_read (d : gmap string value) : gmap string value :=
  (λ v, VStr (py_str v)) <$> d.

(** Keys and values that [_get_conf] reads back as they are: without
    blanks at either end, without comment sign or line feed, and for a key
    without equals sign. *)
Definition trimmed (s : string) : bool :=
  String.eqb (lstrip s) s && String.eqb (rstrip s) s.

Definition clean_key (k : string) : bool :=
  trimmed k && negb (has_char "=" k) && negb (has_char "#" k)
  && negb (has_char LF k).

Definition clean_value (v : string) : bool :=
  trimmed v && negb (has_char "#" v) && negb (has_char LF v).

Definition clean_entry (e : string * value) : bool :=
  clean_key e.1 && clean_value (py_str e.2).

Definition clean_doc (d : gmap string value) : bool :=
  forallb clean_entry (map_to_list d).

(** A document as [_get_conf] returns it holds strings only. *)
Definition is_VStr (v : value) : bool :=
  match v with VStr _ => true | VInt _ => false end.

Definition all_strings (d : gmap string value) : bool :=
  forallb (λ e, is_VStr e.2) (map_to_list d).

(** Keys that [**conf] cannot pass to [_write_conf]. *)
Definition passable (d : gmap string value) : bool :=
  negb (bool_decide (is_Some (d !! "self")))
  && negb (bool_decide (is_Some (d !! "conf_path"))).

(** Characters that are harmless anywhere in a key or a value. *)
Definition plain_char (c : ascii) : bool :=
  negb (Ascii.is_space c) && negb (Ascii.eqb c "#") && negb (Ascii.eqb c "=").

(** The keys the rules of [do_system_check] read or assign, and the two
    names a document cannot pass as a keyword. *)
Definition policy_keys : list string :=
  ["wal_level"; "max_wal_senders"; "wal_keep_segments"; "archive_mode";
   "archive_command"; "standard_conforming_strings"; "bytea_output"].

Definition reserved_keys : list string := ["self"; "conf_path"].

(** [clean_doc] as a property of the entries. *)
Definition safe_doc (d : gmap string value) : Prop :=
  ∀ k v, d !! k = Some v → clean_entry (k, v) = true.

(** The shape of a document that [_get_conf] returns: every key is
    clean, every value a clean string. *)
Definition read_shape (d : gmap string value) : Prop :=
  ∀ k v, d !! k = Some v →
    clean_key k = true ∧ ∃ s, v = VStr s ∧ clean_value s = true.

(** Writing a document with [self._write_conf(conf_path, **conf)] and
    reading the file with [_get_conf]: what the second call returns. *)
Definition write_then_read `{DictOrder} (conf_path : string)
    (conf : gmap string value) (w : World) : exn + gmap string value :=
  (_get_conf conf_path (_write_conf_kwargs conf_path conf w).1).2.

(** A host with nothing on it, for the examples. *)
Definition quiet_host : Host :=
  mkHost [2012; 7; 1; 9; 5; 3; 6; 183; 1] true true (λ _, 0) (λ _, 0) true
    "/tmp/tmpAbCdEf" None (Some 8589934592) (λ _, "--") (λ _, "--").

Definition empty_world : World := mkWorld ∅ ∅ false "/root" [] quiet_host.

Definition with_file (p text : string) (w : World) : World :=
  set_files (<[p := text]> (files w)) w.

(** ** The gate object *)

(** The entries of [self.config] the commands below read, and the one
    method they take from [BaseGate] ([size_pretty], not part of this
    file; it only formats numbers for the report). *)
Record Gate : Type := mkGate {
  pcnf_pg_data : string;
  pcnf_data_directory : option string;
  sysconfig_POSTGRES_OPTIONS : option string;
  size_pretty : Q → string
}.

(** ** Cluster process controller *)

Definition _get_db_status : M bool := gets db_running.

Definition _cleanup_pids : M unit := emit CleanupPids.

Definition chdir (d : string) : M unit := emit (Chdir d) ;; modify (set_cwd d).

(** [os.system] of a [pg_ctl start]: true when the exit status is zero. *)
Definition system_pg_ctl_start (cmd : string) : M bool :=
  emit (System cmd) ;;
  let* ok := gets (λ w, pg_ctl_start_ok (host w)) in
  modify (λ w, set_running (db_running w || ok) w) ;;
  ret ok.

(** [os.system] of a [pg_ctl stop]. *)
Definition system_pg_ctl_stop (cmd : string) : M bool :=
  emit (System cmd) ;;
  let* ok := gets (λ w, pg_ctl_stop_ok (host w)) in
  modify (λ w, set_running (db_running w && negb ok) w) ;;
  ret ok.

Definition do_db_start (g : Gate) : M unit :=
  emit (Stdout ("Starting core..." +:+ tab)) ;;
  let* status := _get_db_status in
  if status then
    emit (Stdout "failed") ;; emit Sleep
  else
    _cleanup_pids ;;
    let* cwd0 := gets cwd in
    chdir (default "/var/lib/pgsql" (pcnf_data_directory g)) ;;
    let* ok := system_pg_ctl_start
                 ("sudo -u postgres /usr/bin/pg_ctl start -s -w -p /usr/bin/postmaster -D "
                    +:+ pcnf_pg_data g +:+ " -o "
                    +:+ default (dquote +:+ dquote) (sysconfig_POSTGRES_OPTIONS g)) in
    (if ok then emit (Stdout "done") else emit (Stderr "failed")) ;;
    chdir cwd0 ;;
    emit Sleep.

Definition do_db_stop (g : Gate) : M unit :=
  emit (Stdout ("Stopping core..." +:+ tab)) ;;
  let* status := _get_db_status in
  if negb status then
    emit (Stdout "failed") ;; emit Sleep
  else if is_empty (default "" (pcnf_data_directory g)) then
    raise (GateException "Cannot find data directory.")
  else
    let* cwd0 := gets cwd in
    chdir (default "/var/lib/pgsql" (pcnf_data_directory g)) ;;
    let* ok := system_pg_ctl_stop
                 ("sudo -u postgres /usr/bin/pg_ctl stop -s -D "
                    +:+ default "" (pcnf_data_directory g) +:+ " -m fast") in
    (if ok then emit (Stdout "done") else emit (Stderr "failed")) ;;
    chdir cwd0 ;;
    _cleanup_pids.

Definition do_db_status : M unit :=
  let* status := _get_db_status in
  emit (Stdout ("Database is " +:+ (if status then "online" else "offline"))).

Definition _restart_db (g : Gate) : M unit :=
  emit (Enter "_restart_db") ;;
  let* status := _get_db_status in
  (if status then do_db_stop g else ret tt) ;;
  do_db_start g ;;
  do_db_status.

(** ** The tuner *)

Module PgTune.

Definition max_connections : Z := 80.

(** The loop of [br] on a positive [value]: halving drops the last bit. *)
Fixpoint br_pos (value : positive) (m : Z) : Z :=
  if Z.pos value >? 0x10 then
    match value with
    | xO value' | xI value' => br_pos value' (m * 2)
    | xH => m * 1
    end
  else m * Z.pos value.

Definition br (value : Z) : Z :=
  match value with
  | Z.pos p => br_pos p 1
  | _ => 1 * value
  end.

Definition toMB (value : Z) : string := str_of_Z (value / 0x400) +:+ "MB".

Definition KB : Z := 0x400.
Definition MB : Z := KB * 0x400.

(** [estimate()], as the [config] it leaves, from [get_total_memory()]. *)
Definition estimate (total_memory : option Z) : exn + gmap string value :=
  match total_memory with
  | None => inl (PyException "Cannot get total memory of this system")
  | Some mem0 =>
      if mem0 =? 0 then
        inl (PyException "Cannot get total memory of this system")
      else
        let mem := mem0 / KB in
        if mem >? 0xff * MB then
          inl (PyException "This is a low memory system and is not supported!")
        else
          let checkpoint_segments := 8 in
          inr (<["max_connections" := VInt max_connections]>
               (<["default_statistics_target" := VInt 10]>
               (<["constraint_exclusion" := VStr "off"]>
               (<["wal_buffers" := VStr (toMB (0x200 * checkpoint_segments))]>
               (<["checkpoint_completion_target" := VStr "0.7"]>
               (<["checkpoint_segments" := VInt checkpoint_segments]>
               (<["maintenance_work_mem" :=
                    VStr (toMB (br (if mem / 0x10 >? MB then MB
                                    else mem / 0x10)))]>
               (<["work_mem" := VStr (toMB (br (mem / max_connections)))]>
               (<["effective_cache_size" := VStr (toMB (br (mem * 3 / 4)))]>
               (<["shared_buffers" := VStr (toMB (br (mem / 4)))]>
                  ∅))))))))))
  end.

End PgTune.

(** ** Reconciliation: [do_system_check] *)

(** [str(conf.get(item, None))] *)
Definition str_get (conf : gmap string value) (item : string) : string :=
  match conf !! item with
  | Some v => py_str v
  | None => "None"
  end.

(** The loop over the tuner's entries. *)
Fixpoint tune_loop (items : list (string * value))
    (conf : gmap string value) (changed : bool) : gmap string value * bool :=
  match items with
  | [] => (conf, changed)
  | (item, value) :: rest =>
      let changed :=
        if negb changed && negb (String.eqb (str_get conf item) (py_str value))
        then true else changed in
      tune_loop rest (<[item := value]> conf) changed
  end.

(** [not conf.get(k) or test(conf.get(k))]: the test is only reached by a
    value that is there and true. *)
Definition missing_or (conf : gmap string value) (k : string)
    (test : value → bool) : bool :=
  match conf !! k with
  | None => true
  | Some v => negb (truthy v) || test v
  end.

(** The rules on postgresql.conf, in the order of the source. *)
Definition policy_rules (conf : gmap string value) (changed : bool)
    : gmap string value * bool :=
  (* WAL should be at least archive. *)
  let conf :=
    if missing_or conf "wal_level" (λ v, bool_decide (v = VStr "minimal"))
    then <["wal_level" := VStr "archive"]> conf else conf in
  (* WAL senders at least 5 *)
  let '(conf, changed) :=
    if missing_or conf "max_wal_senders" (λ v, py_lt v (VStr "5"))
    then (<["max_wal_senders" := VInt 5]> conf, true) else (conf, changed) in
  (* WAL keep segments must be non-zero *)
  let '(conf, changed) :=
    if bool_decide (default (VStr "0") (conf !! "wal_keep_segments") = VStr "0")
    then (<["wal_keep_segments" := VInt 64]> conf, true) else (conf, changed) in
  (* Should run in archive mode *)
  let '(conf, changed) :=
    if bool_decide (default (VStr "off") (conf !! "archive_mode") ≠ VStr "on")
    then (<["archive_mode" := VStr "on"]> conf, true) else (conf, changed) in
  (* Stub *)
  let '(conf, changed) :=
    if bool_decide (default (VStr "") (conf !! "archive_command")
                    ≠ VStr "'/bin/true'")
    then (<["archive_command" := VStr "'/bin/true'"]> conf, true)
    else (conf, changed) in
  let '(conf, changed) :=
    if bool_decide (default (VStr "on") (conf !! "standard_conforming_strings")
                    ≠ VStr "'off'")
    then (<["standard_conforming_strings" := VStr "'off'"]> conf, true)
    else (conf, changed) in
  (* bnc#775591 *)
  let '(conf, changed) :=
    if bool_decide (default (VStr "") (conf !! "bytea_output")
                    ≠ VStr "'escape'")
    then (<["bytea_output" := VStr "'escape'"]> conf, true)
    else (conf, changed) in
  (conf, changed).

(** The rules of [policy_rules] seen as a table.  The first rule, on
    [wal_level], assigns without setting [changed]; each of the six others
    has a key, a test on [conf.get(key)] that makes it fire, and the value
    it then assigns while setting [changed]. *)
Definition wal_level_rule (conf : gmap string value) : gmap string value :=
  if missing_or conf "wal_level" (λ v, bool_decide (v = VStr "minimal"))
  then <["wal_level" := VStr "archive"]> conf else conf.

Definition flag_rules : list (string * (option value → bool) * value) :=
  [("max_wal_senders",
    (λ o, match o with
          | None => true
          | Some v => negb (truthy v) || py_lt v (VStr "5")
          end), VInt 5);
   ("wal_keep_segments",
    (λ o, bool_decide (default (VStr "0") o = VStr "0")), VInt 64);
   ("archive_mode",
    (λ o, bool_decide (default (VStr "off") o ≠ VStr "on")), VStr "on");
   ("archive_command",
    (λ o, bool_decide (default (VStr "") o ≠ VStr "'/bin/true'")),
    VStr "'/bin/true'");
   ("standard_conforming_strings",
    (λ o, bool_decide (default (VStr "on") o ≠ VStr "'off'")), VStr "'off'");
   ("bytea_output",
    (λ o, bool_decide (default (VStr "") o ≠ VStr "'escape'")),
    VStr "'escape'")].

Definition flag_rule (r : string * (option value → bool) * value)
    (st : gmap string value * bool) : gmap string value * bool :=
  if r.1.2 (st.1 !! r.1.1) then (<[r.1.1 := r.2]> st.1, true) else st.

(** A document on which none of the six rules fires. *)
Definition compliant (conf : gmap string value) : bool :=
  forallb (λ r : string * (option value → bool) * value,
             negb (r.1.2 (conf !! r.1.1))) flag_rules.

(** One line of pg_hba.conf: its tokens, or nothing for a blank or comment
    line. *)
Definition hba_line (raw : string) : option (list string) :=
  let line := strip raw in
  if is_empty line || startswith line "#" then None
  else Some (List.filter (λ t, negb (is_empty t))
               (split " " (replace_char TAB " " line))).

Definition replication_cfg : list string :=
  ["local"; "replication"; "postgres"; "peer"].

(** The rule on pg_hba.conf. *)
Definition hba_rule (pg_hba_conf : list (list string))
    : list (list string) * bool :=
  if negb (bool_decide (replication_cfg ∈ pg_hba_conf))
  then (pg_hba_conf ++ [replication_cfg], true)
  else (pg_hba_conf, false).

(** The records of pg_hba.conf, as the loop of [do_system_check] collects
    them. *)
Definition parse_hba (text : string) : list (list string) :=
  omap hba_line (readlines text).

Section SystemCheck.
Context `{DictOrder}.

(** The block [if 'autotuning' in args] without the host: the dictionary
    and the flag after it, for the memory the host reports. *)
Definition tuned (args : list string) (mem : option Z)
    (conf : gmap string value) (changed : bool)
    : exn + gmap string value * bool :=
  if bool_decide ("autotuning" ∈ args) then
    match PgTune.estimate mem with
    | inl e => inl e
    | inr config => inr (tune_loop (dict_items config) conf changed)
    end
  else inr (conf, changed).

(** Built-in tuner *)
Definition autotune (args : list string) (conf : gmap string value)
    (changed : bool) : M (gmap string value * bool) :=
  let* mem := gets (λ w, phys_mem (host w)) in
  match tuned args mem conf changed with
  | inl e => raise e
  | inr r => ret r
  end.

(** Commit the changes *)
Definition commit_changes (g : Gate) (conf_path : string)
    (conf : gmap string value) (changed : bool) (pg_hba_cnf_path : string)
    (pg_hba_conf : list (list string)) (hba_changed : bool) : M unit :=
  if changed || hba_changed then
    emit (Stdout "INFO: Database needs to be restarted.") ;;
    (if changed then
       let* conf_bk := _write_conf_kwargs conf_path conf in
       match conf_bk with
       | Some bk =>
           emit (Stdout ("INFO: Wrote new general configuration. Backup as "
                           +:+ bk))
       | None => ret tt
       end
     else ret tt) ;;
    (* hba save *)
    (if hba_changed then
       let* conf_bk := _write_conf pg_hba_cnf_path pg_hba_conf ∅ in
       match conf_bk with
       | Some bk =>
           emit (Stdout ("INFO: Wrote new client auth configuration. Backup as "
                           +:+ bk))
       | None => ret tt
       end
     else ret tt) ;;
    (* Restart *)
    let* status := _get_db_status in
    (if status then do_db_stop g else ret tt) ;;
    do_db_start g ;;
    do_db_status
  else emit (Stdout "INFO: No changes required.").

Definition do_system_check (g : Gate) (args : list string) : M bool :=
  let conf_path := pcnf_pg_data g +:+ "/postgresql.conf" in
  let* conf := _get_conf conf_path in
  let changed := false in
  (* Setup postgresql.conf *)
  let* '(conf, changed) := autotune args conf changed in
  let '(conf, changed) := policy_rules conf changed in
  (* Setup pg_hba.conf *)
  let pg_hba_cnf_path := pcnf_pg_data g +:+ "/pg_hba.conf" in
  let* text := read_file pg_hba_cnf_path in
  let '(pg_hba_conf, hba_changed) := hba_rule (parse_hba text) in
  commit_changes g conf_path conf changed pg_hba_cnf_path pg_hba_conf
    hba_changed ;;
  emit (Stdout "System check finished") ;;
  ret true.

End SystemCheck.

(** ** Directories *)

(** [p[:p.rfind('/') + 1]] *)
Fixpoint dirname_head (p : string) : string :=
  match p with
  | "" => ""
  | String c p' =>
      match dirname_head p' with
      | "" => if Ascii.eqb c "/" then "/" else ""
      | h => String c h
      end
  end.

(** [s.rstrip(a)] for one character. *)
Fixpoint rstrip_char (a : ascii) (s : string) : string :=
  match s with
  | "" => ""
  | String c s' =>
      match rstrip_char a s' with
      | "" => if Ascii.eqb c a then "" else String c ""
      | r => String c r
      end
  end.

(** [os.path.dirname(p)] *)
Definition dirname (p : string) : string :=
  let head := dirname_head p in
  if negb (is_empty head) && negb (is_empty (rstrip_char "/" head))
  then rstrip_char "/" head else head.

Definition under (d p : string) : bool := String.prefix (d +:+ "/") p.

(** [shutil.rmtree(d)] *)
Definition shutil_rmtree (d : string) : M unit :=
  let* isdir := gets (λ w, bool_decide (d ∈ dirs w)) in
  if negb isdir then raise (OSError "[Errno 20] Not a directory")
  else
    emit (Rmtree d) ;;
    modify (λ w,
      set_dirs (filter (λ p, p ≠ d ∧ under d p = false) (dirs w))
        (set_files (filter (λ e, under d e.1 = false) (files w)) w)).

(** [os.mkdir(d)], and the [mkdir -p] run through [os.system]. *)
Definition os_mkdir (d : string) : M unit :=
  emit (Mkdir d) ;; modify (λ w, set_dirs ({[d]} ∪ dirs w) w).

Definition system_mkdir_p (cmd d : string) : M unit :=
  emit (System cmd) ;; modify (λ w, set_dirs ({[d]} ∪ dirs w) w).

(** [os.remove(p)] *)
Definition os_remove (p : string) : M unit :=
  λ w, match files w !! p with
       | Some _ => (set_files (delete p (files w)) w, inr tt)
       | None => (w, inl (OSError "[Errno 2] No such file or directory"))
       end.

(** [os.system] of [pg_basebackup -D d]: on success the archive is in [d]. *)
Definition system_pg_basebackup (cmd d : string) : M unit :=
  emit (System cmd) ;;
  let* ok := gets (λ w, basebackup_ok (host w)) in
  if ok then
    modify (λ w, set_dirs ({[d]} ∪ dirs w)
                   (set_files (<[d +:+ "/base.tar.gz" := "<base backup>"]>
                                 (files w)) w))
  else ret tt.

(** ** Archival: [_perform_enable_backups] *)

Section Archival.
Context `{DictOrder}.

Definition archive_command_for (backup_dir : string) : string :=
  "'" +:+ "/usr/bin/smdba-pgarchive --source " +:+ dquote +:+ "%p" +:+ dquote
    +:+ " --destination " +:+ dquote +:+ backup_dir +:+ "/%f" +:+ dquote
    +:+ "'".

(** [enable] is [args.get('enable', 'off')], [backup_dir] is
    [args.get('backup-dir')], which [do_backup_hot] has checked. *)
Definition _perform_enable_backups (g : Gate) (enable backup_dir : string)
    : M unit :=
  let conf_path := pcnf_pg_data g +:+ "/postgresql.conf" in
  let* conf := _get_conf conf_path in
  if String.eqb enable "on" then
    (* Enable backups *)
    let* status := _get_db_status in
    (if negb status then do_db_start g else ret tt) ;;
    let* status := _get_db_status in
    if negb status then raise (GateException "Cannot start the database!")
    else
      let* ex := path_exists backup_dir in
      (if negb ex then
         system_mkdir_p ("sudo -u postgres /bin/mkdir -p -m 0700 "
                           +:+ backup_dir) backup_dir
       else ret tt) ;;
      (* first write the archive_command and restart the db *)
      let cmd := archive_command_for backup_dir in
      (if bool_decide (default (VStr "") (conf !! "archive_command") ≠ VStr cmd)
       then
         _write_conf_kwargs conf_path (<["archive_command" := VStr cmd]> conf) ;;
         _restart_db g
       else ret tt) ;;
      (* round robin of base backups *)
      let* ex := path_exists (backup_dir +:+ "/base.tar.gz") in
      (if ex then
         let* ex_old := path_exists (backup_dir +:+ "/base-old.tar.gz") in
         (if ex_old then os_remove (backup_dir +:+ "/base-old.tar.gz")
          else ret tt) ;;
         os_rename (backup_dir +:+ "/base.tar.gz")
           (backup_dir +:+ "/base-old.tar.gz")
       else ret tt) ;;
      let* cwd0 := gets cwd in
      chdir (default "/var/lib/pgsql" (pcnf_data_directory g)) ;;
      system_pg_basebackup
        ("sudo -u postgres /usr/bin/pg_basebackup -D " +:+ backup_dir
           +:+ "/tmp/" +:+ " -Ft -c fast -x -v -P -z")
        (backup_dir +:+ "/tmp") ;;
      chdir cwd0 ;;
      let* ex := path_exists (backup_dir +:+ "/tmp/base.tar.gz") in
      if ex then
        os_rename (backup_dir +:+ "/tmp/base.tar.gz")
          (backup_dir +:+ "/base.tar.gz")
      else ret tt
  else
    (* Disable backups *)
    let* ex := path_exists backup_dir in
    (if String.eqb enable "purge" && ex then shutil_rmtree backup_dir
     else ret tt) ;;
    let cmd := "'/bin/true'" in
    if bool_decide (default (VStr "") (conf !! "archive_command") ≠ VStr cmd)
    then
      _write_conf_kwargs conf_path (<["archive_command" := VStr cmd]> conf) ;;
      _restart_db g
    else ret tt.

(** The statement with which both branches of [_perform_enable_backups]
    settle the archive command [cmd]. *)
Definition switch_archive_command (g : Gate) (conf_path : string)
    (conf : gmap string value) (cmd : string) : M unit :=
  if bool_decide (default (VStr "") (conf !! "archive_command") ≠ VStr cmd)
  then
    _write_conf_kwargs conf_path (<["archive_command" := VStr cmd]> conf) ;;
    _restart_db g
  else ret tt.

(** What [_perform_enable_backups] does after it has settled the archive
    command in the branch that enables: the rotation of the base backups
    and the new base backup. *)
Definition take_base_backup (g : Gate) (backup_dir : string) : M unit :=
  let* ex := path_exists (backup_dir +:+ "/base.tar.gz") in
  (if ex then
     let* ex_old := path_exists (backup_dir +:+ "/base-old.tar.gz") in
     (if ex_old then os_remove (backup_dir +:+ "/base-old.tar.gz")
      else ret tt) ;;
     os_rename (backup_dir +:+ "/base.tar.gz")
       (backup_dir +:+ "/base-old.tar.gz")
   else ret tt) ;;
  let* cwd0 := gets cwd in
  chdir (default "/var/lib/pgsql" (pcnf_data_directory g)) ;;
  system_pg_basebackup
    ("sudo -u postgres /usr/bin/pg_basebackup -D " +:+ backup_dir
       +:+ "/tmp/" +:+ " -Ft -c fast -x -v -P -z")
    (backup_dir +:+ "/tmp") ;;
  chdir cwd0 ;;
  let* ex := path_exists (backup_dir +:+ "/tmp/base.tar.gz") in
  if ex then
    os_rename (backup_dir +:+ "/tmp/base.tar.gz")
      (backup_dir +:+ "/base.tar.gz")
  else ret tt.

(** The archive command a host has configured: what [_get_conf] reads for
    it from a postgresql.conf that parses. *)
Definition configured_command (conf_path : string) (w : World)
    : option value :=
  match files w !! conf_path with
  | Some text =>
      match parse_lines (readlines text) with
      | inr es => doc_of_entries es ∅ !! "archive_command"
      | inl _ => None
      end
  | None => None
  end.

End Archival.

(** ** Backup status and restore *)

(** The loop of [do_backup_status] over the words of the archive command:
    the word after the first that starts with [--destination]. *)
Fixpoint destination_word (cmd : list string) (found_dest : bool)
    : option string :=
  match cmd with
  | [] => None
  | comp :: rest =>
      if startswith comp "--destination" then destination_word rest true
      else if found_dest then Some comp
      else destination_word rest found_dest
  end.

(** [do_backup_status]: the pair it returns under [--silent], and
    [None] after the report otherwise. *)
Definition do_backup_status (g : Gate) (opts : list string)
    : M (option (string * bool)) :=
  let conf_path := pcnf_pg_data g +:+ "/postgresql.conf" in
  let* conf := _get_conf conf_path in
  let* conf2 := _get_conf conf_path in
  let cmd := split " " (py_str (default (VStr "") (conf2 !! "archive_command"))) in
  let* '(backup_dst, backup_on) :=
    match destination_word cmd false with
    | Some comp =>
        let backup_dst := dirname (remove_char "'" (remove_char DQUOTE comp)) in
        let* backup_on := path_exists backup_dst in
        ret (backup_dst, backup_on)
    | None => ret ("", false)
    end in
  (* os.listdir(backup_dst) *)
  let* isdir := gets (λ w, bool_decide (backup_dst ∈ dirs w)) in
  if negb (is_empty backup_dst) && negb isdir then
    raise (OSError "[Errno 2] No such file or directory")
  else if negb (bool_decide ("--silent" ∈ opts)) then
    let* last := gets (λ w, last_transaction_report (host w) backup_dst) in
    let* space := gets (λ w, space_available_report (host w) backup_dst) in
    emit (Stdout ("Backup status:" +:+ tab +:+ tab +:+ " "
                    +:+ (if backup_on then "ON" else "OFF"))) ;;
    emit (Stdout ("Destination:" +:+ tab +:+ tab +:+ " "
                    +:+ (if is_empty backup_dst then "--" else backup_dst))) ;;
    emit (Stdout ("Last transaction:" +:+ tab +:+ " " +:+ last)) ;;
    emit (Stdout ("Space available:" +:+ tab +:+ " " +:+ space)) ;;
    ret None
  else ret (Some (backup_dst, backup_on)).

(** [du -bc path] and [df -TB1 path], as the host answers them. *)
Definition _get_tablespace_size (path : string) : M Z :=
  gets (λ w, du_bytes (host w) path).

Definition _get_partition_size (path : string) : M Z :=
  gets (λ w, df_available (host w) path).

Definition _rst_shutdown_db (g : Gate) : M unit :=
  let* status := _get_db_status in
  if status then
    do_db_stop g ;;
    do_db_status ;;
    let* status := _get_db_status in
    if status then
      emit (Stderr "Error: Unable to stop database.") ;;
      raise (SystemExit 1)
    else ret tt
  else ret tt.

Definition _rst_save_current_cluster (g : Gate) : M unit :=
  let old_data_dir := dirname (pcnf_pg_data g) +:+ "/data.old" in
  let* ex := path_exists old_data_dir in
  (if negb ex then
     os_mkdir old_data_dir ;;
     emit (Stdout ("Created " +:+ dquote +:+ old_data_dir +:+ dquote
                     +:+ " directory."))
   else ret tt) ;;
  emit (Stdout ("Moving broken cluster:" +:+ tab +:+ " ")) ;;
  let* suffix := time_prefix in
  let destination_tar := old_data_dir +:+ "/data." +:+ suffix +:+ ".tar.gz" in
  let tar_command := "/bin/tar -czPf " +:+ destination_tar +:+ " "
                       +:+ pcnf_pg_data g +:+ " 2>/dev/null" in
  emit (System tar_command) ;;
  emit (Stdout "finished") ;;
  emit Sleep.

Definition _rst_replace_new_backup (g : Gate) (backup_dst : string) : M unit :=
  emit (Stdout ("Restoring from backup:" +:+ tab +:+ " ")) ;;
  (* Remove cluster in general *)
  emit (Stdout ("Remove broken cluster:" +:+ tab +:+ " ")) ;;
  shutil_rmtree (pcnf_pg_data g) ;;
  emit (Stdout "finished") ;;
  (* Unarchive cluster *)
  emit (Stdout ("Unarchiving new backup:" +:+ tab +:+ " ")) ;;
  let destination_tar := backup_dst +:+ "/base.tar.gz" in
  let* temp_dir := gets (λ w, tempdir (host w)) in
  emit (Mkdtemp temp_dir) ;;
  modify (λ w, set_dirs ({[temp_dir]} ∪ dirs w) w) ;;
  emit (Chown temp_dir) ;;
  let tar_command := "/bin/tar xf " +:+ destination_tar +:+ " --directory="
                       +:+ temp_dir +:+ " 2>/dev/null" in
  emit (System tar_command) ;;
  emit (Stdout "finished") ;;
  emit Sleep ;;
  emit (Stdout ("Restore cluster:" +:+ tab +:+ " ")) ;;
  let* backup_root := gets (λ w, unpacked_root (host w)) in
  let mv_command := "/bin/mv " +:+ default "None" backup_root +:+ " "
                      +:+ dirname (pcnf_pg_data g) +:+ "/data" in
  emit (System mv_command) ;;
  emit (Stdout "finished") ;;
  emit (Stdout ("Write recovery.conf:" +:+ tab +:+ " ")) ;;
  let cfg := dirname (pcnf_pg_data g) +:+ "/data/recovery.conf" in
  open_w cfg ;;
  file_write cfg ("restore_command = 'cp " +:+ backup_dst +:+ "/%f %p'" +:+ nl) ;;
  emit (Stdout "finished").

(** The ratio of compressing a typical cluster, [0.134], as a rational. *)
Definition ratio : Q := 134 # 1000.

(** The figure [do_backup_restore] prints as the predicted space. *)
Definition predicted_space (disk_size curr_ts_size bckp_ts_size : Z) : Q :=
  (inject_Z disk_size - inject_Z curr_ts_size * ratio
   - inject_Z bckp_ts_size)%Q.

(** The test [do_backup_restore] applies before it touches anything. *)
Definition enough_space (disk_size curr_ts_size bckp_ts_size : Z) : bool :=
  negb (disk_size - curr_ts_size - bckp_ts_size <? 0x40000000).

Definition do_backup_restore (g : Gate) : M unit :=
  let* status := do_backup_status g ["--silent"] in
  match status with
  | None => raise (TypeError "'NoneType' object is not iterable")
  | Some (backup_dst, backup_on) =>
      if negb backup_on then
        emit (Stderr "No backup snapshots are available.") ;;
        raise (SystemExit 1)
      else
        (* Check if we have enough space to fit enough copy of the tablespace *)
        let* curr_ts_size := _get_tablespace_size (pcnf_pg_data g) in
        let* bckp_ts_size := _get_tablespace_size backup_dst in
        let* disk_size := _get_partition_size (pcnf_pg_data g) in
        emit (Stdout ("Current cluster size:" +:+ tab
                        +:+ size_pretty g (inject_Z curr_ts_size))) ;;
        emit (Stdout ("Backup size:" +:+ tab +:+ tab
                        +:+ size_pretty g (inject_Z bckp_ts_size))) ;;
        emit (Stdout ("Current disk space:" +:+ tab
                        +:+ size_pretty g (inject_Z disk_size))) ;;
        emit (Stdout ("Predicted space:" +:+ tab
                        +:+ size_pretty g
                              (predicted_space disk_size curr_ts_size
                                 bckp_ts_size))) ;;
        (* At least 1GB free disk space required *after* restore from the
           backup *)
        if disk_size - curr_ts_size - bckp_ts_size <? 0x40000000 then
          emit (Stderr
                  "At least 1GB free disk space required after backup restoration.") ;;
          raise (SystemExit 1)
        else
          (* Requirements were met at this point. *)
          _rst_shutdown_db g ;;
          _rst_save_current_cluster g ;;
          _rst_replace_new_backup g backup_dst ;;
          do_db_start g
  end.

(** ** Observations of the host *)

(** An observation [f] of the host that does not look at one of its
    components. *)
Section Blind.
Context {X : Type} (f : World → X).

Definition blind_to_trace : Prop := ∀ t w, f (set_trace t w) = f w.
Definition blind_to_files : Prop := ∀ fs w, f (set_files fs w) = f w.
Definition blind_to_dirs : Prop := ∀ ds w, f (set_dirs ds w) = f w.
Definition blind_to_running : Prop := ∀ b w, f (set_running b w) = f w.

End Blind.



(** ** The gate object: what [__init__] reads *)

(** [self.config] while the gate is built is a map from names to strings:
    the entries read from /etc/sysconfig/postgresql (prefix [sysconfig_]),
    the data directory ([pcnf_pg_data]) and the settings of the running
    server (prefix [pcnf_]). *)

(** The loop of [_get_sysconfig] over the stripped, non-empty lines: a line
    that does not split at an equals sign is reported and skipped. *)
Fixpoint sysconfig_lines (lines : list string) (config : gmap string string)
    : M (gmap string string) :=
  match lines with
  | [] => ret config
  | line :: rest =>
      if startswith line "#" then sysconfig_lines rest config
      else
        match split1 "=" line with
        | [k; v] => sysconfig_lines rest (<["sysconfig_" +:+ k := v]> config)
        | _ =>
            emit (Stderr ("Cannot parse line " +:+ line +:+ " from sysconfig.")) ;;
            sysconfig_lines rest config
        end
  end.

Definition _get_sysconfig (config : gmap string string)
    : M (gmap string string) :=
  let* text := read_file "/etc/sysconfig/postgresql" in
  sysconfig_lines
    (List.filter (λ line, negb (is_empty line)) (strip <$> readlines text))
    config.

(** [os.path.expanduser(p)]: a path that does not start with a tilde is
    returned as it is; for the others [home] is what the host answers. *)
Definition expanduser (home : string → string) (p : string) : string :=
  if startswith p "~" then home p else p.

(** The loop of [_get_pg_data] over the lines of the file. *)
Fixpoint pg_data_lines (home : string → string) (lines : list string)
    (config : gmap string string) : gmap string string :=
  match lines with
  | [] => config
  | line :: rest =>
      pg_data_lines home rest
        (if startswith line "POSTGRES_DATADIR" then
           <["pcnf_pg_data" :=
               expanduser home
                 (remove_char DQUOTE (List.last (split1 "=" (strip line)) ""))]>
             config
         else config)
  end.

Definition _get_pg_data (home : string → string) (config : gmap string string)
    : M (gmap string string) :=
  let* text := read_file "/etc/sysconfig/postgresql" in
  let config := pg_data_lines home (readlines text) config in
  let config :=
    if String.eqb (default "" (config !! "pcnf_pg_data")) "" then
      (* use default path *)
      <["pcnf_pg_data" := "/var/lib/pgsql/data"]> config
    else config in
  let* ex := path_exists (default "" (config !! "pcnf_pg_data")) in
  if negb ex then
    raise (GateException "Cannot find core component tablespace on disk")
  else ret config.

(** The loop of [_get_pg_config] over the rows of [show all]. *)
Fixpoint pg_config_lines (lines : list string) (config : gmap string string)
    : M (gmap string string) :=
  match lines with
  | [] => ret config
  | line :: rest =>
      match strip <$> take 2 (split "|" line) with
      | [k; v] => pg_config_lines rest (<["pcnf_" +:+ k := v]> config)
      | _ =>
          emit (Stdout ("Cannot parse line: " +:+ line)) ;;
          pg_config_lines rest config
      end
  end.

(** [_get_pg_config], given what [psql] has printed for [show all] on its
    standard output and standard error. *)
Definition _get_pg_config (stdout stderr : string) (config : gmap string string)
    : M (gmap string string) :=
  if negb (is_empty stdout) then
    pg_config_lines (drop 2 (split LF (strip stdout))) config
  else
    emit (Stderr stderr) ;;
    raise (PyException "Underlying error: unable get backend configuration.").

(** [PgSQLGate.__init__(config)]: the configuration it leaves. *)
Definition gate_init (home : string → string) (stdout stderr : string)
    (config : gmap string string) : M (gmap string string) :=
  let* config := _get_sysconfig config in
  let* config := _get_pg_data home config in
  let* status := _get_db_status in
  if status then _get_pg_config stdout stderr config else ret config.

(** The entries of [self.config] the commands read. *)
Definition gate_of_config (config : gmap string string)
    (size_pretty : Q → string) : Gate :=
  mkGate (default "" (config !! "pcnf_pg_data"))
    (config !! "pcnf_data_directory") (config !! "sysconfig_POSTGRES_OPTIONS")
    size_pretty.

(** ** Requirements: [check] *)

(** [check()], given what [/usr/bin/postmaster --version] prints. *)
Definition check (version_output : string) : M bool :=
  if String.ltb (List.last (split " " (strip version_output)) "") "9.1" then
    raise (GateException "Core component is too old version.")
  else
    let* sysconfig := path_exists "/etc/sysconfig/postgresql" in
    if negb sysconfig then
      raise (GateException
               "Custom core component? Please strictly use SUSE components only!")
    else
      let* psql := path_exists "/usr/bin/psql" in
      let* postmaster := path_exists "/usr/bin/postmaster" in
      let* pg_ctl := path_exists "/usr/bin/pg_ctl" in
      let* pg_basebackup := path_exists "/usr/bin/pg_basebackup" in
      let msg :=
        if negb psql then Some "operations"
        else if negb postmaster then Some "core"
        else if negb pg_ctl then Some "control"
        else if negb pg_basebackup then Some "backup"
        else None in
      match msg with
      | Some msg =>
          raise (GateException ("Cannot find required " +:+ msg
                                  +:+ " component."))
      | None => ret true
      end.

(** ** Archiving a WAL segment: [do_backup_hot] with [--source] *)



Section HotBackup.
Context `{DictOrder}.


End HotBackup.

(** ** The root of an unpacked backup: [_rst_get_backup_root] *)

(** What [os.listdir] and [os.path.isdir] show below a directory: the
    names it holds, in the order of the listing, each a directory with
    what it holds or something else. *)
Inductive node : Type :=
  | File
  | Dir (entries : list (string * node)).

(** The loop over the listing: the first directory in which the search
    [visit] finds something. *)
Fixpoint first_root (visit : string → node → option string)
    (fpath : list (string * node)) : option string :=
  match fpath with
  | [] => None
  | (f, child) :: rest =>
      match child with
      | Dir _ =>
          match visit f child with
          | Some found => Some found
          | None => first_root visit rest
          end
      | File => first_root visit rest
      end
  end.

(** The search below [path], which is [n].  Only directories are
    searched; [path] is taken to be normalised, so that [os.path.normpath]
    returns it as it is. *)
Fixpoint backup_root (path : string) (n : node) : option string :=
  match n with
  | File => None
  | Dir entries =>
      if bool_decide ("backup_label" ∈ entries.*1) then Some path
      else first_root (λ f child, backup_root (path +:+ "/" +:+ f) child)
             entries
  end.

(** [_rst_get_backup_root(path)] for a directory [path] that holds
    [entries]. *)
Definition _rst_get_backup_root (path : string)
    (entries : list (string * node)) : option string :=
  backup_root path (Dir entries).

(** A directory [found] at or below the directory [path] that has an entry
    named [backup_label]. *)
Inductive located : string → node → string → Prop :=
  | located_here path entries :
      "backup_label" ∈ entries.*1 → located path (Dir entries) path
  | located_below path entries f child found :
      (f, child) ∈ entries →
      located (path +:+ "/" +:+ f) child found →
      located path (Dir entries) found.

(** ** Sample hosts and files *)

Definition GiB : Z := 0x40000000.

Definition sample_gate : Gate :=
  mkGate "/var/lib/pgsql/data" (Some "/var/lib/pgsql/data") None (λ _, "").

Definition sample_conf_path : string := "/var/lib/pgsql/data/postgresql.conf".
Definition sample_hba_path : string := "/var/lib/pgsql/data/pg_hba.conf".

(** A pg_hba.conf that has the replication rule. *)
Definition hba_with_rule : string :=
  "# TYPE  DATABASE  USER  METHOD" +:+ nl
  +:+ "local all all peer" +:+ nl
  +:+ "local" +:+ tab +:+ "replication" +:+ tab +:+ "postgres  peer" +:+ nl.

(** A postgresql.conf that meets every rule except that it does not set
    [wal_level]. *)
Definition conf_without_wal_level : string :=
  "max_wal_senders = 5" +:+ nl
  +:+ "wal_keep_segments = 64" +:+ nl
  +:+ "archive_mode = on" +:+ nl
  +:+ "archive_command = '/bin/true'" +:+ nl
  +:+ "standard_conforming_strings = 'off'" +:+ nl
  +:+ "bytea_output = 'escape'" +:+ nl.

(** The same with [wal_level] at the minimal setting. *)
Definition conf_minimal_wal_level : string :=
  "wal_level = minimal" +:+ nl +:+ conf_without_wal_level.

(** A postgresql.conf that meets every rule, with ten WAL senders. *)
Definition conf_ten_senders : string :=
  "wal_level = archive" +:+ nl
  +:+ "max_wal_senders = 10" +:+ nl
  +:+ "wal_keep_segments = 64" +:+ nl
  +:+ "archive_mode = on" +:+ nl
  +:+ "archive_command = '/bin/true'" +:+ nl
  +:+ "standard_conforming_strings = 'off'" +:+ nl
  +:+ "bytea_output = 'escape'" +:+ nl.

Definition check_world (conf : string) : World :=
  with_file sample_hba_path hba_with_rule
    (with_file sample_conf_path conf
       (mkWorld ∅ {["/var/lib/pgsql/data"]} true "/root" [] quiet_host)).

(** The document [_get_conf] reads from a text, for a text that parses. *)
Definition doc_of_text (text : string) : gmap string value :=
  match parse_lines (readlines text) with
  | inr es => doc_of_entries es ∅
  | inl _ => ∅
  end.

(** A host for the restore: the cluster holds 100 GiB, the backup 40 GiB,
    and 100 GiB are available on the partition of the cluster. *)
Definition restore_host : Host :=
  mkHost [2012; 7; 1; 9; 5; 3; 6; 183; 1] true true
    (λ p, if String.eqb p "/backup" then 40 * GiB else 100 * GiB)
    (λ _, 100 * GiB) true "/tmp/tmpAbCdEf" (Some "/tmp/tmpAbCdEf/data")
    (Some 8589934592) (λ _, "--") (λ _, "--").

Definition restore_world : World :=
  mkWorld
    {[sample_conf_path :=
        "archive_command = " +:+ archive_command_for "/backup" +:+ nl]}
    {["/backup"; "/var/lib/pgsql/data"]} true "/root" [] restore_host.

(** A postgresql.conf with a comment line, a blank line, a trailing comment
    and a key on two lines; its entries in the order of the file. *)
Definition commented_conf : string :=
  "# settings" +:+ nl +:+ nl
  +:+ "port = 5432 # default" +:+ nl
  +:+ "shared_buffers = 32MB" +:+ nl
  +:+ "port = 5433" +:+ nl.

Definition commented_entries : list (string * string) :=
  [("port", "5432"); ("shared_buffers", "32MB"); ("port", "5433")].

Definition commented_world : World :=
  with_file sample_conf_path commented_conf empty_world.

(** A postgresql.conf that holds a comment line and a blank line and sets
    no parameter. *)
Definition comment_only_conf : string := "# settings" +:+ nl +:+ nl.

Definition comment_only_world : World :=
  with_file sample_conf_path comment_only_conf empty_world.

(** A postgresql.conf whose only parameter is named [self], with a trailing
    comment. *)
Definition self_conf : string := "self = 1 # note" +:+ nl.

Definition self_world : World :=
  with_file sample_conf_path self_conf empty_world.

(** A host on which pg_hba.conf holds the text [old]. *)
Definition old_hba_world : World := with_file sample_hba_path "old" empty_world.

(** The entries of [conf_ten_senders]. *)
Definition ten_senders_entries : list (string * string) :=
  [("wal_level", "archive"); ("max_wal_senders", "10");
   ("wal_keep_segments", "64"); ("archive_mode", "on");
   ("archive_command", "'/bin/true'");
   ("standard_conforming_strings", "'off'"); ("bytea_output", "'escape'")].

(** A host on which archival to [backup_dir] is enabled: postgresql.conf
    holds the command of the enabled form, and the cluster runs. *)
Definition archived_world (backup_dir : string) : World :=
  with_file sample_conf_path
    ("archive_command = " +:+ archive_command_for backup_dir +:+ nl)
    (mkWorld ∅ {["/var/lib/pgsql/data"]} true "/root" [] quiet_host).

(** A pg_hba.conf without the replication rule, with a comment, a blank
    line and records separated by blanks and tabs. *)
Definition hba_without_rule : string :=
  "# TYPE  DATABASE  USER  METHOD" +:+ nl +:+ nl
  +:+ "local   all" +:+ tab +:+ "all   peer" +:+ nl
  +:+ "host all all 127.0.0.1/32 md5 # loopback" +:+ nl.

(** A host with [conf_ten_senders] and that pg_hba.conf. *)
Definition plain_hba_world : World :=
  with_file sample_hba_path hba_without_rule
    (with_file sample_conf_path conf_ten_senders
       (mkWorld ∅ {["/var/lib/pgsql/data"]} true "/root" [] quiet_host)).


(** A gate whose configuration has no [pcnf_data_directory], and a host
    on which the server is down. *)
Definition bare_gate : Gate :=
  mkGate "/var/lib/pgsql/data" None None (λ _, "").

Definition stopped_world : World :=
  with_file sample_hba_path hba_with_rule
    (with_file sample_conf_path conf_ten_senders
       (mkWorld ∅ {["/var/lib/pgsql/data"]} false "/root" [] quiet_host)).



(** /etc/sysconfig/postgresql with a data directory under the home of the
    user postgres, an option line and a line that is no assignment. *)
Definition sample_sysconfig : string :=
  "## Path: Applications/PostgreSQL" +:+ nl
  +:+ "POSTGRES_DATADIR=" +:+ dquote +:+ "~postgres/data" +:+ dquote +:+ nl
  +:+ "POSTGRES_OPTIONS=" +:+ dquote +:+ "-i" +:+ dquote +:+ nl
  +:+ "export" +:+ nl.

Definition sample_home (p : string) : string := "/var/lib/pgsql/data".

Definition init_world : World :=
  with_file "/etc/sysconfig/postgresql" sample_sysconfig
    (mkWorld ∅ {["/var/lib/pgsql/data"]} false "/root" [] quiet_host).

(** A host that has every component [check] asks for. *)
Definition complete_world : World :=
  with_file "/etc/sysconfig/postgresql" sample_sysconfig
    (with_file "/usr/bin/psql" ""
       (with_file "/usr/bin/postmaster" ""
          (with_file "/usr/bin/pg_ctl" ""
             (with_file "/usr/bin/pg_basebackup" "" empty_world)))).

(** ** Examples *)

Example strip_ex : strip ("  a b " +:+ tab +:+ nl) = "a b".
Proof. reflexivity. Qed.

Example split_none_ex : split "." "conf" = ["conf"].
Proof. reflexivity. Qed.

Example readlines_ex :
  readlines ("a" +:+ nl +:+ nl +:+ "b") = ["a" +:+ nl; nl; "b"].
Proof. reflexivity. Qed.

Example zfill_ex : zfill 2 (str_of_Z 7) = "07" ∧ zfill 2 (str_of_Z 2012) = "2012".
Proof. split; reflexivity. Qed.

Example get_conf_ex :
  (_get_conf "/d/postgresql.conf"
     (with_file "/d/postgresql.conf"
        ("# comment" +:+ nl +:+ nl +:+ "a = 1 # one" +:+ nl +:+ "b=x=y" +:+ nl
           +:+ "a = 2")
        empty_world)).2
  = inr (<["a" := VStr "2"]> (<["b" := VStr "x=y"]> ∅)).
Proof. vm_compute. reflexivity. Qed.

Example write_conf_ex :
  let w := with_file "/d/postgresql.conf" "old" empty_world in
  let r := _write_conf "/d/postgresql.conf" [] (<["a" := VInt 5]> ∅) w in
  r.2 = inr (Some "/d/postgresql.2012-07-01-09-05-03.conf")
  ∧ files r.1 !! "/d/postgresql.conf" = Some ("a = 5" +:+ nl)
  ∧ files r.1 !! "/d/postgresql.2012-07-01-09-05-03.conf" = Some "old".
Proof. vm_compute. auto. Qed.

Example br_ex : PgTune.br 1000 = 960 ∧ PgTune.br 16 = 16 ∧ PgTune.br 17 = 16.
Proof. repeat split; reflexivity. Qed.

Example estimate_ex :
  ∃ c, PgTune.estimate (Some 8589934592) = inr c
       ∧ c !! "shared_buffers" = Some (VStr "2048MB")
       ∧ c !! "wal_buffers" = Some (VStr "4MB").
Proof. eexists. split; [reflexivity|]. split; reflexivity. Qed.

Example dirname_ex :
  dirname "/var/lib/pgsql/data" = "/var/lib/pgsql" ∧ dirname "/data" = "/"
  ∧ dirname "data" = "" ∧ dirname "/srv//x" = "/srv".
Proof. repeat split; reflexivity. Qed.

Example split_ex : split "." "/a.b/c.conf" = ["/a"; "b/c"; "conf"].
Proof. reflexivity. Qed.

Example split1_ex : split1 "=" "a = b = c" = ["a "; " b = c"].
Proof. reflexivity. Qed.

Example join_ex : join "-" ["2012"; "07"; "01"] = "2012-07-01".
Proof. reflexivity. Qed.
(** ** Facts about the string primitives *)

Module StrFacts.

Lemma app_cons c s t : String c s +:+ t = String c (s +:+ t).
Proof. reflexivity. Qed.

Lemma app_nil_r s : s +:+ "" = s.
Proof. induction s as [|c s IH]; [done|]. by rewrite app_cons, IH. Qed.

Lemma app_assoc s t u : (s +:+ t) +:+ u = s +:+ (t +:+ u).
Proof. induction s as [|c s IH]; [done|]. by rewrite !app_cons, IH. Qed.

Lemma app_eq_nil s t : s +:+ t = "" → s = "" ∧ t = "".
Proof. destruct s; [done|]. by rewrite app_cons. Qed.

Lemma app_length s t :
  String.length (s +:+ t) = (String.length s + String.length t)%nat.
Proof. induction s as [|c s IH]; [done|]. rewrite app_cons. simpl. by rewrite IH. Qed.

Lemma is_empty_true s : is_empty s = true ↔ s = "".
Proof. by destruct s. Qed.

Lemma is_empty_false s : is_empty s = false ↔ s ≠ "".
Proof. by destruct s. Qed.

(** *** [has_char] *)

Lemma has_char_app c s t : has_char c (s +:+ t) = has_char c s || has_char c t.
Proof.
  induction s as [|d s IH]; [done|].
  rewrite app_cons. simpl. by rewrite IH, orb_assoc.
Qed.

(** *** [lstrip] and [rstrip] *)

Lemma lstrip_idem s : lstrip (lstrip s) = lstrip s.
Proof.
  induction s as [|c s IH]; [done|]. simpl.
  destruct (Ascii.is_space c) eqn:E; [done|]. simpl. by rewrite E.
Qed.

Lemma rstrip_cons c s :
  rstrip (String c s)
  = if is_empty (rstrip s) && Ascii.is_space c then "" else String c (rstrip s).
Proof. simpl. destruct (rstrip s); [|done]. simpl. by destruct (Ascii.is_space c). Qed.

Lemma rstrip_idem s : rstrip (rstrip s) = rstrip s.
Proof.
  induction s as [|c s IH]; [done|]. rewrite rstrip_cons.
  destruct (is_empty (rstrip s) && Ascii.is_space c) eqn:E; [done|].
  rewrite rstrip_cons, IH, E. done.
Qed.

Lemma rstrip_app_blank s t : rstrip t = "" → rstrip (s +:+ t) = rstrip s.
Proof.
  intros Ht. induction s as [|c s IH]; [done|].
  by rewrite app_cons, !rstrip_cons, IH.
Qed.

Lemma rstrip_app_keep s t :
  rstrip t ≠ "" → rstrip (s +:+ t) = s +:+ rstrip t.
Proof.
  intros Ht. induction s as [|c s IH]; [done|].
  rewrite app_cons, rstrip_cons, IH.
  destruct (s +:+ rstrip t) eqn:E; [|by rewrite app_cons, E].
  by apply app_eq_nil in E as [_ ?].
Qed.

Lemma lstrip_keep c s : Ascii.is_space c = false → lstrip (String c s) = String c s.
Proof. intros E. simpl. by rewrite E. Qed.

Lemma lstrip_fixed_app s t : lstrip s = s → s ≠ "" → lstrip (s +:+ t) = s +:+ t.
Proof.
  destruct s as [|c s]; [done|]. intros E _. rewrite app_cons.
  simpl in *. destruct (Ascii.is_space c) eqn:Ec; [|done].
  exfalso. assert (String.length (lstrip s) ≤ String.length s)%nat as Hl.
  { clear. induction s as [|d s IH]; simpl; [lia|]. destruct (Ascii.is_space d); simpl; lia. }
  rewrite E in Hl. simpl in Hl. lia.
Qed.

Lemma lstrip_fixed_head s :
  lstrip s = s ↔ match s with "" => True | String c _ => Ascii.is_space c = false end.
Proof.
  destruct s as [|c s]; [done|]. simpl. destruct (Ascii.is_space c) eqn:Ec; [|done].
  split; [|done]. intros E. exfalso.
  assert (String.length (lstrip s) ≤ String.length s)%nat as Hl.
  { clear. induction s as [|d s IH]; simpl; [lia|]. destruct (Ascii.is_space d); simpl; lia. }
  rewrite E in Hl. simpl in Hl. lia.
Qed.

(** [lstrip s] is a suffix of [s], cut after blanks only. *)
Lemma lstrip_suffix s : ∃ a, s = a +:+ lstrip s ∧ rstrip a = "".
Proof.
  induction s as [|c s (a & Ha & Hb)]; [by exists ""|]. simpl.
  destruct (Ascii.is_space c) eqn:Ec.
  - exists (String c a). rewrite app_cons, <- Ha. split; [done|].
    by rewrite rstrip_cons, Hb, Ec.
  - by exists "".
Qed.

(** [rstrip s] is a prefix of [s], cut before blanks only. *)
Lemma rstrip_prefix s : ∃ b, s = rstrip s +:+ b ∧ rstrip b = "".
Proof.
  induction s as [|c s (b & Hb & Hbl)]; [by exists ""|]. rewrite rstrip_cons.
  destruct (is_empty (rstrip s) && Ascii.is_space c) eqn:E.
  - apply andb_true_iff in E as [E1 E2]. apply is_empty_true in E1.
    exists (String c s). split; [done|]. by rewrite rstrip_cons, E1, E2.
  - exists b. by rewrite app_cons, <- Hb.
Qed.

Lemma rstrip_suffix_fixed a s : rstrip (a +:+ s) = a +:+ s → rstrip s = s.
Proof.
  intros E. destruct (decide (rstrip s = "")) as [Hs|Hs].
  - rewrite rstrip_app_blank in E by done.
    destruct (rstrip_prefix a) as (b & Hb & _).
    assert (String.length (rstrip a) = String.length a + String.length s)%nat as Hl
      by (by rewrite E, app_length).
    assert (String.length a = String.length (rstrip a) + String.length b)%nat as Hl'
      by (by rewrite Hb at 1; rewrite app_length).
    destruct s; [done|]. simpl in Hl. lia.
  - rewrite rstrip_app_keep in E by done. by apply String.app_inj in E.
Qed.

Lemma rstrip_lstrip_fixed s : rstrip s = s → rstrip (lstrip s) = lstrip s.
Proof.
  intros E. destruct (lstrip_suffix s) as (a & Ha & _).
  apply (rstrip_suffix_fixed a). by rewrite <- Ha.
Qed.

Lemma strip_lstrip_fixed s : lstrip (strip s) = strip s.
Proof. apply lstrip_idem. Qed.

Lemma strip_rstrip_fixed s : rstrip (strip s) = strip s.
Proof. apply rstrip_lstrip_fixed, rstrip_idem. Qed.

Lemma strip_fixed s : lstrip s = s → rstrip s = s → strip s = s.
Proof. unfold strip. by intros E1 ->. Qed.

Lemma strip_idem s : strip (strip s) = strip s.
Proof. apply strip_fixed; [apply strip_lstrip_fixed|apply strip_rstrip_fixed]. Qed.

Lemma has_char_lstrip c s : has_char c (lstrip s) = true → has_char c s = true.
Proof.
  destruct (lstrip_suffix s) as (a & Ha & _). intros E.
  rewrite Ha, has_char_app, E. apply orb_true_r.
Qed.

Lemma has_char_rstrip c s : has_char c (rstrip s) = true → has_char c s = true.
Proof.
  destruct (rstrip_prefix s) as (b & Hb & _). intros E.
  rewrite Hb, has_char_app, E. done.
Qed.

Lemma has_char_strip c s : has_char c s = false → has_char c (strip s) = false.
Proof.
  intros E. destruct (has_char c (strip s)) eqn:E'; [|done].
  apply has_char_lstrip, has_char_rstrip in E'. congruence.
Qed.


Lemma rstrip_blank_cons c s :
  rstrip (String c s) = "" ↔ Ascii.is_space c = true ∧ rstrip s = "".
Proof.
  rewrite rstrip_cons. destruct (rstrip s) eqn:E; simpl.
  - destruct (Ascii.is_space c); split; try done; by intros [? ?].
  - split; [done|]. by intros [? ?].
Qed.

Lemma lstrip_app_blank a t : rstrip a = "" → lstrip (a +:+ t) = lstrip t.
Proof.
  induction a as [|c a IH]; [done|]. intros [Ec Ea]%rstrip_blank_cons.
  rewrite app_cons. simpl. rewrite Ec. auto.
Qed.

Lemma rstrip_nl : rstrip nl = "".
Proof. reflexivity. Qed.

(** *** [partition], [split], [split1] *)

Lemma partition_no_sep sep s : has_char sep s = false → partition sep s = (s, None).
Proof.
  induction s as [|c s IH]; [done|]. simpl.
  intros [E1 E2]%orb_false_iff. by rewrite E1, IH.
Qed.

Lemma partition_app_sep sep a b :
  has_char sep a = false → partition sep (a +:+ String sep b) = (a, Some b).
Proof.
  induction a as [|c a IH].
  - intros _. change ("" +:+ String sep b) with (String sep b). simpl.
    by rewrite Ascii.eqb_refl.
  - cbn [has_char]. intros [E1 E2]%orb_false_iff. rewrite app_cons.
    cbn [partition]. by rewrite E1, IH.
Qed.

Lemma partition_spec sep s :
  match partition sep s with
  | (a, None) => s = a ∧ has_char sep s = false
  | (a, Some b) => s = a +:+ String sep b ∧ has_char sep a = false
  end.
Proof.
  induction s as [|c s IH]; [done|]. simpl.
  destruct (Ascii.eqb_spec c sep) as [->|Hne].
  - done.
  - apply Ascii.eqb_neq in Hne.
    destruct (partition sep s) as [a [b|]]; destruct IH as [-> IH];
      (split; [done|]); cbn [has_char]; rewrite ?Hne, ?IH; done.
Qed.

Lemma hd_split sep s : hd "" (split sep s) = (partition sep s).1.
Proof.
  induction s as [|c s IH]; [done|]. simpl.
  destruct (Ascii.eqb c sep); [done|].
  destruct (partition sep s) as [a b]. simpl in *.
  destruct (split sep s); simpl in *; [|by subst].
  by subst.
Qed.

Lemma split_not_nil sep s : split sep s ≠ [].
Proof.
  induction s as [|c s IH]; [done|]. simpl.
  destruct (Ascii.eqb c sep); [done|]. by destruct (split sep s).
Qed.

Lemma prefix_has_char c s : String.prefix (String c "") s = true → has_char c s = true.
Proof.
  destruct s as [|d s]; [done|]. simpl.
  destruct (ascii_dec c d) as [->|]; [|done]. by rewrite Ascii.eqb_refl.
Qed.

(** *** [readlines] *)

Lemma readlines_line body rest :
  has_char LF body = false →
  readlines (body +:+ nl +:+ rest) = (body +:+ nl) :: readlines rest.
Proof.
  induction body as [|c body IH].
  - intros _. change ("" +:+ nl +:+ rest) with (String LF rest). done.
  - cbn [has_char]. intros [E1 E2]%orb_false_iff. rewrite !app_cons.
    cbn [readlines]. rewrite E1, IH by done. reflexivity.
Qed.

Lemma readlines_shape s l :
  l ∈ readlines s →
  ∃ body, has_char LF body = false ∧ (l = body +:+ nl ∨ l = body).
Proof.
  revert l. induction s as [|c s IH]; intros l; simpl; [by intros ?%elem_of_nil|].
  destruct (Ascii.eqb_spec c LF) as [->|Hne].
  - intros [->|Hl]%elem_of_cons; [by exists ""; auto|]. auto.
  - apply Ascii.eqb_neq in Hne.
    destruct (readlines s) as [|h t] eqn:E.
    + intros ->%list_elem_of_singleton. exists (String c ""). simpl.
      rewrite Hne. auto.
    + intros [->|Hl]%elem_of_cons.
      * destruct (IH h) as (body & Hb & Hh); [by left|].
        exists (String c body). simpl. rewrite Hne, Hb.
        split; [done|]. destruct Hh as [->| ->]; auto.
      * apply IH. by right.
Qed.

Lemma readlines_strip_no_lf s l :
  l ∈ readlines s → has_char LF (strip l) = false.
Proof.
  intros (body & Hb & [->| ->])%readlines_shape.
  - unfold strip. rewrite rstrip_app_blank by apply rstrip_nl.
    destruct (has_char LF (lstrip (rstrip body))) eqn:E; [|done].
    apply has_char_lstrip, has_char_rstrip in E. congruence.
  - by apply has_char_strip.
Qed.

End StrFacts.

(** ** Facts about the configuration store *)

Module ConfFacts.
Import StrFacts.

Lemma trimmed_spec s : trimmed s = true ↔ lstrip s = s ∧ rstrip s = s.
Proof.
  unfold trimmed. rewrite andb_true_iff, !String.eqb_eq. done.
Qed.

Lemma trimmed_strip s : trimmed (strip s) = true.
Proof.
  apply trimmed_spec. split; [apply strip_lstrip_fixed|apply strip_rstrip_fixed].
Qed.

Lemma clean_key_spec k :
  clean_key k = true ↔
  lstrip k = k ∧ rstrip k = k ∧ has_char "=" k = false
  ∧ has_char "#" k = false ∧ has_char LF k = false.
Proof.
  unfold clean_key. rewrite !andb_true_iff, !negb_true_iff, trimmed_spec.
  tauto.
Qed.

Lemma clean_value_spec v :
  clean_value v = true ↔
  lstrip v = v ∧ rstrip v = v ∧ has_char "#" v = false ∧ has_char LF v = false.
Proof.
  unfold clean_value. rewrite !andb_true_iff, !negb_true_iff, trimmed_spec.
  tauto.
Qed.

(** The key with the blank that follows it in a written line, stripped on
    the left; the value with the blank before it, stripped on the right. *)
Lemma lstrip_key_part k X :
  lstrip k = k →
  lstrip (k +:+ " " +:+ String "=" X) = lstrip (k +:+ " ") +:+ String "=" X.
Proof.
  intros Hk. destruct k as [|c k]; [done|].
  apply lstrip_fixed_head in Hk.
  rewrite !app_cons, !lstrip_keep by done. by rewrite app_cons, app_assoc.
Qed.

Lemma lstrip_key_blank k : lstrip k = k → rstrip k = k → strip (lstrip (k +:+ " ")) = k.
Proof.
  intros Hl Hr. destruct k as [|c k]; [done|].
  pose proof Hl as Hc%lstrip_fixed_head.
  rewrite app_cons, lstrip_keep by done. rewrite <- app_cons.
  unfold strip. rewrite rstrip_app_blank by done. by rewrite Hr.
Qed.

Lemma rstrip_value_part v :
  rstrip v = v → rstrip (" " +:+ v +:+ nl) = rstrip (" " +:+ v).
Proof.
  intros Hv. rewrite <- app_assoc. by apply rstrip_app_blank.
Qed.

Lemma rstrip_value_blank v : lstrip v = v → rstrip v = v → strip (rstrip (" " +:+ v)) = v.
Proof.
  intros Hl Hr. destruct v as [|c v]; [done|].
  rewrite rstrip_app_keep by (by rewrite Hr).
  unfold strip. rewrite rstrip_app_keep by (by rewrite Hr, Hr).
  rewrite Hr, Hr. change (" " +:+ String c v) with (String " " (String c v)).
  simpl lstrip at 1. done.
Qed.

(** A written line is read back as the entry it was written from. *)
Lemma conf_line_written k v :
  clean_key k = true → clean_value v = true →
  conf_line (k +:+ " = " +:+ v +:+ nl) = Entry k v.
Proof.
  intros (Hkl & Hkr & Hke & Hkh & Hkn)%clean_key_spec
         (Hvl & Hvr & Hvh & Hvn)%clean_value_spec.
  set (KP := lstrip (k +:+ " ")). set (VP := rstrip (" " +:+ v)).
  assert (strip (k +:+ " = " +:+ v +:+ nl) = KP +:+ String "=" VP) as Hline.
  { unfold strip.
    change (k +:+ " = " +:+ v +:+ nl)
      with (k +:+ " " +:+ String "=" (" " +:+ v +:+ nl)).
    rewrite <- app_assoc.
    assert (rstrip (String "=" (" " +:+ v +:+ nl)) = String "=" VP) as Hr.
    { rewrite rstrip_cons, rstrip_value_part by done.
      by rewrite andb_false_r. }
    rewrite rstrip_app_keep; rewrite Hr; [|done].
    rewrite app_assoc. by apply lstrip_key_part. }
  assert (has_char "=" KP = false) as HKPe.
  { destruct (has_char "=" KP) eqn:E; [|done].
    apply has_char_lstrip in E. rewrite has_char_app, Hke in E. done. }
  assert (has_char "#" KP = false) as HKPh.
  { destruct (has_char "#" KP) eqn:E; [|done].
    apply has_char_lstrip in E. rewrite has_char_app, Hkh in E. done. }
  assert (has_char "#" VP = false) as HVPh.
  { destruct (has_char "#" VP) eqn:E; [|done].
    apply has_char_rstrip in E. rewrite has_char_app, Hvh in E. done. }
  assert (has_char "#" (KP +:+ String "=" VP) = false) as Hh.
  { rewrite has_char_app, HKPh. simpl. by rewrite HVPh. }
  unfold conf_line. rewrite Hline.
  assert (is_empty (KP +:+ String "=" VP) = false) as ->.
  { apply is_empty_false. intros [_ ?]%app_eq_nil. done. }
  assert (startswith (KP +:+ String "=" VP) "#" = false) as ->.
  { unfold startswith. destruct (String.prefix "#" _) eqn:E; [|done].
    apply prefix_has_char in E. congruence. }
  simpl orb. cbn iota.
  rewrite hd_split, partition_no_sep by done. simpl fst.
  rewrite <- Hline, strip_idem, Hline.
  unfold split1. rewrite partition_app_sep by done.
  simpl fmap. unfold KP, VP.
  by rewrite lstrip_key_blank, rstrip_value_blank.
Qed.

(** Every entry [_get_conf] reads is clean. *)
Lemma conf_line_entry raw k v :
  has_char LF (strip raw) = false →
  conf_line raw = Entry k v → clean_key k = true ∧ clean_value v = true.
Proof.
  unfold conf_line. intros Hn.
  destruct (is_empty (strip raw) || startswith (strip raw) "#"); [done|].
  rewrite hd_split. unfold split1.
  pose proof (partition_spec "#" (strip raw)) as Hp.
  destruct (partition "#" (strip raw)) as [body rest]. simpl fst.
  assert (has_char "#" body = false ∧ has_char LF body = false) as [Hbh Hbn].
  { destruct rest as [rest|]; destruct Hp as [Hs Hh].
    - split; [done|]. rewrite Hs, has_char_app in Hn.
      by apply orb_false_iff in Hn as [? _].
    - by subst. }
  pose proof (partition_spec "=" (strip body)) as Hq.
  destruct (partition "=" (strip body)) as [a [b|]]; [|done].
  destruct Hq as [Hs Hae]. simpl. intros [= <- <-].
  assert (has_char "#" (strip body) = false) as Hsh by by apply has_char_strip.
  assert (has_char LF (strip body) = false) as Hsn by by apply has_char_strip.
  rewrite Hs, has_char_app in Hsh, Hsn. simpl in Hsh, Hsn.
  apply orb_false_iff in Hsh as [Hah Hbh'], Hsn as [Han Hbn'].
  split.
  - apply clean_key_spec.
    split; [apply strip_lstrip_fixed|]. split; [apply strip_rstrip_fixed|].
    split_and!; by apply has_char_strip.
  - apply clean_value_spec.
    split; [apply strip_lstrip_fixed|]. split; [apply strip_rstrip_fixed|].
    split_and!; by apply has_char_strip.
Qed.


(** *** Reading: [_get_conf] through [parse_lines] *)

Lemma conf_of_lines_spec conf_path lines conf w :
  conf_of_lines conf_path lines conf w
  = (w, match parse_lines lines with
        | inr es => inr (doc_of_entries es conf)
        | inl line =>
            inl (GateException ("Cannot parse line [" +:+ line +:+ "] in "
                                  +:+ conf_path +:+ "."))
        end).
Proof.
  revert conf. induction lines as [|raw rest IH]; intros conf; [done|].
  simpl. destruct (conf_line raw) as [|k v|line]; [apply IH| |done].
  rewrite IH. by destruct (parse_lines rest).
Qed.

Lemma _get_conf_spec conf_path text w :
  files w !! conf_path = Some text →
  _get_conf conf_path w
  = (w, match parse_lines (readlines text) with
        | inr es => inr (doc_of_entries es ∅)
        | inl line =>
            inl (GateException ("Cannot parse line [" +:+ line +:+ "] in "
                                  +:+ conf_path +:+ "."))
        end).
Proof.
  intros Hf. unfold _get_conf, bind, path_exists, gets, read_file.
  rewrite Hf. rewrite bool_decide_eq_true_2 by eauto. simpl. rewrite Hf.
  apply conf_of_lines_spec.
Qed.

Lemma doc_of_entries_app es1 es2 conf :
  doc_of_entries (es1 ++ es2) conf = doc_of_entries es2 (doc_of_entries es1 conf).
Proof. apply foldl_app. Qed.

(** The last entry for a key wins: the document is the map of the
    entries read backwards. *)
Lemma doc_of_entries_rev es :
  doc_of_entries es ∅
  = list_to_map ((λ e : string * string, (e.1, VStr e.2)) <$> reverse es).
Proof.
  induction es as [|e es IH] using rev_ind; [done|].
  rewrite doc_of_entries_app, reverse_app. simpl. by rewrite IH.
Qed.

Lemma doc_of_entries_last es k v :
  doc_of_entries (es ++ [(k, v)]) ∅ !! k = Some (VStr v).
Proof. rewrite doc_of_entries_app. simpl. apply lookup_insert_eq. Qed.

Lemma parse_lines_entries_clean lines es :
  (∀ l, l ∈ lines → has_char LF (strip l) = false) →
  parse_lines lines = inr es →
  Forall (λ e, clean_key e.1 = true ∧ clean_value e.2 = true) es.
Proof.
  revert es. induction lines as [|raw rest IH]; intros es Hl; simpl.
  - by intros [= <-].
  - destruct (conf_line raw) as [|k v|line] eqn:E; [| |done].
    + apply IH. intros l ?. apply Hl. by right.
    + destruct (parse_lines rest) as [|es'] eqn:E'; [done|]. intros [= <-].
      constructor.
      * eapply conf_line_entry; [|done]. apply Hl. by left.
      * apply IH; [|done]. intros l ?. apply Hl. by right.
Qed.

(** *** Writing: the text of a document *)

Lemma concat_app l1 l2 : concat (l1 ++ l2) = concat l1 +:+ concat l2.
Proof.
  induction l1 as [|x l1 IH]; [done|]. simpl. by rewrite IH, app_assoc.
Qed.

Lemma readlines_lines bodies :
  Forall (λ b, has_char LF b = false) bodies →
  readlines (concat ((λ b, b +:+ nl) <$> bodies)) = (λ b, b +:+ nl) <$> bodies.
Proof.
  induction 1 as [|b bodies Hb _ IH]; [done|].
  rewrite fmap_cons. cbn [concat].
  rewrite app_assoc, readlines_line by done. by rewrite IH.
Qed.

Lemma clean_entry_spec e :
  clean_entry e = true ↔ clean_key e.1 = true ∧ clean_value (py_str e.2) = true.
Proof. unfold clean_entry. by rewrite andb_true_iff. Qed.

Lemma clean_entry_body e :
  clean_entry e = true → has_char LF (e.1 +:+ " = " +:+ py_str e.2) = false.
Proof.
  intros [(_ & _ & _ & _ & Hk)%clean_key_spec
          (_ & _ & _ & Hv)%clean_value_spec]%clean_entry_spec.
  rewrite !has_char_app, Hk, Hv. done.
Qed.

Lemma readlines_render items :
  Forall (λ e, clean_entry e = true) items →
  readlines (render_conf items) = conf_entry_line <$> items.
Proof.
  intros Hc. unfold render_conf.
  assert (conf_entry_line <$> items
          = (λ b, b +:+ nl) <$> ((λ e : string * value, e.1 +:+ " = " +:+ py_str e.2) <$> items))
    as ->.
  { rewrite <- list_fmap_compose. apply list_fmap_ext. intros _ e _.
    unfold conf_entry_line. simpl. by rewrite !app_assoc. }
  apply readlines_lines. apply Forall_fmap.
  eapply Forall_impl; [done|]. intros e. apply clean_entry_body.
Qed.

Lemma parse_lines_render items :
  Forall (λ e, clean_entry e = true) items →
  parse_lines (conf_entry_line <$> items)
  = inr ((λ e : string * value, (e.1, py_str e.2)) <$> items).
Proof.
  induction 1 as [|e items [Hk Hv]%clean_entry_spec _ IH]; [done|].
  rewrite !fmap_cons. cbn [parse_lines]. unfold conf_entry_line at 1.
  rewrite conf_line_written by done. by rewrite IH.
Qed.

Lemma doc_of_entries_items `{DictOrder} d :
  doc_of_entries ((λ e : string * value, (e.1, py_str e.2)) <$> dict_items d) ∅
  = as_read d.
Proof.
  rewrite doc_of_entries_rev, <- fmap_reverse, <- list_fmap_compose.
  assert (reverse (dict_items d) ≡ₚ map_to_list d) as Hp.
  { rewrite reverse_Permutation. apply dict_items_perm. }
  erewrite (list_fmap_ext _ (prod_map id (λ v, VStr (py_str v))))
    by (by intros _ [] _).
  rewrite list_to_map_fmap. unfold as_read. f_equal.
  rewrite <- (list_to_map_to_list d) at 2.
  apply list_to_map_proper; [|done].
  rewrite Hp. apply NoDup_fst_map_to_list.
Qed.

Lemma as_read_strings d : all_strings d = true → as_read d = d.
Proof.
  unfold all_strings, as_read. rewrite forallb_forall. intros Hs.
  apply map_eq. intros k. rewrite lookup_fmap.
  destruct (d !! k) as [v|] eqn:E; [|done]. simpl.
  specialize (Hs (k, v)). simpl in Hs.
  destruct v; [done|]. discriminate Hs.
  apply list_elem_of_In. by apply elem_of_map_to_list.
Qed.

Lemma clean_doc_items `{DictOrder} d :
  clean_doc d = true → Forall (λ e, clean_entry e = true) (dict_items d).
Proof.
  unfold clean_doc. rewrite forallb_forall. intros Hc.
  apply Forall_forall. intros e He. apply Hc, list_elem_of_In.
  by rewrite <- (dict_items_perm d).
Qed.

(** The text written for a clean document reads back as that document. *)
Lemma parse_render_conf `{DictOrder} d :
  clean_doc d = true →
  ∃ es, parse_lines (readlines (render_conf (dict_items d))) = inr es
        ∧ doc_of_entries es ∅ = as_read d.
Proof.
  intros Hc%clean_doc_items. eexists. split.
  - rewrite readlines_render by done. by apply parse_lines_render.
  - apply doc_of_entries_items.
Qed.


(** *** [_write_conf] on the host *)

Lemma set_files_id w : set_files (files w) w = w.
Proof. by destruct w. Qed.

Lemma for_each_file_write {A} p (f : A → string) l w c :
  files w !! p = Some c →
  for_each l (λ x, file_write p (f x)) w
  = (set_files (<[p := c +:+ concat (f <$> l)]> (files w)) w, inr tt).
Proof.
  revert w c. induction l as [|x l IH]; intros w c Hc.
  - simpl. unfold ret. rewrite app_nil_r, insert_id by done.
    by rewrite set_files_id.
  - cbn [for_each]. unfold bind at 1. unfold file_write at 1, modify.
    rewrite Hc. simpl default.
    erewrite IH by apply lookup_insert_eq.
    simpl. by rewrite insert_insert_eq, app_assoc.
Qed.

Lemma path_exists_file p w text :
  files w !! p = Some text → path_exists p w = (w, inr true).
Proof.
  intros Hf. unfold path_exists, gets. by rewrite Hf, bool_decide_eq_true_2 by eauto.
Qed.

Lemma path_exists_none p w :
  files w !! p = None → p ∉ dirs w → path_exists p w = (w, inr false).
Proof.
  intros Hf Hd. unfold path_exists, gets. rewrite Hf.
  rewrite bool_decide_eq_false_2 by (by intros []).
  by rewrite bool_decide_eq_false_2.
Qed.

Lemma bind_ok {A B} (m : M A) (k : A → M B) w w' a :
  m w = (w', inr a) → bind m k w = k a w'.
Proof. unfold bind. by intros ->. Qed.

Lemma bind_raise {A B} (m : M A) (k : A → M B) w w' e :
  m w = (w', inl e) → bind m k w = (w', inl e).
Proof. unfold bind. by intros ->. Qed.

Lemma backed_up_some conf_path pref fs text :
  fs !! conf_path = Some text →
  backed_up conf_path pref fs
  = (<[backup_name conf_path pref := text]> (delete conf_path fs),
     Some (backup_name conf_path pref)).
Proof. unfold backed_up. by intros ->. Qed.

Lemma backed_up_none conf_path pref fs :
  fs !! conf_path = None → backed_up conf_path pref fs = (fs, None).
Proof. unfold backed_up. by intros ->. Qed.

Section Write.
Context `{DictOrder}.

Lemma _write_conf_steps conf_path table data w :
  (files w !! conf_path = None → conf_path ∉ dirs w) →
  _write_conf conf_path table data w
  = write_body conf_path table data
      (backed_up conf_path (timestamp (host w)) (files w)).2
      (set_files (backed_up conf_path (timestamp (host w)) (files w)).1 w).
Proof.
  intros Hd. unfold _write_conf.
  destruct (files w !! conf_path) as [text|] eqn:Hf.
  - erewrite bind_ok by (by eapply path_exists_file).
    rewrite (backed_up_some _ _ _ text) by done.
    erewrite bind_ok; [reflexivity|].
    erewrite bind_ok by reflexivity.
    erewrite bind_ok; [reflexivity|].
    unfold os_rename. by rewrite Hf.
  - erewrite bind_ok by (eapply path_exists_none; auto).
    rewrite backed_up_none by done. simpl. rewrite set_files_id.
    by erewrite bind_ok by reflexivity.
Qed.

Lemma write_body_data conf_path data backup w :
  data ≠ ∅ →
  write_body conf_path [] data backup w
  = (set_files (<[conf_path := render_conf (dict_items data)]> (files w)) w,
     inr backup).
Proof.
  intros Hdata. unfold write_body.
  rewrite (bool_decide_eq_false_2 (data = ∅)) by done.
  rewrite (bool_decide_eq_true_2 ([] = [])) by done.
  cbn [negb orb andb].
  erewrite bind_ok by reflexivity.
  erewrite bind_ok;
    [|by erewrite for_each_file_write by (simpl; apply lookup_insert_eq)].
  unfold ret. simpl. by rewrite insert_insert_eq.
Qed.

Lemma write_body_table conf_path table backup w :
  table ≠ [] →
  write_body conf_path table ∅ backup w
  = (set_files (<[conf_path := render_table table]> (files w)) w, inr backup).
Proof.
  intros Ht. unfold write_body.
  rewrite (bool_decide_eq_true_2 (∅ = ∅)) by done.
  rewrite (bool_decide_eq_false_2 (table = [])) by done.
  cbn [negb orb andb].
  erewrite bind_ok by reflexivity.
  erewrite bind_ok;
    [|by erewrite for_each_file_write by (simpl; apply lookup_insert_eq)].
  unfold ret. simpl. by rewrite insert_insert_eq.
Qed.

Lemma write_body_both conf_path table data backup w :
  data ≠ ∅ → table ≠ [] →
  write_body conf_path table data backup w
  = (set_files (<[conf_path := ""]> (files w)) w, inr backup).
Proof.
  intros Hd Ht. unfold write_body.
  rewrite (bool_decide_eq_false_2 (data = ∅)) by done.
  rewrite (bool_decide_eq_false_2 (table = [])) by done.
  cbn [negb orb andb]. done.
Qed.

Lemma write_body_neither conf_path backup w :
  write_body conf_path [] ∅ backup w
  = (w, inl (IOError
               "Cannot write two different types of config into the same file!")).
Proof. done. Qed.

Lemma write_body_any conf_path table data backup w :
  data ≠ ∅ ∨ table ≠ [] →
  ∃ content,
    write_body conf_path table data backup w
    = (set_files (<[conf_path := content]> (files w)) w, inr backup).
Proof.
  intros Hany.
  destruct (decide (data = ∅)) as [->|Hd], (decide (table = [])) as [->|Ht].
  - by destruct Hany.
  - eexists. by apply write_body_table.
  - eexists. by apply write_body_data.
  - eexists. by apply write_body_both.
Qed.

Lemma _write_conf_data conf_path data w :
  (files w !! conf_path = None → conf_path ∉ dirs w) → data ≠ ∅ →
  _write_conf conf_path [] data w
  = (set_files (<[conf_path := render_conf (dict_items data)]>
                  (backed_up conf_path (timestamp (host w)) (files w)).1) w,
     inr (backed_up conf_path (timestamp (host w)) (files w)).2).
Proof.
  intros Hd Hdata. rewrite _write_conf_steps by done.
  by rewrite write_body_data.
Qed.

Lemma _write_conf_table conf_path table w :
  (files w !! conf_path = None → conf_path ∉ dirs w) → table ≠ [] →
  _write_conf conf_path table ∅ w
  = (set_files (<[conf_path := render_table table]>
                  (backed_up conf_path (timestamp (host w)) (files w)).1) w,
     inr (backed_up conf_path (timestamp (host w)) (files w)).2).
Proof.
  intros Hd Ht. rewrite _write_conf_steps by done.
  by rewrite write_body_table.
Qed.

Lemma passable_spec d :
  passable d = true ↔ d !! "self" = None ∧ d !! "conf_path" = None.
Proof.
  unfold passable.
  rewrite andb_true_iff, !negb_true_iff, !bool_decide_eq_false.
  rewrite <- !eq_None_not_Some. done.
Qed.

Lemma _write_conf_kwargs_passable conf_path d :
  passable d = true →
  _write_conf_kwargs conf_path d = _write_conf conf_path [] d.
Proof.
  intros [H1 H2]%passable_spec. unfold _write_conf_kwargs.
  rewrite !bool_decide_eq_false_2; [done|rewrite H2|rewrite H1]; by intros [].
Qed.

(** Writing a clean document and reading the file. *)
Lemma _get_conf_written conf_path d fs w :
  clean_doc d = true →
  _get_conf conf_path
    (set_files (<[conf_path := render_conf (dict_items d)]> fs) w)
  = (set_files (<[conf_path := render_conf (dict_items d)]> fs) w,
     inr (as_read d)).
Proof.
  intros (es & Hes & Hd)%parse_render_conf.
  erewrite _get_conf_spec by (simpl; apply lookup_insert_eq).
  by rewrite Hes, Hd.
Qed.

End Write.

(** *** Documents read from a file *)

Lemma doc_of_entries_cons e es conf :
  doc_of_entries (e :: es) conf = doc_of_entries es (<[e.1 := VStr e.2]> conf).
Proof. reflexivity. Qed.

Lemma doc_of_entries_other es conf k :
  k ∉ es.*1 → doc_of_entries es conf !! k = conf !! k.
Proof.
  revert conf. induction es as [|[k' v'] es IH]; intros conf Hk; [done|].
  rewrite fmap_cons in Hk. apply not_elem_of_cons in Hk as [Hne Hk].
  rewrite doc_of_entries_cons, IH by done. by apply lookup_insert_ne.
Qed.

(** The last entry of a key is the one the document holds. *)
Lemma doc_of_entries_last_wins es1 k v es2 :
  k ∉ es2.*1 →
  doc_of_entries (es1 ++ (k, v) :: es2) ∅ !! k = Some (VStr v).
Proof.
  intros Hk. rewrite doc_of_entries_app, doc_of_entries_cons.
  rewrite doc_of_entries_other by done. apply lookup_insert_eq.
Qed.

Lemma read_shape_entries es conf :
  Forall (λ e, clean_key e.1 = true ∧ clean_value e.2 = true) es →
  read_shape conf → read_shape (doc_of_entries es conf).
Proof.
  intros Hes. revert conf.
  induction Hes as [|[k v] es [Hk Hv] _ IH]; intros conf Hc; [done|].
  rewrite doc_of_entries_cons. apply IH. intros k' v'. cbn [fst snd]. destruct (decide (k = k')) as [<-|Hne].
  - rewrite lookup_insert_eq. intros [= <-]. eauto.
  - rewrite lookup_insert_ne by done. apply Hc.
Qed.

Lemma read_shape_clean d : read_shape d → clean_doc d = true ∧ all_strings d = true.
Proof.
  intros Hd. unfold clean_doc, all_strings. rewrite !forallb_forall.
  split; intros [k v] Hin%list_elem_of_In%elem_of_map_to_list;
    destruct (Hd k v Hin) as (Hk & s & -> & Hs); [|done].
  unfold clean_entry. simpl. by rewrite Hk, Hs.
Qed.

Lemma read_shape_empty : read_shape ∅.
Proof. intros k v. by rewrite lookup_empty. Qed.

Lemma read_shape_parsed text es :
  parse_lines (readlines text) = inr es → read_shape (doc_of_entries es ∅).
Proof.
  intros Hes. apply read_shape_entries; [|apply read_shape_empty].
  eapply parse_lines_entries_clean; [|done].
  intros l. apply readlines_strip_no_lf.
Qed.

End ConfFacts.

(** ** Facts about paths, backup names and time stamps *)

Module PathFacts.
Import StrFacts.

Lemma split_app_sep sep a b :
  split sep (a +:+ String sep b) = split sep a ++ split sep b.
Proof.
  induction a as [|c a IH].
  - change ("" +:+ String sep b) with (String sep b). cbn [split].
    by rewrite Ascii.eqb_refl.
  - rewrite app_cons. cbn [split]. rewrite IH.
    destruct (Ascii.eqb c sep); [done|].
    pose proof (split_not_nil sep a). by destruct (split sep a).
Qed.

Lemma split_no_sep sep s : has_char sep s = false → split sep s = [s].
Proof.
  induction s as [|c s IH]; [done|]. cbn [has_char split].
  intros [E1 E2]%orb_false_iff. by rewrite E1, IH.
Qed.

Lemma join_cons_char sep c h t :
  join sep (String c h :: t) = String c (join sep (h :: t)).
Proof. by destruct t. Qed.

Lemma join_split sep s : join (String sep "") (split sep s) = s.
Proof.
  induction s as [|c s IH]; [done|]. cbn [split].
  destruct (Ascii.eqb_spec c sep) as [->|Hne].
  - pose proof (split_not_nil sep s).
    destruct (split sep s) as [|h t] eqn:E; [done|].
    change (join (String sep "") ("" :: h :: t))
      with ("" +:+ String sep "" +:+ join (String sep "") (h :: t)).
    by rewrite IH.
  - pose proof (split_not_nil sep s).
    destruct (split sep s) as [|h t] eqn:E; [done|].
    by rewrite join_cons_char, IH.
Qed.

(** The time stamp goes in front of the extension. *)
Lemma backup_name_ext stem ext pref :
  has_char "." ext = false →
  backup_name (stem +:+ "." +:+ ext) pref
  = stem +:+ "." +:+ pref +:+ "." +:+ ext.
Proof.
  intros Hext. unfold backup_name.
  change (stem +:+ "." +:+ ext) with (stem +:+ String "." ext).
  rewrite split_app_sep, (split_no_sep "." ext) by done.
  rewrite removelast_last, last_last.
  change "." with (String "."%char "") at 1. by rewrite join_split.
Qed.

Lemma backup_name_fresh stem ext pref :
  stem +:+ "." +:+ pref +:+ "." +:+ ext ≠ stem +:+ "." +:+ ext.
Proof.
  intros E%(f_equal String.length). rewrite !app_length in E. simpl in E. lia.
Qed.

(** *** [dirname] *)

Lemma dirname_head_no_slash s : has_char "/" s = false → dirname_head s = "".
Proof.
  induction s as [|c s IH]; [done|]. cbn [has_char dirname_head].
  intros [E1 E2]%orb_false_iff. by rewrite IH, E1.
Qed.

Lemma dirname_head_app a b :
  has_char "/" b = false → dirname_head (a +:+ b) = dirname_head a.
Proof.
  intros Hb. induction a as [|c a IH]; [by apply dirname_head_no_slash|].
  rewrite app_cons. cbn [dirname_head]. by rewrite IH.
Qed.

Lemma dirname_app a b : has_char "/" b = false → dirname (a +:+ b) = dirname a.
Proof. intros Hb. unfold dirname. by rewrite dirname_head_app. Qed.

(** *** Decimal numbers and time stamps *)

Lemma string_of_uint_chars c d :
  has_char c (NilEmpty.string_of_uint d) = true → numeric_char c = true.
Proof.
  induction d; cbn [NilEmpty.string_of_uint has_char];
    [done|intros [E%Ascii.eqb_eq|?]%orb_true_iff; [by subst|auto]..].
Qed.

Lemma str_of_Z_chars c n :
  has_char c (str_of_Z n) = true → numeric_char c = true.
Proof.
  unfold str_of_Z, NilZero.string_of_int.
  assert (∀ d, has_char c (NilZero.string_of_uint d) = true → numeric_char c = true)
    as Hu.
  { intros d. unfold NilZero.string_of_uint.
    destruct d; try apply string_of_uint_chars.
    cbn [has_char]. intros [E%Ascii.eqb_eq|?]%orb_true_iff; [by subst|done]. }
  destruct (Z.to_int n) as [d|d]; [apply Hu|].
  cbn [has_char]. intros [E%Ascii.eqb_eq|?]%orb_true_iff; [by subst|by apply (Hu d)].
Qed.

Lemma zeros_chars c n : has_char c (zeros n) = true → numeric_char c = true.
Proof.
  induction n as [|n IH]; [done|]. cbn [zeros has_char].
  intros [E%Ascii.eqb_eq|?]%orb_true_iff; [by subst|auto].
Qed.

Lemma zfill_chars c w n :
  has_char c (zfill w (str_of_Z n)) = true → numeric_char c = true.
Proof.
  unfold zfill. rewrite has_char_app.
  intros [?%zeros_chars|?%str_of_Z_chars]%orb_true_iff; done.
Qed.

Lemma join_chars c sep l :
  has_char c (join sep l) = true →
  has_char c sep = true ∨ ∃ x, x ∈ l ∧ has_char c x = true.
Proof.
  induction l as [|x l IH]; [done|].
  destruct l as [|y l].
  - intros Hx. right. exists x. split; [by left|done].
  - change (join sep (x :: y :: l)) with (x +:+ sep +:+ join sep (y :: l)).
    rewrite !has_char_app.
    intros [Hx|[Hs|Hl]%orb_true_iff]%orb_true_iff.
    + right. exists x. split; [by left|done].
    + by left.
    + destruct (IH Hl) as [?|(z & Hz & Hc)]; [by left|].
      right. exists z. split; [by right|done].
Qed.

Lemma timestamp_chars c h :
  has_char c (timestamp h) = true → numeric_char c = true.
Proof.
  unfold timestamp. intros [Hs|(x & Hx & Hc)]%join_chars.
  - cbn [has_char] in Hs. apply orb_true_iff in Hs as [E%Ascii.eqb_eq|?]; [by subst|done].
  - apply elem_of_take in Hx as (i & Hx & _).
    apply list_lookup_fmap_Some in Hx as (n & -> & _).
    by apply zfill_chars in Hc.
Qed.

Lemma timestamp_no_slash h : has_char "/" (timestamp h) = false.
Proof.
  destruct (has_char "/" (timestamp h)) eqn:E; [|done].
  by apply timestamp_chars in E.
Qed.

End PathFacts.

(** ** Facts about the reconciliation *)

Module CheckFacts.
Import StrFacts ConfFacts PathFacts.

Lemma flag_rule_pair r conf changed :
  flag_rule r (conf, changed)
  = if r.1.2 (conf !! r.1.1) then (<[r.1.1 := r.2]> conf, true)
    else (conf, changed).
Proof. reflexivity. Qed.

(** [policy_rules] is the table applied in order. *)
Lemma policy_rules_table conf changed :
  policy_rules conf changed
  = foldl (λ st r, flag_rule r st) (wal_level_rule conf, changed) flag_rules.
Proof.
  unfold policy_rules. fold (wal_level_rule conf).
  generalize (wal_level_rule conf) as c0. intros c0.
  unfold flag_rules, missing_or. cbn [foldl].
  do 6 (rewrite flag_rule_pair; cbn [fst snd];
        match goal with
        | |- context [flag_rule _ (if ?b then ?p else ?q)] =>
            destruct (if b then p else q) as [? ?]
        | |- _ = (if ?b then ?p else ?q) => idtac
        end).
  match goal with |- _ = (if ?b then _ else _) => by destruct b end.
Qed.


(** *** The table of rules, applied to any state *)

Section Rules.
Implicit Types (rules : list (string * (option value → bool) * value)).
Implicit Types (st : gmap string value * bool).
Implicit Types (r : string * (option value → bool) * value).

Lemma apply_rules_cons r rules st :
  foldl (λ st r, flag_rule r st) st (r :: rules)
  = foldl (λ st r, flag_rule r st) (flag_rule r st) rules.
Proof. reflexivity. Qed.

Lemma flag_rule_other r st k :
  k ≠ r.1.1 → (flag_rule r st).1 !! k = st.1 !! k.
Proof.
  intros Hk. unfold flag_rule. destruct (r.1.2 _); [|done].
  cbn [fst]. by rewrite lookup_insert_ne.
Qed.

Lemma apply_rules_other rules st k :
  k ∉ (λ r, r.1.1) <$> rules →
  (foldl (λ st r, flag_rule r st) st rules).1 !! k = st.1 !! k.
Proof.
  revert st. induction rules as [|r rules IH]; intros st Hk; [done|].
  rewrite fmap_cons in Hk. apply not_elem_of_cons in Hk as [Hne Hk].
  rewrite apply_rules_cons, IH by done. by apply flag_rule_other.
Qed.

(** Where no rule fires, nothing changes. *)
Lemma apply_rules_quiet rules st :
  Forall (λ r, r.1.2 (st.1 !! r.1.1) = false) rules →
  foldl (λ st r, flag_rule r st) st rules = st.
Proof.
  induction 1 as [|r rules Hr _ IH]; [done|].
  rewrite apply_rules_cons. unfold flag_rule at 2. by rewrite Hr.
Qed.

(** At the key of a rule, the value is the one the rule assigns if it
    fired, and the one that was there if not. *)
Lemma apply_rules_own rules st r :
  NoDup ((λ r, r.1.1) <$> rules) → r ∈ rules →
  (foldl (λ st r, flag_rule r st) st rules).1 !! r.1.1
  = if r.1.2 (st.1 !! r.1.1) then Some r.2 else st.1 !! r.1.1.
Proof.
  revert st. induction rules as [|r' rules IH]; intros st Hnd Hin.
  { by apply elem_of_nil in Hin. }
  rewrite fmap_cons in Hnd. apply NoDup_cons in Hnd as [Hr' Hnd].
  rewrite apply_rules_cons.
  destruct (decide (r.1.1 = r'.1.1)) as [Hk|Hk].
  - assert (r = r') as <-.
    { apply elem_of_cons in Hin as [?|Hin]; [done|].
      exfalso. apply Hr'. rewrite <- Hk. apply list_elem_of_fmap. eauto. }
    rewrite apply_rules_other by done.
    unfold flag_rule. destruct (r.1.2 _); [|done]. cbn [fst].
    apply lookup_insert_eq.
  - apply elem_of_cons in Hin as [->|Hin]; [done|].
    rewrite IH by done. by rewrite flag_rule_other.
Qed.

Lemma flag_rule_safe r st :
  clean_entry (r.1.1, r.2) = true → safe_doc st.1 → safe_doc (flag_rule r st).1.
Proof.
  intros Hr Hst. unfold flag_rule. destruct (r.1.2 _); [|done]. cbn [fst].
  intros k v. destruct (decide (r.1.1 = k)) as [<-|Hne].
  - rewrite lookup_insert_eq. by intros [= <-].
  - rewrite lookup_insert_ne by done. apply Hst.
Qed.

Lemma apply_rules_safe rules st :
  Forall (λ r, clean_entry (r.1.1, r.2) = true) rules →
  safe_doc st.1 → safe_doc (foldl (λ st r, flag_rule r st) st rules).1.
Proof.
  intros Hr. revert st. induction Hr as [|r rules Hr _ IH]; intros st Hst; [done|].
  rewrite apply_rules_cons. by apply IH, flag_rule_safe.
Qed.

End Rules.

(** *** The rules of the gate *)

Lemma flag_rules_keys :
  (λ r : string * (option value → bool) * value, r.1.1) <$> flag_rules
  = ["max_wal_senders"; "wal_keep_segments"; "archive_mode"; "archive_command";
     "standard_conforming_strings"; "bytea_output"].
Proof. reflexivity. Qed.

Lemma flag_rules_NoDup :
  NoDup ((λ r : string * (option value → bool) * value, r.1.1) <$> flag_rules).
Proof. rewrite flag_rules_keys. compute_done. Qed.

Lemma flag_rules_clean :
  Forall (λ r : string * (option value → bool) * value,
            clean_entry (r.1.1, r.2) = true) flag_rules.
Proof. unfold flag_rules. repeat constructor. Qed.

(** The value a rule assigns satisfies the rule once it has been written
    to the file and read. *)
Lemma flag_rules_settle :
  Forall (λ r : string * (option value → bool) * value,
            r.1.2 (Some (VStr (py_str r.2))) = false) flag_rules.
Proof. unfold flag_rules. repeat constructor. Qed.

Lemma wal_level_rule_other conf k :
  k ≠ "wal_level" → wal_level_rule conf !! k = conf !! k.
Proof.
  intros Hk. unfold wal_level_rule. destruct (missing_or _ _ _); [|done].
  by rewrite lookup_insert_ne.
Qed.

Lemma wal_level_rule_set conf : is_Some (wal_level_rule conf !! "wal_level").
Proof.
  unfold wal_level_rule, missing_or.
  destruct (conf !! "wal_level") as [v|] eqn:E.
  - destruct (negb (truthy v) || _); [by rewrite lookup_insert_eq|by rewrite E].
  - by rewrite lookup_insert_eq.
Qed.

Lemma wal_level_rule_safe conf : safe_doc conf → safe_doc (wal_level_rule conf).
Proof.
  intros Hc. unfold wal_level_rule. destruct (missing_or _ _ _); [|done].
  intros k v. destruct (decide ("wal_level" = k)) as [<-|Hne].
  - rewrite lookup_insert_eq. by intros [= <-].
  - rewrite lookup_insert_ne by done. apply Hc.
Qed.

Lemma policy_keys_table :
  policy_keys
  = "wal_level"
      :: ((λ r : string * (option value → bool) * value, r.1.1) <$> flag_rules).
Proof. reflexivity. Qed.

Lemma flag_rule_key_policy (r : string * (option value → bool) * value) :
  r ∈ flag_rules → r.1.1 ∈ policy_keys.
Proof.
  intros Hr. rewrite policy_keys_table. right. apply list_elem_of_fmap. eauto.
Qed.

(** The rules leave every other key alone. *)
Lemma policy_rules_other conf changed k :
  k ∉ policy_keys → (policy_rules conf changed).1 !! k = conf !! k.
Proof.
  rewrite policy_keys_table. intros [Hw Hk]%not_elem_of_cons.
  rewrite policy_rules_table, apply_rules_other by done. cbn [fst].
  by apply wal_level_rule_other.
Qed.

Lemma policy_rules_not_empty conf changed : (policy_rules conf changed).1 ≠ ∅.
Proof.
  intros E. pose proof (wal_level_rule_set conf) as [v Hv].
  assert ((policy_rules conf changed).1 !! "wal_level" = Some v) as Hl.
  { rewrite policy_rules_table, apply_rules_other; [done|].
    rewrite flag_rules_keys. compute_done. }
  by rewrite E, lookup_empty in Hl.
Qed.

Lemma policy_rules_safe conf changed :
  safe_doc conf → safe_doc (policy_rules conf changed).1.
Proof.
  intros Hc. rewrite policy_rules_table.
  apply apply_rules_safe; [apply flag_rules_clean|]. by apply wal_level_rule_safe.
Qed.

Lemma compliant_spec conf :
  compliant conf = true
  ↔ Forall (λ r : string * (option value → bool) * value,
              r.1.2 (conf !! r.1.1) = false) flag_rules.
Proof.
  unfold compliant. rewrite forallb_forall, Forall_forall.
  split; intros Hc r Hr.
  - apply negb_true_iff, Hc. by apply list_elem_of_In.
  - apply negb_true_iff, Hc. by apply list_elem_of_In.
Qed.

Lemma flag_rules_not_wal (r : string * (option value → bool) * value) :
  r ∈ flag_rules → r.1.1 ≠ "wal_level".
Proof.
  intros Hr E.
  assert ("wal_level" ∈ (λ r : string * (option value → bool) * value, r.1.1)
                          <$> flag_rules) as Hin.
  { rewrite <- E. apply list_elem_of_fmap. eauto. }
  revert Hin. rewrite flag_rules_keys. compute_done.
Qed.

(** On a compliant document the rules set no flag. *)
Lemma policy_rules_quiet conf changed :
  compliant conf = true → (policy_rules conf changed).2 = changed.
Proof.
  intros Hc%compliant_spec. rewrite policy_rules_table.
  rewrite apply_rules_quiet; [done|]. cbn [fst].
  rewrite Forall_forall in Hc. apply Forall_forall. intros r Hr.
  rewrite wal_level_rule_other by (by apply flag_rules_not_wal). auto.
Qed.

(** What the rules leave at the key of a flagged rule. *)
Lemma policy_rules_own conf changed (r : string * (option value → bool) * value) :
  r ∈ flag_rules →
  (policy_rules conf changed).1 !! r.1.1
  = if r.1.2 (conf !! r.1.1) then Some r.2 else conf !! r.1.1.
Proof.
  intros Hr. rewrite policy_rules_table.
  rewrite apply_rules_own by (done || apply flag_rules_NoDup). cbn [fst].
  by rewrite wal_level_rule_other by (by apply flag_rules_not_wal).
Qed.

Lemma lookup_as_read d k :
  as_read d !! k = (λ v, VStr (py_str v)) <$> d !! k.
Proof. unfold as_read. apply lookup_fmap. Qed.

(** Once written and read, the result of the rules is compliant, if the
    rules found strings at their keys. *)
Lemma policy_rules_settled conf changed :
  (∀ r : string * (option value → bool) * value, r ∈ flag_rules →
     ∀ v, conf !! r.1.1 = Some v → is_VStr v = true) →
  compliant (as_read (policy_rules conf changed).1) = true.
Proof.
  intros Hs. apply compliant_spec, Forall_forall. intros r Hr.
  rewrite lookup_as_read, policy_rules_own by done.
  destruct (r.1.2 (conf !! r.1.1)) eqn:Ev.
  - pose proof flag_rules_settle as Hfs. rewrite Forall_forall in Hfs.
    by apply Hfs.
  - destruct (conf !! r.1.1) as [v|] eqn:Ek; [|done].
    specialize (Hs r Hr v Ek). destruct v; [done|discriminate].
Qed.

(** *** The tuner's loop *)

Lemma str_get_insert_ne conf k k' v :
  k ≠ k' → str_get (<[k := v]> conf) k' = str_get conf k'.
Proof. intros Hk. unfold str_get. by rewrite lookup_insert_ne. Qed.

Lemma tune_loop_cons item value rest conf changed :
  tune_loop ((item, value) :: rest) conf changed
  = tune_loop rest (<[item := value]> conf)
      (if negb changed && negb (String.eqb (str_get conf item) (py_str value))
       then true else changed).
Proof. reflexivity. Qed.

Lemma tune_loop_conf items conf changed :
  (tune_loop items conf changed).1
  = foldl (λ m e, <[e.1 := e.2]> m) conf items.
Proof.
  revert conf changed. induction items as [|[k v] items IH]; intros conf c; [done|].
  by rewrite tune_loop_cons, IH.
Qed.

Lemma foldl_insert_union (items : list (string * value))
    (conf : gmap string value) :
  foldl (λ m e, <[e.1 := e.2]> m) conf items
  = list_to_map (reverse items) ∪ conf.
Proof.
  induction items as [|e items IH] using rev_ind.
  - change (list_to_map (reverse [])) with (∅ : gmap string value).
    by rewrite (left_id_L ∅ (∪)).
  - rewrite foldl_app, reverse_app. cbn [foldl reverse]. rewrite IH.
    destruct e as [k v]. cbn [fst snd list_to_map foldr app].
    by rewrite insert_union_l.
Qed.

(** After the loop the dictionary is the tuner's, completed by what was
    there. *)
Lemma tune_loop_union `{DictOrder} config conf changed :
  (tune_loop (dict_items config) conf changed).1 = config ∪ conf.
Proof.
  rewrite tune_loop_conf, foldl_insert_union. f_equal.
  rewrite <- (list_to_map_to_list config) at 2.
  assert (reverse (dict_items config) ≡ₚ map_to_list config) as Hp.
  { rewrite reverse_Permutation. apply dict_items_perm. }
  apply list_to_map_proper; [|done].
  rewrite Hp. apply NoDup_fst_map_to_list.
Qed.

(** Where the dictionary already prints as the tuner's entries, the loop
    sets no flag. *)
Lemma tune_loop_quiet items conf changed :
  NoDup items.*1 →
  Forall (λ e, str_get conf e.1 = py_str e.2) items →
  (tune_loop items conf changed).2 = changed.
Proof.
  revert conf changed.
  induction items as [|[k v] items IH]; intros conf c Hnd Hq; [done|].
  rewrite fmap_cons in Hnd. apply NoDup_cons in Hnd as [Hk Hnd].
  apply Forall_cons in Hq as [Hkv Hq]. cbn [fst snd] in *.
  rewrite tune_loop_cons, Hkv, String.eqb_refl.
  cbn [negb]. rewrite andb_false_r. apply IH; [done|].
  rewrite Forall_forall in Hq. apply Forall_forall. intros e He.
  rewrite str_get_insert_ne; [by apply Hq|].
  intros ->. apply Hk. apply list_elem_of_fmap. eauto.
Qed.


(** *** What the tuner writes *)

Lemma has_char_head c s : has_char c (String c s) = true.
Proof. cbn [has_char]. by rewrite Ascii.eqb_refl. Qed.

Lemma rstrip_no_blank s :
  (∀ c, has_char c s = true → Ascii.is_space c = false) → rstrip s = s.
Proof.
  induction s as [|d s IH]; [done|]. intros Hs.
  rewrite rstrip_cons, (Hs d) by apply has_char_head.
  rewrite andb_false_r, IH; [done|].
  intros c Hc. apply Hs. cbn [has_char]. by rewrite Hc, orb_true_r.
Qed.

Lemma plain_clean s :
  (∀ c, has_char c s = true → plain_char c = true) →
  clean_key s = true ∧ clean_value s = true.
Proof.
  intros Hs.
  assert (∀ c, has_char c s = true → Ascii.is_space c = false) as Hb.
  { intros c Hc%Hs. unfold plain_char in Hc.
    by apply andb_true_iff in Hc as [[?%negb_true_iff _]%andb_true_iff _]. }
  assert (∀ c, plain_char c = false → has_char c s = false) as Hn.
  { intros c Hc. destruct (has_char c s) eqn:E; [|done].
    apply Hs in E. congruence. }
  assert (lstrip s = s) as Hl.
  { apply lstrip_fixed_head. destruct s as [|d s]; [done|].
    apply Hb, has_char_head. }
  pose proof (rstrip_no_blank s Hb) as Hr.
  split; [apply clean_key_spec|apply clean_value_spec]; split_and!;
    done || by apply Hn.
Qed.

Lemma numeric_plain c : numeric_char c = true → plain_char c = true.
Proof.
  unfold numeric_char. cbn [has_char]. intros Hc.
  repeat (apply orb_true_iff in Hc as [<-%Ascii.eqb_eq|Hc]; [done|]).
  done.
Qed.

Lemma str_of_Z_clean n :
  clean_key (str_of_Z n) = true ∧ clean_value (str_of_Z n) = true.
Proof.
  apply plain_clean. intros c Hc. by apply numeric_plain, (str_of_Z_chars c n).
Qed.

Lemma toMB_clean n : clean_value (PgTune.toMB n) = true.
Proof.
  apply plain_clean. intros c. unfold PgTune.toMB. rewrite has_char_app.
  intros [Hc%str_of_Z_chars|Hc]%orb_true_iff; [by apply numeric_plain|].
  cbn [has_char] in Hc.
  repeat (apply orb_true_iff in Hc as [<-%Ascii.eqb_eq|Hc]; [done|]).
  done.
Qed.

Lemma estimate_safe mem config :
  PgTune.estimate mem = inr config → safe_doc config.
Proof.
  unfold PgTune.estimate. destruct mem as [mem0|]; [|done].
  destruct (mem0 =? 0); [done|]. destruct (_ >? _); [done|].
  intros [= <-].
  match goal with
  | |- safe_doc ?m =>
      change (map_Forall (λ (k : string) (v : value), clean_entry (k, v) = true) m)
  end.
  repeat (apply map_Forall_insert_2;
          [unfold clean_entry; cbn [fst snd py_str];
           rewrite ?toMB_clean; reflexivity|]).
  apply map_Forall_empty.
Qed.

(** The tuner assigns none of the keys of the rules, and no reserved key. *)
Lemma estimate_keys mem config :
  PgTune.estimate mem = inr config →
  ∀ k, k ∈ policy_keys ++ reserved_keys → config !! k = None.
Proof.
  unfold PgTune.estimate. destruct mem as [mem0|]; [|done].
  destruct (mem0 =? 0); [done|]. destruct (_ >? _); [done|].
  intros [= <-] k Hk. unfold policy_keys, reserved_keys in Hk. cbn [app] in Hk.
  repeat (apply elem_of_cons in Hk as [->|Hk];
          [by rewrite !lookup_insert_ne by done|]).
  by apply elem_of_nil in Hk.
Qed.

End CheckFacts.

(** ** Facts about the records of pg_hba.conf *)

Module HbaFacts.
Import StrFacts ConfFacts PathFacts.

Lemma has_char_replace c a b s :
  has_char c (replace_char a b s) = true → c = b ∨ has_char c s = true.
Proof.
  induction s as [|d s IH]; [done|]. cbn [replace_char has_char].
  intros [Hd%Ascii.eqb_eq|Hs]%orb_true_iff.
  - destruct (Ascii.eqb d a); [by left|]. right. subst.
    by rewrite Ascii.eqb_refl.
  - destruct (IH Hs) as [?|Hc]; [by left|]. right. by rewrite Hc, orb_true_r.
Qed.

Lemma has_char_split c sep s x :
  x ∈ split sep s → has_char c x = true → has_char c s = true.
Proof.
  revert x. induction s as [|d s IH]; intros x.
  - cbn [split]. by intros ->%list_elem_of_singleton.
  - cbn [split has_char]. destruct (Ascii.eqb d sep).
    + intros [->|Hx]%elem_of_cons Hc; [done|].
      rewrite (IH x) by done. apply orb_true_r.
    + pose proof (split_not_nil sep s).
      destruct (split sep s) as [|h t]; [done|].
      intros [->|Hx]%elem_of_cons Hc.
      * cbn [has_char] in Hc. apply orb_true_iff in Hc as [->|Hc]; [done|].
        rewrite (IH h); [apply orb_true_r|by left|done].
      * rewrite (IH x); [apply orb_true_r|by right|done].
Qed.

(** The tokens of a line hold no line feed. *)
Lemma hba_line_tokens raw row :
  has_char LF (strip raw) = false → hba_line raw = Some row →
  Forall (λ t, has_char LF t = false) row.
Proof.
  unfold hba_line. intros Hn.
  destruct (is_empty (strip raw) || startswith (strip raw) "#"); [done|].
  intros [= <-]. apply Forall_forall. intros t Ht%list_elem_of_In.
  apply filter_In in Ht as [Ht%list_elem_of_In _].
  destruct (has_char LF t) eqn:E; [|done].
  eapply has_char_split in E; [|done].
  apply has_char_replace in E as [?|E]; [done|congruence].
Qed.

Lemma parse_hba_tokens text :
  Forall (Forall (λ t, has_char LF t = false)) (parse_hba text).
Proof.
  apply Forall_forall. intros row (raw & Hraw & Hrow)%list_elem_of_omap.
  eapply hba_line_tokens; [|done]. by eapply readlines_strip_no_lf.
Qed.

Lemma table_line_body row :
  Forall (λ t, has_char LF t = false) row → has_char LF (join tab row) = false.
Proof.
  intros Hrow. destruct (has_char LF (join tab row)) eqn:E; [|done].
  apply join_chars in E as [?|(x & Hx & Hc)]; [done|].
  rewrite Forall_forall in Hrow. rewrite Hrow in Hc; done.
Qed.

Lemma readlines_render_table table :
  Forall (Forall (λ t, has_char LF t = false)) table →
  readlines (render_table table) = table_line <$> table.
Proof.
  intros Ht. unfold render_table.
  assert (table_line <$> table = (λ b, b +:+ nl) <$> (join tab <$> table)) as ->.
  { by rewrite <- list_fmap_compose. }
  apply readlines_lines, Forall_fmap.
  eapply Forall_impl; [done|]. apply table_line_body.
Qed.

(** A table that was read and then written with the replication rule at
    its end is read as a table that has the rule. *)
Lemma parse_hba_appended text :
  replication_cfg ∈ parse_hba (render_table (parse_hba text ++ [replication_cfg])).
Proof.
  unfold parse_hba at 1. rewrite readlines_render_table.
  - apply list_elem_of_omap. exists (table_line replication_cfg). split.
    + apply list_elem_of_fmap. exists replication_cfg. split; [done|].
      apply elem_of_app. right. by left.
    + reflexivity.
  - apply Forall_app. split; [apply parse_hba_tokens|].
    repeat constructor.
Qed.

Lemma hba_rule_not_nil table : (hba_rule table).2 = true → (hba_rule table).1 ≠ [].
Proof.
  unfold hba_rule. destruct (bool_decide _); [done|].
  cbn [negb fst]. intros _ E. by apply List.app_eq_nil in E as [_ ?].
Qed.

End HbaFacts.

(** ** Facts about the commands *)

Module RunFacts.
Import StrFacts ConfFacts PathFacts CheckFacts HbaFacts.

(** *** Commands that leave an observation alone *)

Section Keeps.
Context {X : Type} (f : World → X).

Lemma keeps_ret {A} (a : A) : keeps f (ret a).
Proof. done. Qed.

Lemma keeps_raise {A} e : keeps f (raise (A:=A) e).
Proof. done. Qed.

Lemma keeps_gets {A} (g : World → A) : keeps f (gets g).
Proof. done. Qed.

Lemma keeps_modify (g : World → World) :
  (∀ w, f (g w) = f w) → keeps f (modify g).
Proof. intros Hg w. apply Hg. Qed.

Lemma keeps_bind {A B} (m : M A) (k : A → M B) :
  keeps f m → (∀ a, keeps f (k a)) → keeps f (bind m k).
Proof.
  intros Hm Hk w. unfold bind. specialize (Hm w).
  destruct (m w) as [w' [e|a]]; [done|]. by rewrite Hk.
Qed.

(** After a first command whose effect is known, a rest that keeps [f]. *)
Lemma keeps_after {A B} (m : M A) (k : A → M B) w w1 r :
  m w = (w1, r) → (∀ a, keeps f (k a)) → f (bind m k w).1 = f w1.
Proof.
  intros Hm Hk. unfold bind. rewrite Hm. destruct r as [e|a]; [done|]. apply Hk.
Qed.

End Keeps.

Ltac keeps_step :=
  first
    [ apply keeps_ret | apply keeps_raise | apply keeps_gets
    | apply keeps_bind; [|intros ?]
    | apply keeps_modify; intros ?; reflexivity
    | match goal with
      | |- keeps _ (if ?b then _ else _) => destruct b
      | |- keeps _ (match ?x with _ => _ end) => destruct x
      end ].

Lemma keeps_files_emit e : keeps files (emit e).
Proof. unfold emit. keeps_step. Qed.

Lemma keeps_files_chdir d : keeps files (chdir d).
Proof. unfold chdir. repeat keeps_step. Qed.

Lemma keeps_files_do_db_start g : keeps files (do_db_start g).
Proof.
  unfold do_db_start, _get_db_status, _cleanup_pids, system_pg_ctl_start.
  repeat first [apply keeps_files_emit | apply keeps_files_chdir | keeps_step].
Qed.

Lemma keeps_files_do_db_stop g : keeps files (do_db_stop g).
Proof.
  unfold do_db_stop, _get_db_status, _cleanup_pids, system_pg_ctl_stop.
  repeat first [apply keeps_files_emit | apply keeps_files_chdir | keeps_step].
Qed.

Lemma keeps_files_do_db_status : keeps files do_db_status.
Proof.
  unfold do_db_status, _get_db_status.
  repeat first [apply keeps_files_emit | keeps_step].
Qed.

(** The restart at the end of [commit_changes]. *)
Lemma keeps_files_restart g :
  keeps files
    (let* status := _get_db_status in
     (if status then do_db_stop g else ret tt) ;; do_db_start g ;; do_db_status).
Proof.
  unfold _get_db_status.
  repeat first [apply keeps_files_do_db_start | apply keeps_files_do_db_stop
               | apply keeps_files_do_db_status | keeps_step].
Qed.


(** *** The paths of the gate *)

Lemma gate_conf_backup pg pref :
  backup_name (pg +:+ "/postgresql.conf") pref
  = pg +:+ "/postgresql." +:+ pref +:+ ".conf".
Proof.
  change (pg +:+ "/postgresql.conf") with (pg +:+ "/postgresql" +:+ "." +:+ "conf").
  rewrite <- app_assoc, backup_name_ext by done. by rewrite app_assoc.
Qed.

Lemma gate_hba_backup pg pref :
  backup_name (pg +:+ "/pg_hba.conf") pref
  = pg +:+ "/pg_hba." +:+ pref +:+ ".conf".
Proof.
  change (pg +:+ "/pg_hba.conf") with (pg +:+ "/pg_hba" +:+ "." +:+ "conf").
  rewrite <- app_assoc, backup_name_ext by done. by rewrite app_assoc.
Qed.

Lemma gate_paths_differ pg : pg +:+ "/postgresql.conf" ≠ pg +:+ "/pg_hba.conf".
Proof. by intros E%String.app_inj. Qed.

Lemma gate_conf_backup_not_hba pg pref :
  backup_name (pg +:+ "/postgresql.conf") pref ≠ pg +:+ "/pg_hba.conf".
Proof. rewrite gate_conf_backup. by intros E%String.app_inj. Qed.

Lemma gate_hba_backup_not_conf pg pref :
  backup_name (pg +:+ "/pg_hba.conf") pref ≠ pg +:+ "/postgresql.conf".
Proof. rewrite gate_hba_backup. by intros E%String.app_inj. Qed.

Section Commit.
Context `{DictOrder}.

(** The two writes of [commit_changes]. *)
Lemma conf_write_block cp conf w ct :
  files w !! cp = Some ct → passable conf = true → conf ≠ ∅ →
  ∃ w1,
    (let* conf_bk := _write_conf_kwargs cp conf in
     match conf_bk with
     | Some bk =>
         emit (Stdout ("INFO: Wrote new general configuration. Backup as "
                         +:+ bk))
     | None => ret tt
     end) w = (w1, inr tt)
    ∧ files w1
      = <[cp := render_conf (dict_items conf)]>
          (<[backup_name cp (timestamp (host w)) := ct]> (delete cp (files w)))
    ∧ host w1 = host w.
Proof.
  intros Hf Hp Hne.
  rewrite _write_conf_kwargs_passable by done.
  erewrite bind_ok; [|by apply _write_conf_data; [rewrite Hf|]].
  rewrite (backed_up_some _ _ _ ct) by done. cbn [fst snd].
  eexists. split; [reflexivity|]. done.
Qed.

Lemma hba_write_block hp table w ht :
  files w !! hp = Some ht → table ≠ [] →
  ∃ w1,
    (let* conf_bk := _write_conf hp table ∅ in
     match conf_bk with
     | Some bk =>
         emit (Stdout ("INFO: Wrote new client auth configuration. Backup as "
                         +:+ bk))
     | None => ret tt
     end) w = (w1, inr tt)
    ∧ files w1
      = <[hp := render_table table]>
          (<[backup_name hp (timestamp (host w)) := ht]> (delete hp (files w)))
    ∧ host w1 = host w.
Proof.
  intros Hf Hne.
  erewrite bind_ok; [|by apply _write_conf_table; [rewrite Hf|]].
  rewrite (backed_up_some _ _ _ ht) by done. cbn [fst snd].
  eexists. split; [reflexivity|]. done.
Qed.

(** What [commit_changes] leaves at the two paths. *)
Lemma commit_changes_files g cp conf changed hp table hba_changed w ct ht :
  files w !! cp = Some ct → files w !! hp = Some ht →
  cp ≠ hp →
  backup_name cp (timestamp (host w)) ≠ hp →
  backup_name hp (timestamp (host w)) ≠ cp →
  (changed = true → passable conf = true ∧ conf ≠ ∅) →
  (hba_changed = true → table ≠ []) →
  files (commit_changes g cp conf changed hp table hba_changed w).1 !! cp
  = Some (if changed then render_conf (dict_items conf) else ct)
  ∧ files (commit_changes g cp conf changed hp table hba_changed w).1 !! hp
    = Some (if hba_changed then render_table table else ht).
Proof.
  intros Hc Hh Hne Hbc Hbh Hconf Htab. unfold commit_changes.
  destruct changed, hba_changed; cbn [orb].
  - destruct Hconf as [Hp Hn]; [done|].
    erewrite bind_ok by reflexivity.
    destruct (conf_write_block cp conf
                (set_trace (trace w ++ [Stdout "INFO: Database needs to be restarted."]) w)
                ct Hc Hp Hn) as (w1 & Hrun1 & Hf1 & Hh1).
    erewrite bind_ok by exact Hrun1.
    assert (files w1 !! hp = Some ht) as Hh'.
    { rewrite Hf1. cbn [files set_trace host].
      rewrite !lookup_insert_ne by done. by rewrite lookup_delete_ne. }
    destruct (hba_write_block hp table w1 ht Hh' (Htab eq_refl))
      as (w2 & Hrun2 & Hf2 & Hh2).
    erewrite keeps_after; [|exact Hrun2|intros ?; apply keeps_files_restart].
    rewrite Hf2, Hf1, Hh1. cbn [files set_trace host]. split.
    + rewrite !lookup_insert_ne by done. rewrite lookup_delete_ne by done.
      apply lookup_insert_eq.
    + apply lookup_insert_eq.
  - destruct Hconf as [Hp Hn]; [done|].
    erewrite bind_ok by reflexivity.
    destruct (conf_write_block cp conf
                (set_trace (trace w ++ [Stdout "INFO: Database needs to be restarted."]) w)
                ct Hc Hp Hn) as (w1 & Hrun1 & Hf1 & Hh1).
    erewrite bind_ok by exact Hrun1.
    erewrite bind_ok by reflexivity.
    rewrite keeps_files_restart, Hf1. cbn [files set_trace host]. split.
    + apply lookup_insert_eq.
    + rewrite !lookup_insert_ne by done. by rewrite lookup_delete_ne.
  - erewrite bind_ok by reflexivity.
    erewrite bind_ok by reflexivity.
    assert (files (set_trace (trace w ++ [Stdout "INFO: Database needs to be restarted."]) w)
              !! hp = Some ht) as Hh' by done.
    destruct (hba_write_block hp table _ ht Hh' (Htab eq_refl))
      as (w2 & Hrun2 & Hf2 & Hh2).
    erewrite keeps_after; [|exact Hrun2|intros ?; apply keeps_files_restart].
    rewrite Hf2. cbn [files set_trace host]. split.
    + rewrite !lookup_insert_ne by done. by rewrite lookup_delete_ne.
    + apply lookup_insert_eq.
  - by rewrite keeps_files_emit.
Qed.

Lemma commit_changes_quiet g cp conf hp table w :
  commit_changes g cp conf false hp table false w
  = (set_trace (trace w ++ [Stdout "INFO: No changes required."]) w, inr tt).
Proof. reflexivity. Qed.

(** [do_system_check] up to the commit. *)
Lemma do_system_check_run g args w ct ht es T c0 :
  files w !! (pcnf_pg_data g +:+ "/postgresql.conf") = Some ct →
  parse_lines (readlines ct) = inr es →
  files w !! (pcnf_pg_data g +:+ "/pg_hba.conf") = Some ht →
  tuned args (phys_mem (host w)) (doc_of_entries es ∅) false = inr (T, c0) →
  do_system_check g args w
  = (commit_changes g (pcnf_pg_data g +:+ "/postgresql.conf")
       (policy_rules T c0).1 (policy_rules T c0).2
       (pcnf_pg_data g +:+ "/pg_hba.conf")
       (hba_rule (parse_hba ht)).1 (hba_rule (parse_hba ht)).2 ;;
     emit (Stdout "System check finished") ;;
     ret true) w.
Proof.
  intros Hc Hes Hh Ht. unfold do_system_check.
  erewrite bind_ok; [|by erewrite _get_conf_spec, Hes by done].
  erewrite bind_ok; [|unfold autotune; erewrite bind_ok by reflexivity;
                      by rewrite Ht].
  cbv beta iota zeta.
  destruct (policy_rules T c0) as [P changed].
  erewrite bind_ok; [|unfold read_file; by rewrite Hh].
  by destruct (hba_rule (parse_hba ht)) as [table hba_changed].
Qed.

(** *** The tuner's block *)

Lemma tuned_inv args mem d c T c0 :
  tuned args mem d c = inr (T, c0) →
  (("autotuning" ∉ args) ∧ T = d ∧ c0 = c)
  ∨ (∃ config, "autotuning" ∈ args ∧ PgTune.estimate mem = inr config
               ∧ T = config ∪ d
               ∧ c0 = (tune_loop (dict_items config) d c).2).
Proof.
  unfold tuned. case_bool_decide as Ha.
  - destruct (PgTune.estimate mem) as [e|config] eqn:E; [done|].
    intros [= Et]. right. exists config. split_and!; try done.
    + by rewrite <- (tune_loop_union config d c), Et.
    + by rewrite Et.
  - intros [= <- <-]. by left.
Qed.

Lemma tuned_defined args mem d c :
  ("autotuning" ∈ args → ∃ config, PgTune.estimate mem = inr config) →
  ∃ T c0, tuned args mem d c = inr (T, c0).
Proof.
  intros Hm. unfold tuned. case_bool_decide as Ha.
  - destruct (Hm Ha) as [config ->].
    destruct (tune_loop (dict_items config) d c) as [T c0]. eauto.
  - eauto.
Qed.

(** The tuner's block keeps the document writable, and leaves the keys of
    the rules and the reserved names as they are. *)
Lemma tuned_safe args mem d c T c0 :
  tuned args mem d c = inr (T, c0) → safe_doc d → safe_doc T.
Proof.
  intros [(_ & -> & _)|(config & _ & He & -> & _)]%tuned_inv Hd; [done|].
  intros k v [Hk|[_ Hk]]%lookup_union_Some_raw; [|by apply Hd].
  by eapply estimate_safe.
Qed.

Lemma tuned_other args mem d c T c0 k :
  tuned args mem d c = inr (T, c0) →
  k ∈ policy_keys ++ reserved_keys → T !! k = d !! k.
Proof.
  intros [(_ & -> & _)|(config & _ & He & -> & _)]%tuned_inv Hk; [done|].
  apply lookup_union_r. by eapply estimate_keys.
Qed.

Lemma read_shape_safe d : read_shape d → safe_doc d.
Proof.
  intros Hd k v Hk. destruct (Hd k v Hk) as (Hkey & s & -> & Hs).
  unfold clean_entry. cbn [fst snd py_str]. by rewrite Hkey, Hs.
Qed.

Lemma safe_doc_clean d : safe_doc d → clean_doc d = true.
Proof.
  intros Hd. unfold clean_doc. apply forallb_forall.
  intros [k v] Hin%list_elem_of_In%elem_of_map_to_list. by apply Hd.
Qed.

(** The rules find strings at their keys in a document that was read and
    then tuned. *)
Lemma tuned_strings args mem d c T c0 (r : string * (option value → bool) * value) v :
  tuned args mem d c = inr (T, c0) → read_shape d →
  r ∈ flag_rules → T !! r.1.1 = Some v → is_VStr v = true.
Proof.
  intros Ht Hd Hr. erewrite tuned_other; [|done|].
  - intros Hv. by destruct (Hd _ _ Hv) as (_ & s & -> & _).
  - apply elem_of_app. left. by apply flag_rule_key_policy.
Qed.

(** After the result of a first check has been written and read, the
    tuner's block and the rules find nothing to change. *)
Lemma settled_after_write args mem d T c0 :
  read_shape d →
  tuned args mem d false = inr (T, c0) →
  ∃ T2, tuned args mem (as_read (policy_rules T c0).1) false = inr (T2, false)
        ∧ compliant T2 = true.
Proof.
  intros Hd Ht.
  assert (compliant (as_read (policy_rules T c0).1) = true) as Hcomp.
  { apply policy_rules_settled. intros r Hr v. by eapply tuned_strings. }
  destruct (tuned_inv _ _ _ _ _ _ Ht)
    as [(Ha & -> & ->)|(config & Ha & He & -> & _)].
  - exists (as_read (policy_rules d false).1). split; [|done].
    unfold tuned. by rewrite bool_decide_eq_false_2.
  - exists (config ∪ as_read (policy_rules (config ∪ d) c0).1). split.
    + unfold tuned. rewrite bool_decide_eq_true_2, He by done. f_equal.
      rewrite (surjective_pairing (tune_loop _ _ _)). f_equal.
      * apply tune_loop_union.
      * apply tune_loop_quiet.
        { rewrite dict_items_perm. apply NoDup_fst_map_to_list. }
        apply Forall_forall. intros [k v] Hin. cbn [fst snd].
        rewrite dict_items_perm in Hin. apply elem_of_map_to_list in Hin.
        unfold str_get. rewrite lookup_as_read, policy_rules_other.
        -- by rewrite (lookup_union_Some_l _ _ _ _ Hin).
        -- intros Hk.
           rewrite (estimate_keys _ _ He k) in Hin; [done|].
           apply elem_of_app. by left.
    + apply compliant_spec, Forall_forall. intros r Hr.
      rewrite lookup_union_r.
      * apply compliant_spec in Hcomp. rewrite Forall_forall in Hcomp. auto.
      * eapply estimate_keys; [done|]. apply elem_of_app. left.
        by apply flag_rule_key_policy.
Qed.

End Commit.

End RunFacts.

(** ** Facts about the archival switch *)

Module ArchivalFacts.
Import StrFacts ConfFacts PathFacts CheckFacts RunFacts.

Lemma bind_inv {A B} (m : M A) (k : A → M B) w w' b :
  bind m k w = (w', inr b) →
  ∃ w1 a, m w = (w1, inr a) ∧ k a w1 = (w', inr b).
Proof.
  unfold bind. destruct (m w) as [w1 [e|a]]; [done|]. eauto.
Qed.

(** *** Counting restarts *)

Lemma restarts_emit e w :
  restarts (emit e w).1
  = (restarts w + if decide (e = Enter "_restart_db") then 1 else 0)%nat.
Proof.
  unfold restarts, emit, modify. cbn [fst trace set_trace].
  rewrite count_occ_app. cbn [count_occ].
  destruct (event_eq_dec e (Enter "_restart_db")), (decide (e = Enter "_restart_db"));
    done.
Qed.

Lemma keeps_restarts_emit e : e ≠ Enter "_restart_db" → keeps restarts (emit e).
Proof.
  intros He w. rewrite restarts_emit. rewrite decide_False by done. lia.
Qed.

Ltac keeps_restarts :=
  repeat first
    [ apply keeps_restarts_emit; discriminate
    | keeps_step ].


Lemma keeps_restarts_do_db_start g : keeps restarts (do_db_start g).
Proof.
  unfold do_db_start, _get_db_status, _cleanup_pids, system_pg_ctl_start, chdir.
  keeps_restarts.
Qed.

Lemma keeps_restarts_do_db_stop g : keeps restarts (do_db_stop g).
Proof.
  unfold do_db_stop, _get_db_status, _cleanup_pids, system_pg_ctl_stop, chdir.
  keeps_restarts.
Qed.

Lemma keeps_restarts_do_db_status : keeps restarts do_db_status.
Proof. unfold do_db_status, _get_db_status. keeps_restarts. Qed.

(** [_restart_db] counts once and writes no file. *)
Lemma _restart_db_restarts g w :
  restarts (_restart_db g w).1 = S (restarts w).
Proof.
  unfold _restart_db.
  erewrite (keeps_after restarts _ _ w _ _ (surjective_pairing _)).
  - rewrite restarts_emit, decide_True by done. lia.
  - intros _. unfold _get_db_status.
    repeat first [ apply keeps_restarts_do_db_start
                 | apply keeps_restarts_do_db_stop
                 | apply keeps_restarts_do_db_status | keeps_step ].
Qed.

Lemma keeps_files__restart_db g : keeps files (_restart_db g).
Proof.
  unfold _restart_db, _get_db_status.
  repeat first [ apply keeps_files_emit | apply keeps_files_do_db_start
               | apply keeps_files_do_db_stop | apply keeps_files_do_db_status
               | keeps_step ].
Qed.



Lemma keeps_pair {A X Y} (f : World → X) (f' : World → Y) (m : M A) :
  keeps f m → keeps f' m → keeps (λ w, (f w, f' w)) m.
Proof. intros Hf Hf' w. cbn beta. by rewrite Hf, Hf'. Qed.



(** *** Reading the configuration *)

Lemma _get_conf_inv cp w w1 conf :
  _get_conf cp w = (w1, inr conf) →
  w1 = w ∧ ∃ text es, files w !! cp = Some text
                      ∧ parse_lines (readlines text) = inr es
                      ∧ conf = doc_of_entries es ∅.
Proof.
  destruct (files w !! cp) as [text|] eqn:Hf.
  - rewrite (_get_conf_spec _ _ _ Hf).
    destruct (parse_lines (readlines text)) as [line|es] eqn:Hes; [done|].
    intros [= <- <-]. eauto 10.
  - unfold _get_conf, bind, path_exists, gets, read_file, raise. rewrite Hf.
    rewrite bool_decide_eq_false_2 by (by intros []).
    destruct (bool_decide (cp ∈ dirs w)); cbn [orb negb]; by rewrite ?Hf.
Qed.

Lemma configured_command_parsed cp w text es :
  files w !! cp = Some text → parse_lines (readlines text) = inr es →
  configured_command cp w = doc_of_entries es ∅ !! "archive_command".
Proof. intros Hf Hes. unfold configured_command. by rewrite Hf, Hes. Qed.


(** *** Settling the archive command *)

(** The test of the source, on a document that holds strings. *)
Lemma differs_spec (o : option value) cmd :
  cmd ≠ "" →
  bool_decide (default (VStr "") o ≠ VStr cmd)
  = negb (bool_decide (o = Some (VStr cmd))).
Proof.
  intros Hcmd. destruct o as [v|]; cbn [default].
  - destruct (decide (v = VStr cmd)) as [->|Hne].
    + rewrite bool_decide_eq_false_2 by (by intros []).
      by rewrite bool_decide_eq_true_2.
    + rewrite bool_decide_eq_true_2 by done.
      rewrite bool_decide_eq_false_2; [done|]. by intros [= ->].
  - rewrite bool_decide_eq_true_2 by (by intros [= <-]).
    by rewrite bool_decide_eq_false_2.
Qed.

Section Switch.
Context `{DictOrder}.

Lemma read_shape_insert conf k s :
  read_shape conf → clean_key k = true → clean_value s = true →
  read_shape (<[k := VStr s]> conf).
Proof.
  intros Hc Hk Hs k' v'. destruct (decide (k = k')) as [<-|Hne].
  - rewrite lookup_insert_eq. intros [= <-]. eauto.
  - rewrite lookup_insert_ne by done. apply Hc.
Qed.

(** A document that was read, with the archive command set, is read back
    from the file it is written to. *)
Lemma switched_reads_back conf cmd :
  read_shape conf → clean_value cmd = true →
  ∃ es, parse_lines
          (readlines (render_conf
                        (dict_items (<["archive_command" := VStr cmd]> conf))))
        = inr es
        ∧ doc_of_entries es ∅ !! "archive_command" = Some (VStr cmd).
Proof.
  intros Hc Hcmd.
  assert (read_shape (<["archive_command" := VStr cmd]> conf)) as Hs
    by (by apply read_shape_insert).
  apply read_shape_clean in Hs as [Hclean Hstr].
  destruct (parse_render_conf _ Hclean) as (es & Hes & Hd).
  exists es. split; [done|].
  rewrite Hd, as_read_strings by done. apply lookup_insert_eq.
Qed.

(** The statement that settles the command: it writes the file and restarts
    when the document lacks the command, and does nothing when it has it. *)
Lemma switch_archive_command_spec g cp conf cmd w w' ct :
  files w !! cp = Some ct →
  switch_archive_command g cp conf cmd w = (w', inr tt) →
  restarts w'
  = (restarts w
     + if bool_decide (default (VStr "") (conf !! "archive_command") ≠ VStr cmd)
       then 1 else 0)%nat
  ∧ files w' !! cp
    = Some (if bool_decide (default (VStr "") (conf !! "archive_command")
                            ≠ VStr cmd)
            then render_conf
                   (dict_items (<["archive_command" := VStr cmd]> conf))
            else ct).
Proof.
  intros Hf. unfold switch_archive_command.
  destruct (bool_decide (default (VStr "") (conf !! "archive_command") ≠ VStr cmd)).
  - intros (w1 & bk & Hwrite & Hrestart)%bind_inv.
    assert (passable (<["archive_command" := VStr cmd]> conf) = true) as Hp.
    { unfold _write_conf_kwargs, raise in Hwrite. unfold passable.
      destruct (bool_decide (is_Some (_ !! "self"))); [done|].
      by destruct (bool_decide (is_Some (_ !! "conf_path"))). }
    rewrite _write_conf_kwargs_passable in Hwrite by done.
    rewrite _write_conf_data in Hwrite;
      [|by rewrite Hf|apply insert_non_empty].
    injection Hwrite as <- _.
    assert (w' = (_restart_db g
                    (set_files
                       (<[cp := render_conf
                                  (dict_items (<["archive_command" := VStr cmd]> conf))]>
                          (backed_up cp (timestamp (host w)) (files w)).1) w)).1)
      as -> by (by rewrite Hrestart).
    rewrite _restart_db_restarts, keeps_files__restart_db.
    cbn [files set_files]. split; [unfold restarts; cbn [trace set_files]; lia|].
    apply lookup_insert_eq.
  - intros [= <-]. split; [lia|done].
Qed.

Lemma switch_settles g cp cmd w w' text es :
  files w !! cp = Some text → parse_lines (readlines text) = inr es →
  clean_value cmd = true → cmd ≠ "" →
  switch_archive_command g cp (doc_of_entries es ∅) cmd w = (w', inr tt) →
  restarts w'
  = (restarts w
     + if bool_decide (configured_command cp w = Some (VStr cmd))
       then 0 else 1)%nat
  ∧ (configured_command cp w = Some (VStr cmd) → files w' !! cp = Some text)
  ∧ configured_command cp w' = Some (VStr cmd).
Proof.
  intros Hf Hes Hclean Hcmd Hrun.
  destruct (switch_archive_command_spec _ _ _ _ _ _ _ Hf Hrun) as [Hr Hfile].
  rewrite (configured_command_parsed _ _ _ _ Hf Hes).
  rewrite differs_spec in Hr, Hfile by done.
  destruct (bool_decide (doc_of_entries es ∅ !! "archive_command"
                         = Some (VStr cmd))) eqn:Hd; cbn [negb] in Hr, Hfile.
  - apply bool_decide_eq_true in Hd. split_and!; [done..|].
    by rewrite (configured_command_parsed _ _ _ _ Hfile Hes).
  - apply bool_decide_eq_false in Hd. split_and!; [done..|].
    destruct (switched_reads_back (doc_of_entries es ∅) cmd) as (es' & Hes' & Hl);
      [by eapply read_shape_parsed|done|].
    by rewrite (configured_command_parsed _ _ _ _ Hfile Hes').
Qed.

End Switch.


Lemma archive_command_not_empty bd : archive_command_for bd ≠ "".
Proof. done. Qed.

(** *** What the rest of the command leaves alone *)



Section Frames.
Context (cp : string).





End Frames.








(** *** One run of the command *)

Section Runs.
Context `{DictOrder}.

Lemma _perform_enable_backups_on g bd :
  _perform_enable_backups g "on" bd
  = (let* conf := _get_conf (pcnf_pg_data g +:+ "/postgresql.conf") in
     let* status := _get_db_status in
     (if negb status then do_db_start g else ret tt) ;;
     let* status := _get_db_status in
     if negb status then raise (GateException "Cannot start the database!")
     else
       let* ex := path_exists bd in
       (if negb ex then
          system_mkdir_p ("sudo -u postgres /bin/mkdir -p -m 0700 " +:+ bd) bd
        else ret tt) ;;
       switch_archive_command g (pcnf_pg_data g +:+ "/postgresql.conf") conf
         (archive_command_for bd) ;;
       take_base_backup g bd).
Proof. reflexivity. Qed.

Lemma _perform_enable_backups_off g bd :
  _perform_enable_backups g "off" bd
  = (let* conf := _get_conf (pcnf_pg_data g +:+ "/postgresql.conf") in
     let* ex := path_exists bd in
     ret tt ;;
     switch_archive_command g (pcnf_pg_data g +:+ "/postgresql.conf") conf
       "'/bin/true'").
Proof. reflexivity. Qed.


Lemma disable_settles g bd w w' :
  _perform_enable_backups g "off" bd w = (w', inr tt) →
  restarts w'
  = (restarts w
     + if bool_decide (configured_command (pcnf_pg_data g +:+ "/postgresql.conf") w
                       = Some (VStr "'/bin/true'"))
       then 0 else 1)%nat
  ∧ (configured_command (pcnf_pg_data g +:+ "/postgresql.conf") w
     = Some (VStr "'/bin/true'") →
     files w' !! (pcnf_pg_data g +:+ "/postgresql.conf")
     = files w !! (pcnf_pg_data g +:+ "/postgresql.conf"))
  ∧ configured_command (pcnf_pg_data g +:+ "/postgresql.conf") w'
    = Some (VStr "'/bin/true'").
Proof.
  intros Hrun. rewrite _perform_enable_backups_off in Hrun.
  remember (pcnf_pg_data g +:+ "/postgresql.conf") as cp eqn:Hcp.
  apply bind_inv in Hrun as (w1 & conf & Hconf & Hrun).
  apply _get_conf_inv in Hconf as (-> & text & es & Hf & Hes & ->).
  apply bind_inv in Hrun as (w2 & ex & [= <- _] & Hrun).
  apply bind_inv in Hrun as (w3 & [] & [= <-] & Hrun).
  destruct (switch_settles g cp "'/bin/true'" w w' text es Hf Hes)
    as (Hr & Hsame & Hcc); [done..|].
  split_and!; [done| |done]. intros Hc. by rewrite Hf, Hsame.
Qed.

End Runs.

End ArchivalFacts.

(** ** Facts about the tuner *)

Module TuneFacts.
Import StrFacts ConfFacts PathFacts CheckFacts.

(** The multiplier only scales the result of the loop. *)
Lemma br_pos_scale p m : PgTune.br_pos p m = m * PgTune.br_pos p 1.
Proof.
  revert m. induction p as [p IH|p IH|]; intros m; cbn [PgTune.br_pos].
  - destruct (Z.pos p~1 >? 16); [|lia]. rewrite (IH (m * 2)), (IH (1 * 2)). lia.
  - destruct (Z.pos p~0 >? 16); [|lia]. rewrite (IH (m * 2)), (IH (1 * 2)). lia.
  - destruct (1 >? 16); lia.
Qed.

Lemma br_pos_small p : Z.pos p ≤ 16 → PgTune.br_pos p 1 = Z.pos p.
Proof.
  intros Hp. destruct p; cbn [PgTune.br_pos];
    rewrite Z.gtb_ltb, (proj2 (Z.ltb_ge _ _)) by lia; lia.
Qed.

(** One turn of the loop drops the last bit and doubles the multiplier. *)
Lemma br_pos_large_xO p :
  16 < Z.pos p~0 → PgTune.br_pos p~0 1 = 2 * PgTune.br_pos p 1.
Proof.
  intros Hp. cbn [PgTune.br_pos]. rewrite Z.gtb_ltb, (proj2 (Z.ltb_lt _ _)) by lia.
  rewrite br_pos_scale. lia.
Qed.

Lemma br_pos_large_xI p :
  16 < Z.pos p~1 → PgTune.br_pos p~1 1 = 2 * PgTune.br_pos p 1.
Proof.
  intros Hp. cbn [PgTune.br_pos]. rewrite Z.gtb_ltb, (proj2 (Z.ltb_lt _ _)) by lia.
  rewrite br_pos_scale. lia.
Qed.

(** The result is the leading bits [k] of the value, at most five of them,
    shifted back by the number [j] of bits dropped. *)
Lemma br_pos_shape p :
  ∃ j k, 0 ≤ j ∧ PgTune.br_pos p 1 = 2 ^ j * k
         ∧ 2 ^ j * k ≤ Z.pos p < 2 ^ j * (k + 1)
         ∧ 1 ≤ k ≤ 16
         ∧ (16 < Z.pos p → 8 ≤ k)
         ∧ (Z.pos p ≤ 16 → j = 0).
Proof.
  induction p as [p IH|p IH|].
  - destruct (decide (Z.pos p~1 ≤ 16)) as [Hs|Hl].
    + exists 0, (Z.pos p~1). rewrite br_pos_small by done. lia.
    + destruct IH as (j & k & Hj & HF & Hb & Hk & Hk8 & Hj0).
      exists (j + 1), k. rewrite br_pos_large_xI, HF by lia.
      rewrite Z.pow_add_r by lia. change (2 ^ 1) with 2.
      assert (0 < 2 ^ j) by (apply Z.pow_pos_nonneg; lia).
      split_and!; try lia; try nia.
      intros _. destruct (decide (16 < Z.pos p)); [auto|].
      rewrite Hj0 in Hb by lia. change (2 ^ 0) with 1 in Hb. lia.
  - destruct (decide (Z.pos p~0 ≤ 16)) as [Hs|Hl].
    + exists 0, (Z.pos p~0). rewrite br_pos_small by done. lia.
    + destruct IH as (j & k & Hj & HF & Hb & Hk & Hk8 & Hj0).
      exists (j + 1), k. rewrite br_pos_large_xO, HF by lia.
      rewrite Z.pow_add_r by lia. change (2 ^ 1) with 2.
      assert (0 < 2 ^ j) by (apply Z.pow_pos_nonneg; lia).
      split_and!; try lia; try nia.
      intros _. destruct (decide (16 < Z.pos p)); [auto|].
      rewrite Hj0 in Hb by lia. change (2 ^ 0) with 1 in Hb. lia.
  - exists 0, 1. rewrite br_pos_small by lia. lia.
Qed.

Lemma br_pos_positive p : 0 < PgTune.br_pos p 1.
Proof.
  destruct (br_pos_shape p) as (j & k & Hj & -> & _ & Hk & _).
  assert (0 < 2 ^ j) by (apply Z.pow_pos_nonneg; lia). nia.
Qed.

(** A value the loop returns is returned as it is. *)
Lemma br_pos_fixed p :
  PgTune.br_pos (Z.to_pos (PgTune.br_pos p 1)) 1 = PgTune.br_pos p 1.
Proof.
  assert (∀ q, PgTune.br_pos q 1 = Z.pos q →
               PgTune.br_pos q~0 1 = Z.pos q~0) as Hdouble.
  { intros q Hq. destruct (decide (Z.pos q~0 ≤ 16)).
    - by apply br_pos_small.
    - rewrite br_pos_large_xO, Hq by lia. lia. }
  assert (∀ q, PgTune.br_pos (Z.to_pos (PgTune.br_pos q 1)) 1
               = PgTune.br_pos q 1 →
               PgTune.br_pos (Z.to_pos (2 * PgTune.br_pos q 1)) 1
               = 2 * PgTune.br_pos q 1) as Hstep.
  { intros q Hq. pose proof (br_pos_positive q) as Hpos.
    destruct (PgTune.br_pos q 1) as [|r|r] eqn:E; [lia| |lia].
    change (Z.to_pos (2 * Z.pos r)) with (r~0)%positive.
    change (Z.to_pos (Z.pos r)) with r in Hq.
    rewrite Hdouble by done. lia. }
  induction p as [p IH|p IH|].
  - destruct (decide (Z.pos p~1 ≤ 16)) as [Hs|Hl].
    + rewrite (br_pos_small _ Hs). cbn [Z.to_pos]. by apply br_pos_small.
    + rewrite br_pos_large_xI by lia. by apply Hstep.
  - destruct (decide (Z.pos p~0 ≤ 16)) as [Hs|Hl].
    + rewrite (br_pos_small _ Hs). cbn [Z.to_pos]. by apply br_pos_small.
    + rewrite br_pos_large_xO by lia. by apply Hstep.
  - done.
Qed.

Lemma br_pos p : PgTune.br (Z.pos p) = PgTune.br_pos p 1.
Proof. done. Qed.

Lemma br_le value : 0 ≤ value → PgTune.br value ≤ value.
Proof.
  destruct value as [|p|p]; [done| |lia]. intros _. rewrite br_pos.
  destruct (br_pos_shape p) as (j & k & _ & -> & Hb & _). lia.
Qed.

Lemma br_nonneg value : 0 ≤ value → 0 ≤ PgTune.br value.
Proof.
  destruct value as [|p|p]; [done| |lia]. intros _. rewrite br_pos.
  pose proof (br_pos_positive p). lia.
Qed.

End TuneFacts.

(** ** The records of pg_hba.conf survive a rewrite *)

Module HbaRound.
Import StrFacts ConfFacts PathFacts CheckFacts HbaFacts.







(** *** Splitting and joining *)





(** *** The words of a trimmed line *)





(** *** A record that was read is read again from the line written for it *)


Lemma hba_line_replication_cfg :
  hba_line (table_line replication_cfg) = Some replication_cfg.
Proof. reflexivity. Qed.



End HbaRound.

(** ** The files a system check leaves *)

Module CheckRound.
Import StrFacts ConfFacts PathFacts CheckFacts HbaFacts RunFacts HbaRound.

(** A flag that is down after the rules was down before them, and none of
    the rules has fired. *)
Lemma apply_rules_unflagged rules st :
  NoDup ((λ r : string * (option value → bool) * value, r.1.1) <$> rules) →
  (foldl (λ st r, flag_rule r st) st rules).2 = false →
  st.2 = false ∧ Forall (λ r, r.1.2 (st.1 !! r.1.1) = false) rules.
Proof.
  revert st. induction rules as [|r rules IH]; intros st Hnd Hflag; [done|].
  rewrite fmap_cons in Hnd. apply NoDup_cons in Hnd as [Hr Hnd].
  rewrite apply_rules_cons in Hflag.
  destruct (IH _ Hnd Hflag) as [Hst Hrest].
  unfold flag_rule in Hst, Hrest.
  destruct (r.1.2 (st.1 !! r.1.1)) eqn:E; [done|].
  split; [done|]. by constructor.
Qed.

Lemma policy_rules_unflagged conf changed :
  (policy_rules conf changed).2 = false →
  changed = false ∧ compliant conf = true.
Proof.
  rewrite policy_rules_table. intros Hflag.
  apply apply_rules_unflagged in Hflag as [Hc Hrules]; [|apply flag_rules_NoDup].
  split; [done|]. apply compliant_spec.
  apply Forall_forall. intros r Hr. rewrite Forall_forall in Hrules.
  specialize (Hrules r Hr). cbn [fst] in Hrules.
  by rewrite wal_level_rule_other in Hrules by by apply flag_rules_not_wal.
Qed.



Section Files.
Context `{DictOrder}.

(** The two files after a run of [do_system_check], however it ended. *)
Lemma do_system_check_files g args w ct ht es :
  files w !! (pcnf_pg_data g +:+ "/postgresql.conf") = Some ct →
  files w !! (pcnf_pg_data g +:+ "/pg_hba.conf") = Some ht →
  parse_lines (readlines ct) = inr es →
  passable (doc_of_entries es ∅) = true →
  ("autotuning" ∈ args →
     ∃ config, PgTune.estimate (phys_mem (host w)) = inr config) →
  ∃ T c0,
    tuned args (phys_mem (host w)) (doc_of_entries es ∅) false = inr (T, c0)
    ∧ safe_doc (policy_rules T c0).1
    ∧ files (do_system_check g args w).1
        !! (pcnf_pg_data g +:+ "/postgresql.conf")
      = Some (if (policy_rules T c0).2
              then render_conf (dict_items (policy_rules T c0).1) else ct)
    ∧ files (do_system_check g args w).1 !! (pcnf_pg_data g +:+ "/pg_hba.conf")
      = Some (if (hba_rule (parse_hba ht)).2
              then render_table (hba_rule (parse_hba ht)).1 else ht).
Proof.
  intros Hc Hh Hes Hpass Hmem.
  set (cp := pcnf_pg_data g +:+ "/postgresql.conf") in *.
  set (hp := pcnf_pg_data g +:+ "/pg_hba.conf") in *.
  set (d := doc_of_entries es ∅) in *.
  pose proof (read_shape_parsed ct es Hes) as Hshape. fold d in Hshape.
  destruct (tuned_defined args (phys_mem (host w)) d false Hmem) as (T & c0 & Ht).
  exists T, c0. split; [done|].
  pose proof (do_system_check_run g args w ct ht es T c0 Hc Hes Hh Ht) as Hrun1.
  fold cp hp in Hrun1.
  assert (safe_doc (policy_rules T c0).1) as HsafeP.
  { apply policy_rules_safe. eapply tuned_safe; [done|].
    by apply read_shape_safe. }
  split; [done|].
  assert (passable (policy_rules T c0).1 = true) as HpassP.
  { apply passable_spec in Hpass as [Hs Hcp]. apply passable_spec.
    rewrite !policy_rules_other by compute_done.
    rewrite !(tuned_other _ _ _ _ _ _ _ Ht) by compute_done. done. }
  rewrite Hrun1.
  rewrite !(keeps_after files _ _ w _ _ (surjective_pairing _))
    by (intros ?; repeat keeps_step).
  apply commit_changes_files; try done.
  - apply gate_paths_differ.
  - apply gate_conf_backup_not_hba.
  - apply gate_hba_backup_not_conf.
  - intros _. split; [done|]. apply policy_rules_not_empty.
  - apply hba_rule_not_nil.
Qed.

End Files.


End CheckRound.

(** ** What the commands leave alone *)

Module FrameFacts.
Import StrFacts ConfFacts PathFacts CheckFacts RunFacts ArchivalFacts.

(** An observation of the host that does not look at one of its
    components is kept by the primitives that only change that
    component. *)
Section Blind.
Context {X : Type} (f : World → X).

Lemma keeps_emit e : blind_to_trace f → keeps f (emit e).
Proof. intros Ht w. apply Ht. Qed.

Lemma keeps_open_w p : blind_to_files f → keeps f (open_w p).
Proof. intros Hf w. apply Hf. Qed.

Lemma keeps_file_write p s : blind_to_files f → keeps f (file_write p s).
Proof. intros Hf w. apply Hf. Qed.

Lemma keeps_read_file p : keeps f (read_file p).
Proof. intros w. unfold read_file. by destruct (files w !! p). Qed.

Lemma keeps_os_rename src dst : blind_to_files f → keeps f (os_rename src dst).
Proof.
  intros Hf w. unfold os_rename. destruct (files w !! src); [apply Hf|done].
Qed.

Lemma keeps_os_remove p : blind_to_files f → keeps f (os_remove p).
Proof.
  intros Hf w. unfold os_remove. destruct (files w !! p); [apply Hf|done].
Qed.

Lemma keeps_for_each {A} (l : list A) (body : A → M unit) :
  (∀ x, keeps f (body x)) → keeps f (for_each l body).
Proof.
  intros Hb. induction l as [|x l IH]; [apply keeps_ret|].
  cbn [for_each]. apply keeps_bind; [apply Hb|]. by intros _.
Qed.

Lemma keeps_conf_of_lines p lines conf : keeps f (conf_of_lines p lines conf).
Proof.
  revert conf. induction lines as [|raw lines IH]; intros conf;
    [apply keeps_ret|].
  cbn [conf_of_lines]. destruct (conf_line raw); [apply IH..|apply keeps_raise].
Qed.

Lemma keeps__get_conf p : keeps f (_get_conf p).
Proof.
  unfold _get_conf, path_exists.
  repeat first [apply keeps_read_file | apply keeps_conf_of_lines | keeps_step].
Qed.

Lemma keeps__write_conf `{DictOrder} p table data :
  blind_to_files f → keeps f (_write_conf p table data).
Proof.
  intros Hf. unfold _write_conf, path_exists, time_prefix.
  repeat first [ by apply keeps_os_rename | by apply keeps_open_w
               | apply keeps_for_each; intros ?; by apply keeps_file_write
               | keeps_step ].
Qed.

Lemma keeps__write_conf_kwargs `{DictOrder} p data :
  blind_to_files f → keeps f (_write_conf_kwargs p data).
Proof.
  intros Hf. unfold _write_conf_kwargs.
  repeat first [by apply keeps__write_conf | keeps_step].
Qed.

Lemma keeps_os_mkdir d : blind_to_trace f → blind_to_dirs f → keeps f (os_mkdir d).
Proof.
  intros Ht Hd. unfold os_mkdir.
  apply keeps_bind; [by apply keeps_emit|intros _]. intros w. apply Hd.
Qed.

Lemma keeps_system_mkdir_p cmd d :
  blind_to_trace f → blind_to_dirs f → keeps f (system_mkdir_p cmd d).
Proof.
  intros Ht Hd. unfold system_mkdir_p.
  apply keeps_bind; [by apply keeps_emit|intros _]. intros w. apply Hd.
Qed.

Lemma keeps_shutil_rmtree d :
  blind_to_trace f → blind_to_dirs f → blind_to_files f → keeps f (shutil_rmtree d).
Proof.
  intros Ht Hd Hf. unfold shutil_rmtree.
  apply keeps_bind; [apply keeps_gets|intros isdir].
  destruct (negb isdir); [apply keeps_raise|].
  apply keeps_bind; [by apply keeps_emit|intros _].
  intros w. cbn [modify fst]. by rewrite Hd, Hf.
Qed.

Lemma keeps_system_pg_basebackup cmd d :
  blind_to_trace f → blind_to_dirs f → blind_to_files f →
  keeps f (system_pg_basebackup cmd d).
Proof.
  intros Ht Hd Hf. unfold system_pg_basebackup.
  apply keeps_bind; [by apply keeps_emit|intros _].
  apply keeps_bind; [apply keeps_gets|intros ok].
  destruct ok; [|apply keeps_ret].
  intros w. cbn [modify fst]. by rewrite Hd, Hf.
Qed.

Lemma keeps_do_db_status : blind_to_trace f → keeps f do_db_status.
Proof.
  intros Ht. unfold do_db_status, _get_db_status.
  repeat first [by apply keeps_emit | keeps_step].
Qed.

Lemma keeps_do_backup_status g opts :
  blind_to_trace f → keeps f (do_backup_status g opts).
Proof.
  intros Ht. unfold do_backup_status, path_exists.
  repeat first [apply keeps__get_conf | by apply keeps_emit | keeps_step].
Qed.







End Blind.

(** *** The working directory *)

Lemma cwd_blind :
  blind_to_trace cwd ∧ blind_to_files cwd ∧ blind_to_dirs cwd
  ∧ blind_to_running cwd.
Proof. done. Qed.

Lemma keeps_cwd_do_db_start g : keeps cwd (do_db_start g).
Proof.
  intros [fs ds run cw tr h].
  unfold do_db_start, _get_db_status, _cleanup_pids, chdir,
    system_pg_ctl_start, bind, gets, emit, modify, ret.
  cbn. destruct run; [done|]. cbn. by destruct (pg_ctl_start_ok h).
Qed.

Lemma keeps_cwd_do_db_stop g : keeps cwd (do_db_stop g).
Proof.
  intros [fs ds run cw tr h].
  unfold do_db_stop, _get_db_status, _cleanup_pids, chdir,
    system_pg_ctl_stop, bind, gets, emit, modify, ret, raise.
  cbn. destruct run; [|done]. cbn.
  destruct (is_empty (default "" (pcnf_data_directory g))); [done|].
  cbn. by destruct (pg_ctl_stop_ok h).
Qed.

Lemma keeps_cwd__restart_db g : keeps cwd (_restart_db g).
Proof.
  unfold _restart_db, _get_db_status.
  repeat first [ apply keeps_cwd_do_db_start | apply keeps_cwd_do_db_stop
               | apply keeps_do_db_status; apply cwd_blind
               | apply keeps_emit; apply cwd_blind
               | keeps_step ].
Qed.

(** The base backup runs in the data directory and comes back. *)
Lemma keeps_cwd_take_base_backup g bd : keeps cwd (take_base_backup g bd).
Proof.
  unfold take_base_backup, path_exists.
  apply keeps_bind; [apply keeps_gets|intros ex].
  apply keeps_bind.
  { repeat first [ apply keeps_os_remove; apply cwd_blind
                 | apply keeps_os_rename; apply cwd_blind | keeps_step ]. }
  intros _ w.
  unfold bind at 1. unfold gets at 1. cbn beta iota.
  unfold bind at 1, chdir at 1. unfold bind at 1, emit at 1, modify at 1.
  cbn beta iota. unfold modify at 1. cbn beta iota.
  set (w1 := set_cwd _ _).
  unfold bind at 1.
  pose proof (keeps_system_pg_basebackup (λ w, (trace w, db_running w, host w))) as Hb.
  destruct (system_pg_basebackup _ _ w1) as [w2 [e|[]]] eqn:E.
  { exfalso. revert E. unfold system_pg_basebackup, bind, emit, modify, gets, ret.
    cbn beta iota. by destruct (basebackup_ok _). }
  unfold bind at 1, chdir at 1. unfold bind at 1, emit at 1, modify at 1.
  cbn beta iota. unfold modify at 1. cbn beta iota.
  set (w3 := set_cwd _ _).
  assert (cwd w3 = cwd w) as <- by done.
  apply keeps_bind; [apply keeps_gets|intros ex2].
  destruct ex2; [|apply keeps_ret]. apply keeps_os_rename, cwd_blind.
Qed.

Ltac keeps_cwd_step :=
  lazymatch goal with
  | |- keeps _ (bind _ _) => apply keeps_bind; [|intros ?]
  | |- keeps _ (ret _) => apply keeps_ret
  | |- keeps _ (raise _) => apply keeps_raise
  | |- keeps _ (gets _) => apply keeps_gets
  | |- keeps _ (emit _) => apply keeps_emit; apply cwd_blind
  | |- keeps _ (do_db_start _) => apply keeps_cwd_do_db_start
  | |- keeps _ (do_db_stop _) => apply keeps_cwd_do_db_stop
  | |- keeps _ (_restart_db _) => apply keeps_cwd__restart_db
  | |- keeps _ (take_base_backup _ _) => apply keeps_cwd_take_base_backup
  | |- keeps _ do_db_status => apply keeps_do_db_status; apply cwd_blind
  | |- keeps _ (os_mkdir _) => apply keeps_os_mkdir; apply cwd_blind
  | |- keeps _ (system_mkdir_p _ _) => apply keeps_system_mkdir_p; apply cwd_blind
  | |- keeps _ (shutil_rmtree _) => apply keeps_shutil_rmtree; apply cwd_blind
  | |- keeps _ (open_w _) => apply keeps_open_w; apply cwd_blind
  | |- keeps _ (file_write _ _) => apply keeps_file_write; apply cwd_blind
  | |- keeps _ (read_file _) => apply keeps_read_file
  | |- keeps _ (_get_conf _) => apply keeps__get_conf
  | |- keeps _ (_write_conf_kwargs _ _) =>
      apply keeps__write_conf_kwargs; apply cwd_blind
  | |- keeps _ (_write_conf _ _ _) => apply keeps__write_conf; apply cwd_blind
  | |- keeps _ (do_backup_status _ _) =>
      apply keeps_do_backup_status; apply cwd_blind
  | |- keeps _ (modify _) => apply keeps_modify; intros ?; reflexivity
  | |- keeps _ (if ?b then _ else _) => destruct b
  | |- keeps _ (match ?x with _ => _ end) => destruct x
  end.

Section Commands.
Context `{DictOrder}.

Lemma keeps_cwd__perform_enable_backups g enable bd :
  keeps cwd (_perform_enable_backups g enable bd).
Proof.
  unfold _perform_enable_backups.
  apply keeps_bind; [apply keeps__get_conf|intros conf].
  destruct (String.eqb enable "on").
  - fold (switch_archive_command g (pcnf_pg_data g +:+ "/postgresql.conf")
            conf (archive_command_for bd)).
    fold (take_base_backup g bd).
    unfold switch_archive_command, _get_db_status, path_exists.
    repeat keeps_cwd_step.
  - unfold path_exists. repeat keeps_cwd_step.
Qed.

Lemma keeps_cwd_do_system_check g args : keeps cwd (do_system_check g args).
Proof.
  unfold do_system_check, autotune, commit_changes, _get_db_status.
  repeat keeps_cwd_step.
Qed.

Lemma keeps_cwd_do_backup_restore g : keeps cwd (do_backup_restore g).
Proof.
  unfold do_backup_restore, _rst_shutdown_db, _rst_save_current_cluster,
    _rst_replace_new_backup, _get_tablespace_size, _get_partition_size,
    _get_db_status, path_exists, time_prefix.
  repeat keeps_cwd_step.
Qed.

End Commands.

End FrameFacts.

(** ** Facts about the backup status *)

Module StatusFacts.
Import StrFacts ConfFacts PathFacts CheckFacts RunFacts ArchivalFacts FrameFacts.






(** *** The words of the archive command *)



(** *** A silent run of [do_backup_status] *)

Lemma do_backup_status_silent g w text es :
  files w !! (pcnf_pg_data g +:+ "/postgresql.conf") = Some text →
  parse_lines (readlines text) = inr es →
  do_backup_status g ["--silent"] w
  = match destination_word
            (split " " (py_str (default (VStr "")
                                  (doc_of_entries es ∅ !! "archive_command"))))
            false with
    | Some comp =>
        let backup_dst := dirname (remove_char "'" (remove_char DQUOTE comp)) in
        if negb (is_empty backup_dst) && negb (bool_decide (backup_dst ∈ dirs w))
        then (w, inl (OSError "[Errno 2] No such file or directory"))
        else (w, inr (Some (backup_dst,
                            bool_decide (is_Some (files w !! backup_dst))
                            || bool_decide (backup_dst ∈ dirs w))))
    | None => (w, inr (Some ("", false)))
    end.
Proof.
  intros Hf Hes. unfold do_backup_status.
  pose proof (_get_conf_spec _ _ _ Hf) as Hconf. rewrite Hes in Hconf.
  rewrite (bind_ok _ _ _ _ _ Hconf). rewrite (bind_ok _ _ _ _ _ Hconf).
  destruct (destination_word _ false) as [comp|].
  - unfold bind, path_exists, gets, ret. cbn beta iota zeta.
    by destruct (negb _ && negb _).
  - unfold bind, gets, ret. cbn beta iota zeta. done.
Qed.

Lemma configured_command_inv cp w v :
  configured_command cp w = Some v →
  ∃ text es, files w !! cp = Some text
             ∧ parse_lines (readlines text) = inr es
             ∧ doc_of_entries es ∅ !! "archive_command" = Some v.
Proof.
  unfold configured_command. destruct (files w !! cp) as [text|]; [|done].
  destruct (parse_lines (readlines text)) as [|es] eqn:E; [done|]. eauto.
Qed.


(** With the command of the disabled form there is no destination. *)
Lemma do_backup_status_disabled g w :
  configured_command (pcnf_pg_data g +:+ "/postgresql.conf") w
  = Some (VStr "'/bin/true'") →
  do_backup_status g ["--silent"] w = (w, inr (Some ("", false))).
Proof.
  intros (text & es & Hf & Hes & Hcmd)%configured_command_inv.
  by rewrite (do_backup_status_silent g w text es Hf Hes), Hcmd.
Qed.

(** Without a destination [do_backup_restore] gives up at once. *)
Lemma do_backup_restore_disabled g w :
  do_backup_status g ["--silent"] w = (w, inr (Some ("", false))) →
  do_backup_restore g w
  = (set_trace (trace w ++ [Stderr "No backup snapshots are available."]) w,
     inl (SystemExit 1)).
Proof.
  intros Hst. unfold do_backup_restore. by rewrite (bind_ok _ _ _ _ _ Hst).
Qed.

(** *** The destination directory after enabling *)

Section Enabled.
Context `{DictOrder}.



End Enabled.

End StatusFacts.

(** ** Facts about the restore *)

Module RestoreFacts.
Import StrFacts ConfFacts PathFacts CheckFacts RunFacts ArchivalFacts FrameFacts
  StatusFacts.

(** *** Which exceptions a command can raise *)

Section RaisesOnly.
Context (P : exn → Prop).







End RaisesOnly.







(** *** A run that has not reached the operating system has changed nothing *)

Section Guarded.
Context (fs0 : gmap string string) (ds0 : gset string).




End Guarded.



End RestoreFacts.

(** ** Facts about what [__init__] reads *)

Module InitFacts.
Import StrFacts ConfFacts PathFacts CheckFacts RunFacts ArchivalFacts FrameFacts.

Lemma startswith_app p s : startswith (p +:+ s) p = true.
Proof.
  unfold startswith. induction p as [|c p IH]; [by destruct s|].
  rewrite app_cons. cbn [String.prefix]. by destruct (ascii_dec c c).
Qed.

(** A key of one name space is no key without its prefix. *)
Lemma prefixed_ne p s k : startswith k p = false → p +:+ s ≠ k.
Proof. intros Hk <-. by rewrite startswith_app in Hk. Qed.

(** *** [_get_sysconfig] *)

Lemma sysconfig_lines_spec lines config w :
  ∃ t config',
    sysconfig_lines lines config w = (set_trace (trace w ++ t) w, inr config')
    ∧ (∀ k, startswith k "sysconfig_" = false → config' !! k = config !! k)
    ∧ (∀ k, is_Some (config !! k) → is_Some (config' !! k)).
Proof.
  revert config w. induction lines as [|line lines IH]; intros config w.
  - exists [], config. rewrite List.app_nil_r. by destruct w.
  - cbn [sysconfig_lines]. destruct (startswith line "#"); [apply IH|].
    destruct (split1 "=" line) as [|k [|v [|x l]]].
    + destruct (IH config
                  (set_trace (trace w ++ [Stderr ("Cannot parse line " +:+ line
                                                    +:+ " from sysconfig.")]) w))
        as (t & config' & Hrun & Hk & Hd).
      exists (Stderr ("Cannot parse line " +:+ line +:+ " from sysconfig.") :: t),
        config'.
      split; [|done]. unfold bind, emit, modify. rewrite Hrun.
      cbn [trace set_trace files dirs db_running cwd host].
      by rewrite <- List.app_assoc.
    + destruct (IH config
                  (set_trace (trace w ++ [Stderr ("Cannot parse line " +:+ line
                                                    +:+ " from sysconfig.")]) w))
        as (t & config' & Hrun & Hk & Hd).
      exists (Stderr ("Cannot parse line " +:+ line +:+ " from sysconfig.") :: t),
        config'.
      split; [|done]. unfold bind, emit, modify. rewrite Hrun.
      cbn [trace set_trace files dirs db_running cwd host].
      by rewrite <- List.app_assoc.
    + destruct (IH (<["sysconfig_" +:+ k := v]> config) w)
        as (t & config' & Hrun & Hk & Hd).
      exists t, config'. split; [done|]. split.
      * intros k' Hk'. rewrite Hk by done.
        apply lookup_insert_ne. by apply prefixed_ne.
      * intros k' Hk'. apply Hd. apply lookup_insert_is_Some'. by right.
    + destruct (IH config
                  (set_trace (trace w ++ [Stderr ("Cannot parse line " +:+ line
                                                    +:+ " from sysconfig.")]) w))
        as (t & config' & Hrun & Hk & Hd).
      exists (Stderr ("Cannot parse line " +:+ line +:+ " from sysconfig.") :: t),
        config'.
      split; [|done]. unfold bind, emit, modify. rewrite Hrun.
      cbn [trace set_trace files dirs db_running cwd host].
      by rewrite <- List.app_assoc.
Qed.

Lemma _get_sysconfig_spec config w text :
  files w !! "/etc/sysconfig/postgresql" = Some text →
  ∃ t config',
    _get_sysconfig config w = (set_trace (trace w ++ t) w, inr config')
    ∧ (∀ k, startswith k "sysconfig_" = false → config' !! k = config !! k)
    ∧ (∀ k, is_Some (config !! k) → is_Some (config' !! k)).
Proof.
  intros Hf. unfold _get_sysconfig, bind, read_file. rewrite Hf.
  apply sysconfig_lines_spec.
Qed.

(** *** [_get_pg_data] *)

Lemma pg_data_lines_other home lines config k :
  k ≠ "pcnf_pg_data" → pg_data_lines home lines config !! k = config !! k.
Proof.
  intros Hk. revert config. induction lines as [|line lines IH]; intros config;
    [done|].
  cbn [pg_data_lines]. rewrite IH.
  destruct (startswith line "POSTGRES_DATADIR"); [|done].
  by rewrite lookup_insert_ne.
Qed.

(** Without a line on the data directory the entry stays as it is. *)
Lemma pg_data_lines_none home lines config :
  Forall (λ line, startswith line "POSTGRES_DATADIR" = false) lines →
  pg_data_lines home lines config = config.
Proof.
  intros Hl. revert config. induction Hl as [|line lines Hline _ IH];
    intros config; [done|].
  cbn [pg_data_lines]. by rewrite Hline, IH.
Qed.

Lemma _get_pg_data_inv home config w w' config' :
  _get_pg_data home config w = (w', inr config') →
  w' = w
  ∧ (∃ d, config' !! "pcnf_pg_data" = Some d ∧ d ≠ ""
          ∧ (is_Some (files w !! d) ∨ d ∈ dirs w))
  ∧ (∀ k, k ≠ "pcnf_pg_data" → config' !! k = config !! k).
Proof.
  unfold _get_pg_data, bind, read_file, path_exists, gets, raise, ret.
  destruct (files w !! "/etc/sysconfig/postgresql") as [text|]; [|done].
  set (c1 := pg_data_lines home (readlines text) config).
  assert (∀ k, k ≠ "pcnf_pg_data" → c1 !! k = config !! k) as Hother
    by (intros k Hk; by apply pg_data_lines_other).
  set (c2 := if String.eqb (default "" (c1 !! "pcnf_pg_data")) ""
             then <["pcnf_pg_data" := "/var/lib/pgsql/data"]> c1 else c1).
  assert (∃ d, c2 !! "pcnf_pg_data" = Some d ∧ d ≠ "") as (d & Hd & Hne).
  { unfold c2.
    destruct (String.eqb (default "" (c1 !! "pcnf_pg_data")) "") eqn:E.
    - exists "/var/lib/pgsql/data". by rewrite lookup_insert_eq.
    - apply String.eqb_neq in E.
      destruct (c1 !! "pcnf_pg_data") as [d|]; [|done]. by exists d. }
  assert (∀ k, k ≠ "pcnf_pg_data" → c2 !! k = config !! k) as Hother2.
  { intros k Hk. unfold c2. destruct (String.eqb _ ""); [|by apply Hother].
    rewrite lookup_insert_ne by done. by apply Hother. }
  rewrite Hd. cbn [default from_option id].
  destruct (bool_decide (is_Some (files w !! d)) || bool_decide (d ∈ dirs w))
    eqn:Hex; cbn [negb]; [|done].
  intros [= <- <-]. split; [done|]. split; [|done].
  exists d. split_and!; [done..|].
  apply orb_true_iff in Hex as [?%bool_decide_eq_true|?%bool_decide_eq_true];
    auto.
Qed.

(** With no line on the data directory and no entry, the default. *)
Lemma _get_pg_data_default home config w w' config' text :
  files w !! "/etc/sysconfig/postgresql" = Some text →
  Forall (λ line, startswith line "POSTGRES_DATADIR" = false) (readlines text) →
  default "" (config !! "pcnf_pg_data") = "" →
  _get_pg_data home config w = (w', inr config') →
  config' !! "pcnf_pg_data" = Some "/var/lib/pgsql/data".
Proof.
  intros Hf Hlines Hc.
  unfold _get_pg_data, bind, read_file, path_exists, gets, raise, ret.
  rewrite Hf, pg_data_lines_none by done. rewrite Hc. cbn [String.eqb].
  rewrite lookup_insert_eq. cbn [default from_option id].
  destruct (bool_decide _ || bool_decide _); cbn [negb]; [|done].
  intros [= <- <-]. apply lookup_insert_eq.
Qed.

Lemma _get_sysconfig_inv config w w' config' :
  _get_sysconfig config w = (w', inr config') →
  files w' = files w ∧ dirs w' = dirs w ∧ db_running w' = db_running w
  ∧ cwd w' = cwd w ∧ host w' = host w
  ∧ (∀ k, startswith k "sysconfig_" = false → config' !! k = config !! k).
Proof.
  destruct (files w !! "/etc/sysconfig/postgresql") as [text|] eqn:Hf.
  - destruct (_get_sysconfig_spec config w text Hf) as (t & c & -> & Hk & _).
    intros [= <- <-]. by split_and!.
  - unfold _get_sysconfig, bind, read_file. by rewrite Hf.
Qed.

(** *** [_get_pg_config] *)

Lemma pg_config_lines_spec lines config w :
  ∃ t config',
    pg_config_lines lines config w = (set_trace (trace w ++ t) w, inr config')
    ∧ (∀ k, startswith k "pcnf_" = false → config' !! k = config !! k).
Proof.
  revert config w. induction lines as [|line lines IH]; intros config w.
  - exists [], config. rewrite List.app_nil_r. by destruct w.
  - cbn [pg_config_lines].
    destruct (strip <$> take 2 (split "|" line)) as [|k [|v [|x l]]].
    + destruct (IH config
                  (set_trace (trace w ++ [Stdout ("Cannot parse line: " +:+ line)])
                     w)) as (t & config' & Hrun & Hk).
      exists (Stdout ("Cannot parse line: " +:+ line) :: t), config'.
      split; [|done]. unfold bind, emit, modify. rewrite Hrun.
      cbn [trace set_trace files dirs db_running cwd host].
      by rewrite <- List.app_assoc.
    + destruct (IH config
                  (set_trace (trace w ++ [Stdout ("Cannot parse line: " +:+ line)])
                     w)) as (t & config' & Hrun & Hk).
      exists (Stdout ("Cannot parse line: " +:+ line) :: t), config'.
      split; [|done]. unfold bind, emit, modify. rewrite Hrun.
      cbn [trace set_trace files dirs db_running cwd host].
      by rewrite <- List.app_assoc.
    + destruct (IH (<["pcnf_" +:+ k := v]> config) w) as (t & config' & Hrun & Hk).
      exists t, config'. split; [done|].
      intros k' Hk'. rewrite Hk by done.
      apply lookup_insert_ne. by apply prefixed_ne.
    + destruct (IH config
                  (set_trace (trace w ++ [Stdout ("Cannot parse line: " +:+ line)])
                     w)) as (t & config' & Hrun & Hk).
      exists (Stdout ("Cannot parse line: " +:+ line) :: t), config'.
      split; [|done]. unfold bind, emit, modify. rewrite Hrun.
      cbn [trace set_trace files dirs db_running cwd host].
      by rewrite <- List.app_assoc.
Qed.

End InitFacts.

(** ** Facts about enabling archival on a stopped server *)

Module HotFacts.
Import StrFacts ConfFacts PathFacts CheckFacts RunFacts ArchivalFacts FrameFacts.

(** [do_db_start] on a stopped server. *)
Lemma do_db_start_down g w :
  db_running w = false →
  ∃ w1, do_db_start g w = (w1, inr tt)
        ∧ files w1 = files w ∧ dirs w1 = dirs w ∧ host w1 = host w
        ∧ db_running w1 = pg_ctl_start_ok (host w).
Proof.
  destruct w as [fs ds run cw tr h]. cbn [db_running host]. intros ->.
  unfold do_db_start, _get_db_status, _cleanup_pids, chdir,
    system_pg_ctl_start, bind, gets, emit, modify, ret.
  cbn. destruct (pg_ctl_start_ok h); cbn; eexists; by split_and!.
Qed.

Lemma mkdir_step (b : bool) cmd d w :
  ∃ w2, (if b then system_mkdir_p cmd d else ret tt) w = (w2, inr tt)
        ∧ files w2 = files w ∧ host w2 = host w
        ∧ db_running w2 = db_running w.
Proof. destruct b; eexists; by split_and!. Qed.

(** [_restart_db] on a running server whose data directory is not known. *)
Lemma restart_without_directory g w :
  db_running w = true →
  is_empty (default "" (pcnf_data_directory g)) = true →
  ∃ w1, _restart_db g w = (w1, inl (GateException "Cannot find data directory."))
        ∧ files w1 = files w ∧ db_running w1 = true.
Proof.
  destruct w as [fs ds run cw tr h]. cbn [db_running]. intros -> Hd.
  unfold _restart_db, do_db_stop, _get_db_status, bind, gets, emit, modify.
  cbn. rewrite Hd. eexists. by split_and!.
Qed.

Section Enable.
Context `{DictOrder}.

Lemma enable_without_data_directory g bd w text es :
  is_empty (default "" (pcnf_data_directory g)) = true →
  db_running w = false → pg_ctl_start_ok (host w) = true →
  files w !! (pcnf_pg_data g +:+ "/postgresql.conf") = Some text →
  parse_lines (readlines text) = inr es →
  passable (doc_of_entries es ∅) = true →
  doc_of_entries es ∅ !! "archive_command"
    ≠ Some (VStr (archive_command_for bd)) →
  (_perform_enable_backups g "on" bd w).2
  = inl (GateException "Cannot find data directory.")
  ∧ db_running (_perform_enable_backups g "on" bd w).1 = true
  ∧ files (_perform_enable_backups g "on" bd w).1
      !! (pcnf_pg_data g +:+ "/postgresql.conf")
    = Some (render_conf
              (dict_items (<["archive_command" := VStr (archive_command_for bd)]>
                             (doc_of_entries es ∅)))).
Proof.
  intros Hdir Hdown Hstart Hf Hes Hpass Hcmd.
  rewrite _perform_enable_backups_on.
  remember (pcnf_pg_data g +:+ "/postgresql.conf") as cp eqn:Hcp.
  set (conf := doc_of_entries es ∅) in *.
  pose proof (_get_conf_spec _ _ _ Hf) as Hconf. rewrite Hes in Hconf.
  cbv zeta. rewrite (bind_ok _ _ _ _ _ Hconf).
  rewrite (bind_ok _get_db_status _ w w (db_running w) eq_refl).
  rewrite Hdown. cbn [negb].
  destruct (do_db_start_down g w Hdown) as (w1 & Hs & Hf1 & Hd1 & Hh1 & Hr1).
  rewrite (bind_ok _ _ _ _ _ Hs).
  rewrite (bind_ok _get_db_status _ w1 w1 (db_running w1) eq_refl).
  rewrite Hr1, Hstart. cbn [negb].
  rewrite (bind_ok (path_exists bd) _ w1 w1 _ eq_refl).
  destruct (mkdir_step
              (negb (bool_decide (is_Some (files w1 !! bd))
                     || bool_decide (bd ∈ dirs w1)))
              ("sudo -u postgres /bin/mkdir -p -m 0700 " +:+ bd) bd w1)
    as (w2 & Hm & Hf2 & Hh2 & Hr2).
  rewrite (bind_ok _ _ _ _ _ Hm).
  assert (files w2 !! cp = Some text) as Hfile2 by (by rewrite Hf2, Hf1).
  assert (passable (<["archive_command" := VStr (archive_command_for bd)]> conf)
          = true) as Hpass'.
  { apply passable_spec in Hpass as [Hs1 Hs2]. apply passable_spec.
    by rewrite !lookup_insert_ne. }
  assert (∃ w3 bk,
            _write_conf_kwargs cp
              (<["archive_command" := VStr (archive_command_for bd)]> conf) w2
            = (w3, inr bk)
            ∧ files w3 !! cp
              = Some (render_conf
                        (dict_items
                           (<["archive_command" := VStr (archive_command_for bd)]>
                              conf)))
            ∧ db_running w3 = true) as (w3 & bk & Hw & Hf3 & Hr3).
  { rewrite _write_conf_kwargs_passable by done.
    rewrite _write_conf_data; [|by rewrite Hfile2|apply insert_non_empty].
    eexists _, _. split; [done|]. cbn [files set_files db_running].
    split; [apply lookup_insert_eq|]. by rewrite Hr2, Hr1. }
  destruct (restart_without_directory g w3 Hr3 Hdir) as (w4 & Hre & Hf4 & Hr4).
  assert (switch_archive_command g cp conf (archive_command_for bd) w2
          = (w4, inl (GateException "Cannot find data directory."))) as Hsw.
  { unfold switch_archive_command.
    rewrite differs_spec by apply archive_command_not_empty.
    rewrite bool_decide_eq_false_2 by done. cbn [negb].
    by rewrite (bind_ok _ _ _ _ _ Hw). }
  rewrite (bind_raise _ _ _ _ _ Hsw). cbn [fst snd].
  split_and!; [done..|]. by rewrite Hf4.
Qed.

End Enable.

(** *** The comparison of versions in [check] *)

Lemma ltb_head c rest :
  Ascii.ltb c "9" = true → String.ltb (String c rest) "9.1" = true.
Proof.
  unfold Ascii.ltb, String.ltb. cbn [String.compare]. unfold Ascii.compare.
  intros Hc%N.ltb_lt. apply N.compare_lt_iff in Hc. by rewrite Hc.
Qed.

End HotFacts.

(** ** Facts about the search for the root of a backup *)

Module RootFacts.

(** Induction over what a directory holds. *)
Lemma node_ind_entries (P : node → Prop) :
  P File →
  (∀ entries, Forall (λ e, P e.2) entries → P (Dir entries)) →
  ∀ n, P n.
Proof.
  intros HF HD. fix IH 1. intros [|entries]; [exact HF|].
  apply HD. induction entries as [|[f c] l IHl]; constructor;
    [apply IH|apply IHl].
Qed.

Lemma backup_root_dir path entries :
  backup_root path (Dir entries)
  = if bool_decide ("backup_label" ∈ entries.*1) then Some path
    else first_root (λ f child, backup_root (path +:+ "/" +:+ f) child) entries.
Proof. done. Qed.

Lemma located_file path found : ¬ located path File found.
Proof. inversion 1. Qed.

(** What the search returns is a directory with the label. *)
Lemma backup_root_sound n :
  ∀ path found, backup_root path n = Some found → located path n found.
Proof.
  induction n as [|entries IH] using node_ind_entries; intros path found;
    [done|].
  rewrite backup_root_dir.
  destruct (bool_decide ("backup_label" ∈ entries.*1)) eqn:Hl.
  - intros [= <-]. apply located_here. by apply bool_decide_eq_true in Hl.
  - clear Hl. intros Hscan.
    assert (∃ f child, (f, child) ∈ entries
                       ∧ located (path +:+ "/" +:+ f) child found)
      as (f & child & Hin & Hloc).
    { induction IH as [|[f child] rest Hchild _ IHrest]; [done|].
      cbn [first_root] in Hscan. destruct child as [|sub].
      - destruct (IHrest Hscan) as (f' & c' & Hin & Hloc).
        exists f', c'. split; [by right|done].
      - destruct (backup_root (path +:+ "/" +:+ f) (Dir sub)) as [r|] eqn:E.
        + injection Hscan as ->. exists f, (Dir sub). split; [by left|].
          by apply Hchild.
        + destruct (IHrest Hscan) as (f' & c' & Hin & Hloc).
          exists f', c'. split; [by right|done]. }
    by eapply located_below.
Qed.

(** Where there is such a directory the search finds one. *)
Lemma backup_root_complete n :
  ∀ path found, located path n found → is_Some (backup_root path n).
Proof.
  induction n as [|entries IH] using node_ind_entries; intros path found Hloc.
  - by apply located_file in Hloc.
  - rewrite backup_root_dir.
    destruct (bool_decide ("backup_label" ∈ entries.*1)) eqn:Hl; [eauto|].
    apply bool_decide_eq_false in Hl.
    inversion Hloc as [|? ? f child ? Hin Hsub]; subst; [done|].
    clear Hloc Hl. induction IH as [|[f' child'] rest Hchild _ IHrest];
      [by apply elem_of_nil in Hin|].
    cbn [first_root]. apply elem_of_cons in Hin as [[= <- <-]|Hin].
    + destruct child as [|sub]; [by apply located_file in Hsub|].
      destruct (Hchild _ _ Hsub) as [r Hr]. cbn [snd] in Hr. rewrite Hr. eauto.
    + destruct child' as [|sub']; [by apply IHrest|].
      destruct (backup_root (path +:+ "/" +:+ f') (Dir sub')); [eauto|].
      by apply IHrest.
Qed.

End RootFacts.

(** ** Facts about the tuner in the system check *)

Module TuneCheck.
Import StrFacts ConfFacts PathFacts CheckFacts RunFacts.

(** A flag that is down after the loop was down before it, and the
    dictionary printed as the tuner's entries. *)
Lemma tune_loop_unflagged items conf changed :
  NoDup items.*1 →
  (tune_loop items conf changed).2 = false →
  changed = false ∧ Forall (λ e, str_get conf e.1 = py_str e.2) items.
Proof.
  revert conf changed.
  induction items as [|[k v] items IH]; intros conf c Hnd Hflag; [done|].
  rewrite fmap_cons in Hnd. apply NoDup_cons in Hnd as [Hk Hnd].
  rewrite tune_loop_cons in Hflag.
  destruct (IH _ _ Hnd Hflag) as [Hc Hrest].
  destruct c; cbn [negb andb] in Hc; [discriminate Hc|].
  destruct (String.eqb (str_get conf k) (py_str v)) eqn:E; [|discriminate Hc].
  apply String.eqb_eq in E. split; [reflexivity|].
  constructor; [exact E|].
  rewrite Forall_forall in Hrest. apply Forall_forall. intros e He.
  rewrite <- (Hrest e He). symmetry. apply str_get_insert_ne.
  intros ->. apply Hk. apply list_elem_of_fmap. exists e. by split.
Qed.

(** No value of the tuner prints as [None]. *)
Lemma estimate_values mem config k v :
  PgTune.estimate mem = inr config → config !! k = Some v →
  has_char "N" (py_str v) = false.
Proof.
  unfold PgTune.estimate. destruct mem as [mem0|]; [|done].
  destruct (mem0 =? 0); [done|]. destruct (_ >? _); [done|].
  intros [= <-] Hk.
  assert (∀ n, has_char "N" (PgTune.toMB n) = false) as HMB.
  { intros n. unfold PgTune.toMB. rewrite has_char_app.
    destruct (has_char "N" (str_of_Z _)) eqn:E; [|reflexivity].
    apply str_of_Z_chars in E. vm_compute in E. discriminate E. }
  repeat (apply lookup_insert_Some in Hk as [[_ <-]|[_ Hk]];
          [cbn [py_str]; first [apply HMB | reflexivity]|]).
  by rewrite lookup_empty in Hk.
Qed.

Section Tuned.
Context `{DictOrder}.

Lemma dict_items_NoDup (m : gmap string value) : NoDup (dict_items m).*1.
Proof. rewrite dict_items_perm. apply NoDup_fst_map_to_list. Qed.

Lemma dict_items_lookup (m : gmap string value) k v :
  m !! k = Some v → (k, v) ∈ dict_items m.
Proof. intros Hk. rewrite dict_items_perm. by apply elem_of_map_to_list. Qed.

(** A document that was read and on which the loop of the tuner sets no
    flag holds the tuner's entries, as strings. *)
Lemma tune_loop_settled config d mem k v :
  PgTune.estimate mem = inr config → read_shape d →
  (tune_loop (dict_items config) d false).2 = false →
  config !! k = Some v → d !! k = Some (VStr (py_str v)).
Proof.
  intros Hest Hshape Hflag Hk.
  apply tune_loop_unflagged in Hflag as [_ Hq]; [|apply dict_items_NoDup].
  rewrite Forall_forall in Hq.
  specialize (Hq (k, v) (dict_items_lookup _ _ _ Hk)). cbn [fst snd] in Hq.
  unfold str_get in Hq. destruct (d !! k) as [x|] eqn:E.
  - destruct (Hshape k x E) as (_ & s & -> & _). cbn [py_str] in Hq.
    by rewrite Hq.
  - pose proof (estimate_values _ _ _ _ Hest Hk) as Hn.
    by rewrite <- Hq in Hn.
Qed.

End Tuned.

End TuneCheck.

(** ** The claims of the specification *)

(** C1 (a defect of the code).  The specification lets the restore pass
    when available - current * 0.134 - backup is at least 1 GiB.  With a
    cluster of 100 GiB, a backup of 40 GiB and 100 GiB available that
    figure, which the command prints as the predicted space, is 46.6 GiB;
    the test of [do_backup_restore] leaves the ratio out, finds
    100 - 100 - 40 below 1 GiB and exits with status 1.  It does so after
    the diagnostic and without touching files, directories or the server. *)
Theorem C1_restore_check_leaves_out_ratio :
  let r := do_backup_restore sample_gate restore_world in
  (inject_Z GiB <= predicted_space (100 * GiB) (100 * GiB) (40 * GiB))%Q
  ∧ enough_space (100 * GiB) (100 * GiB) (40 * GiB) = false
  ∧ r.2 = inl (SystemExit 1)
  ∧ last (trace r.1)
    = Some (Stderr "At least 1GB free disk space required after backup restoration.")
  ∧ files r.1 = files restore_world
  ∧ dirs r.1 = dirs restore_world
  ∧ db_running r.1 = db_running restore_world.
Proof.
  cbv zeta. split; [by vm_compute|]. compute_done.
Qed.

(** C2 (a defect of the code).  Called with both a document and records,
    [_write_conf] reports nothing: it moves the old file to its backup,
    leaves an empty file in its place and returns the backup.  Called with
    neither, it is not a no-op: it moves the old file away and raises the
    error whose text speaks of two types of config. *)
Theorem C2_write_conf_both_and_neither :
  let w := with_file sample_hba_path "old" empty_world in
  let bk := "/var/lib/pgsql/data/pg_hba.2012-07-01-09-05-03.conf" in
  let both := _write_conf sample_hba_path [replication_cfg]
                {["port" := VStr "5432"]} w in
  let neither := _write_conf sample_hba_path [] ∅ w in
  both.2 = inr (Some bk)
  ∧ files both.1 !! sample_hba_path = Some ""
  ∧ neither.2 = inl (IOError
        "Cannot write two different types of config into the same file!")
  ∧ files neither.1 !! sample_hba_path = None
  ∧ files neither.1 !! bk = Some "old".
Proof. cbv zeta. compute_done. Qed.

(** C3 (a defect of the code).  With [wal_level] absent, or minimal, and
    every other rule met, the rule on [wal_level] sets it to [archive] in
    the dictionary but, unlike the six rules after it, does not set
    [changed]: [do_system_check] reports that no changes are required,
    writes no file and does not restart. *)
Theorem C3_wal_level_override_is_not_flagged :
  ∀ conf, conf = conf_without_wal_level ∨ conf = conf_minimal_wal_level →
  let w := check_world conf in
  let r := do_system_check sample_gate [] w in
  (policy_rules (doc_of_text conf) false).1 !! "wal_level" = Some (VStr "archive")
  ∧ (policy_rules (doc_of_text conf) false).1 ≠ doc_of_text conf
  ∧ (policy_rules (doc_of_text conf) false).2 = false
  ∧ r.2 = inr true
  ∧ trace r.1 = [Stdout "INFO: No changes required.";
                 Stdout "System check finished"]
  ∧ files r.1 = files w
  ∧ db_running r.1 = db_running w.
Proof. intros conf [-> | ->]; cbv zeta; compute_done. Qed.

Lemma C3_witness :
  let w := check_world conf_without_wal_level in
  (do_system_check sample_gate [] w).2 = inr true
  ∧ files (do_system_check sample_gate [] w).1 = files w.
Proof.
  pose proof (C3_wal_level_override_is_not_flagged conf_without_wal_level
                (or_introl eq_refl)) as H.
  cbv zeta in H. destruct H as (_ & _ & _ & H1 & _ & H2 & _). by split.
Defined.

(** C4 (a defect of the code).  The rule on [max_wal_senders] compares the
    value with ['5'] as strings: [10] is numerically at least 5 but sorts
    before ['5'], so the rule replaces it by 5 and flags the configuration
    as changed; [do_system_check] then rewrites the file and restarts. *)
Theorem C4_ten_senders_are_overridden :
  let w := check_world conf_ten_senders in
  let r := do_system_check sample_gate [] w in
  doc_of_text conf_ten_senders !! "max_wal_senders" = Some (VStr "10")
  ∧ py_lt (VStr "10") (VStr "5") = true
  ∧ policy_rules (doc_of_text conf_ten_senders) false
    = (<["max_wal_senders" := VInt 5]> (doc_of_text conf_ten_senders), true)
  ∧ r.2 = inr true
  ∧ head (trace r.1) = Some (Stdout "INFO: Database needs to be restarted.")
  ∧ doc_of_text (default "" (files r.1 !! sample_conf_path)) !! "max_wal_senders"
    = Some (VStr "5").
Proof. cbv zeta. compute_done. Qed.





(** C7, as the specification states it, fails: a value may be free of the
    separator [=] and still not come back.  What follows a [#] is read as a
    comment, and blanks at the ends of a value are stripped. *)
Lemma C7_counterexample :
  has_char "=" "batch #7" = false
  ∧ write_then_read sample_conf_path {["application_name" := VStr "batch #7"]}
      empty_world
    = inr {["application_name" := VStr "batch"]}
  ∧ has_char "=" "public " = false
  ∧ write_then_read sample_conf_path {["search_path" := VStr "public "]}
      empty_world
    = inr {["search_path" := VStr "public"]}.
Proof. compute_done. Qed.

(** C7, amended.  A document that is not empty, whose values are strings,
    whose keys and values have no blank at either end, no [#] and no line
    feed, and whose keys have no [=] and are not [self] or [conf_path], is
    read back from the file it was written to as it was; a value may contain
    [=].  This holds for every order in which the dictionary is
    enumerated. *)
Theorem C7_clean_document_round_trip `{DictOrder} :
  ∀ (conf_path : string) (d : gmap string value) (w : World),
    (files w !! conf_path = None → conf_path ∉ dirs w) →
    d ≠ ∅ → passable d = true → all_strings d = true → clean_doc d = true →
    (∃ w' backup, _write_conf_kwargs conf_path d w = (w', inr backup)
                  ∧ _get_conf conf_path w' = (w', inr d))
    ∧ write_then_read conf_path d w = inr d.
Proof.
  intros conf_path d w Hw Hne Hp Hs Hc.
  unfold write_then_read.
  rewrite ConfFacts._write_conf_kwargs_passable by done.
  rewrite ConfFacts._write_conf_data by done. simpl.
  rewrite ConfFacts._get_conf_written by done.
  rewrite ConfFacts.as_read_strings by done.
  split; [|done]. eexists _, _. split; [reflexivity|].
  rewrite ConfFacts._get_conf_written by done.
  by rewrite ConfFacts.as_read_strings.
Qed.

Lemma C7_witness :
  write_then_read sample_conf_path
    {["archive_command" := VStr "'cp %p /backup/%f'";
     "datestyle" := VStr "'iso, mdy'";
     "search_path" := VStr "a=b"]}
    (with_file sample_conf_path "port = 5432" empty_world)
  = inr {["archive_command" := VStr "'cp %p /backup/%f'";
         "datestyle" := VStr "'iso, mdy'";
         "search_path" := VStr "a=b"]}.
Proof.
  apply C7_clean_document_round_trip; compute_done.
Defined.

(** C10, as the specification states it, fails for two kinds of files.  A
    file that holds only comments and blank lines reads as the empty
    document; writing that document back moves the file to its backup and
    raises, so that no file is left at the path.  A file with a parameter
    named [self] reads as a document that the call
    [self._write_conf(conf_path, **conf)] refuses; nothing is written, and
    the text of the file, trailing comment included, stays. *)
Lemma C10_counterexample :
  (_get_conf sample_conf_path comment_only_world).2 = inr ∅
  ∧ (_write_conf_kwargs sample_conf_path ∅ comment_only_world).2
    = inl (IOError
             "Cannot write two different types of config into the same file!")
  ∧ files (_write_conf_kwargs sample_conf_path ∅ comment_only_world).1
      !! sample_conf_path = None
  ∧ (_get_conf sample_conf_path self_world).2 = inr {["self" := VStr "1"]}
  ∧ (_write_conf_kwargs sample_conf_path {["self" := VStr "1"]} self_world).2
    = inl (TypeError
             "_write_conf() got multiple values for keyword argument 'self'")
  ∧ files (_write_conf_kwargs sample_conf_path {["self" := VStr "1"]}
             self_world).1 !! sample_conf_path
    = Some ("self = 1 # note" +:+ nl).
Proof. compute_done. Qed.

(** C10, amended.  A file of which every line parses is read without error
    also when a key stands on several lines, and the document holds for
    each key the value of its last line.  When the document has an entry
    and no key named [self] or [conf_path], writing it back leaves a file
    that consists of one line [key = value] for each key of the document
    and of nothing else, in the order in which the dictionary is
    enumerated: comment lines, blank lines, trailing comments and the order
    of the lines are gone, and the new file reads as the same document. *)
Theorem C10_rewrite_keeps_only_the_mapping `{DictOrder} :
  ∀ (conf_path text : string) (es : list (string * string)) (w : World),
    files w !! conf_path = Some text →
    parse_lines (readlines text) = inr es →
    let d := doc_of_entries es ∅ in
    _get_conf conf_path w = (w, inr d)
    ∧ (∀ es1 k v es2,
         es = es1 ++ (k, v) :: es2 → k ∉ es2.*1 → d !! k = Some (VStr v))
    ∧ (d ≠ ∅ → passable d = true →
       ∃ w' backup,
         _write_conf_kwargs conf_path d w = (w', inr backup)
         ∧ files w' !! conf_path = Some (render_conf (dict_items d))
         ∧ readlines (render_conf (dict_items d))
           = conf_entry_line <$> dict_items d
         ∧ dict_items d ≡ₚ map_to_list d
         ∧ _get_conf conf_path w' = (w', inr d)).
Proof.
  intros conf_path text es w Hf Hes d.
  pose proof (ConfFacts.read_shape_parsed text es Hes) as Hshape.
  apply ConfFacts.read_shape_clean in Hshape as [Hc Hs]. fold d in Hc, Hs.
  split_and!.
  - erewrite ConfFacts._get_conf_spec by done. by rewrite Hes.
  - intros es1 k v es2 -> Hk. by apply ConfFacts.doc_of_entries_last_wins.
  - intros Hne Hp.
    rewrite ConfFacts._write_conf_kwargs_passable by done.
    rewrite ConfFacts._write_conf_data by (done || by rewrite Hf).
    eexists _, _. split; [reflexivity|]. split_and!.
    + apply lookup_insert_eq.
    + apply ConfFacts.readlines_render. by apply ConfFacts.clean_doc_items.
    + apply dict_items_perm.
    + rewrite ConfFacts._get_conf_written by done.
      by rewrite ConfFacts.as_read_strings.
Qed.

Lemma C10_witness :
  _get_conf sample_conf_path commented_world
  = (commented_world, inr (doc_of_entries commented_entries ∅))
  ∧ doc_of_entries commented_entries ∅ !! "port" = Some (VStr "5433")
  ∧ ∃ w' backup,
      _write_conf_kwargs sample_conf_path (doc_of_entries commented_entries ∅)
        commented_world = (w', inr backup)
      ∧ files w' !! sample_conf_path
        = Some ("shared_buffers = 32MB" +:+ nl +:+ "port = 5433" +:+ nl)
      ∧ readlines ("shared_buffers = 32MB" +:+ nl +:+ "port = 5433" +:+ nl)
        = ["shared_buffers = 32MB" +:+ nl; "port = 5433" +:+ nl]
      ∧ _get_conf sample_conf_path w'
        = (w', inr (doc_of_entries commented_entries ∅)).
Proof.
  pose proof (C10_rewrite_keeps_only_the_mapping sample_conf_path
                commented_conf commented_entries commented_world) as Hw.
  destruct Hw as (Hread & Hlast & Hwrite); [compute_done..|].
  split; [exact Hread|]. split.
  { apply (Hlast [("port", "5432"); ("shared_buffers", "32MB")]
             "port" "5433" []); compute_done. }
  destruct Hwrite as (w' & backup & Hrun & Hfile & Hlines & _ & Hback);
    [compute_done..|].
  assert (render_conf (dict_items (doc_of_entries commented_entries ∅))
          = "shared_buffers = 32MB" +:+ nl +:+ "port = 5433" +:+ nl) as E
    by compute_done.
  rewrite E in Hfile, Hlines.
  exists w', backup. split_and!; [exact Hrun|exact Hfile| |exact Hback].
  rewrite Hlines. compute_done.
Defined.

(** C6, as the specification states it, fails for a write that supplies
    neither a document nor records: the old file is moved to its backup, but
    the call raises instead of returning the backup path.  It also fails for
    a path without extension, where the time stamp is put in front of the
    whole path and the name built is not in the directory of the file. *)
Lemma C6_counterexample :
  (_write_conf sample_hba_path [] ∅ old_hba_world).2
  = inl (IOError "Cannot write two different types of config into the same file!")
  ∧ backup_name "/var/lib/pgsql/data/PG_VERSION" "2012-07-01-09-05-03"
    = ".2012-07-01-09-05-03./var/lib/pgsql/data/PG_VERSION"
  ∧ dirname (backup_name "/var/lib/pgsql/data/PG_VERSION" "2012-07-01-09-05-03")
    ≠ dirname "/var/lib/pgsql/data/PG_VERSION".
Proof. compute_done. Qed.

(** C6, amended.  A write that supplies a document or records (or both)
    onto an existing file [stem.ext], where [ext] has neither dot nor
    slash, returns the path [stem.YYYY-MM-DD-HH-MM-SS.ext]; afterwards that
    path, which lies in the directory of the file and differs from it,
    holds what the file held before, and no path other than these two has
    changed.  Where nothing was at the path, no backup is named and no path
    other than the target changes. *)
Theorem C6_backup_before_overwrite `{DictOrder} :
  ∀ (stem ext : string) (table : list (list string))
    (data : gmap string value) (w : World),
    has_char "." ext = false → has_char "/" ext = false →
    data ≠ ∅ ∨ table ≠ [] →
    let conf_path := stem +:+ "." +:+ ext in
    let backup := stem +:+ "." +:+ timestamp (host w) +:+ "." +:+ ext in
    (∀ text, files w !! conf_path = Some text →
       ∃ w', _write_conf conf_path table data w = (w', inr (Some backup))
             ∧ files w' !! backup = Some text
             ∧ backup ≠ conf_path
             ∧ dirname backup = dirname conf_path
             ∧ (∀ p, p ≠ conf_path → p ≠ backup → files w' !! p = files w !! p)
             ∧ dirs w' = dirs w)
    ∧ (files w !! conf_path = None → conf_path ∉ dirs w →
       ∃ w', _write_conf conf_path table data w = (w', inr None)
             ∧ (∀ p, p ≠ conf_path → files w' !! p = files w !! p)
             ∧ dirs w' = dirs w).
Proof.
  intros stem ext table data w Hdot Hslash Hany conf_path backup.
  assert (backup ≠ conf_path) as Hfresh by apply PathFacts.backup_name_fresh.
  split.
  - intros text Hf.
    rewrite ConfFacts._write_conf_steps by (by rewrite Hf).
    rewrite (ConfFacts.backed_up_some _ _ _ text) by done.
    assert (backup_name conf_path (timestamp (host w)) = backup) as ->
      by (by apply PathFacts.backup_name_ext).
    cbn [fst snd].
    destruct (ConfFacts.write_body_any conf_path table data (Some backup)
                (set_files (<[backup := text]> (delete conf_path (files w))) w)
                Hany) as [content ->].
    eexists. split; [reflexivity|]. cbn [files dirs set_files]. split_and!.
    + rewrite lookup_insert_ne by done. apply lookup_insert_eq.
    + done.
    + unfold backup, conf_path. rewrite !PathFacts.dirname_app; [done|..].
      * by rewrite StrFacts.has_char_app, Hslash.
      * rewrite !StrFacts.has_char_app, PathFacts.timestamp_no_slash, Hslash.
        done.
    + intros p Hp Hb. rewrite !lookup_insert_ne by done.
      by apply lookup_delete_ne.
    + done.
  - intros Hf Hd.
    rewrite ConfFacts._write_conf_steps by done.
    rewrite ConfFacts.backed_up_none by done. cbn [fst snd].
    destruct (ConfFacts.write_body_any conf_path table data None
                (set_files (files w) w) Hany) as [content ->].
    eexists. split; [reflexivity|]. cbn [files dirs set_files]. split.
    + intros p Hp. by apply lookup_insert_ne.
    + done.
Qed.

Lemma C6_witness :
  ∃ w', _write_conf sample_hba_path [replication_cfg] ∅ old_hba_world
        = (w', inr (Some "/var/lib/pgsql/data/pg_hba.2012-07-01-09-05-03.conf"))
        ∧ files w' !! "/var/lib/pgsql/data/pg_hba.2012-07-01-09-05-03.conf"
          = Some "old".
Proof.
  destruct (C6_backup_before_overwrite "/var/lib/pgsql/data/pg_hba" "conf"
              [replication_cfg] ∅ old_hba_world) as [Hex _]; [compute_done..|].
  destruct (Hex "old") as (w' & Hrun & Hbk & _); [compute_done|].
  exists w'. split; [exact Hrun|exact Hbk].
Defined.

(** C5, as the specification states it, fails for a configuration that has
    a parameter named [self] (or [conf_path]): the rules flag a change, and
    the call [self._write_conf(conf_path, **conf)] is refused before
    anything is written, so the second run finds what the first found and
    flags the change again. *)
Lemma C5_counterexample :
  let w1 := (do_system_check sample_gate [] (check_world "self = 1")).1 in
  (do_system_check sample_gate [] (check_world "self = 1")).2
  = inl (TypeError "_write_conf() got multiple values for keyword argument 'self'")
  ∧ files w1 = files (check_world "self = 1")
  ∧ (policy_rules (doc_of_text "self = 1") false).2 = true
  ∧ (do_system_check sample_gate [] w1).2
    = inl (TypeError "_write_conf() got multiple values for keyword argument 'self'").
Proof. cbv zeta. compute_done. Qed.

(** C5, amended.  Let postgresql.conf parse and have no parameter named
    [self] or [conf_path], let pg_hba.conf exist, and let the tuner, if
    asked for, accept the memory of the host.  Then after a first run of
    [do_system_check], however it ended, a second run on the files the
    first has left (with the same arguments and the same memory) reports
    that no changes are required and returns: it writes no file and does not
    restart. *)
Theorem C5_second_check_changes_nothing `{DictOrder} :
  ∀ (g : Gate) (args : list string) (w : World) (ct ht : string)
    (es : list (string * string)),
    files w !! (pcnf_pg_data g +:+ "/postgresql.conf") = Some ct →
    files w !! (pcnf_pg_data g +:+ "/pg_hba.conf") = Some ht →
    parse_lines (readlines ct) = inr es →
    passable (doc_of_entries es ∅) = true →
    ("autotuning" ∈ args →
       ∃ config, PgTune.estimate (phys_mem (host w)) = inr config) →
    ∀ w2 : World,
      files w2 = files (do_system_check g args w).1 →
      phys_mem (host w2) = phys_mem (host w) →
      do_system_check g args w2
      = (set_trace (trace w2 ++ [Stdout "INFO: No changes required.";
                                 Stdout "System check finished"]) w2,
         inr true).
Proof.
  intros g args w ct ht es Hc Hh Hes Hpass Hmem w2 Hfiles Hmem2.
  set (cp := pcnf_pg_data g +:+ "/postgresql.conf") in *.
  set (hp := pcnf_pg_data g +:+ "/pg_hba.conf") in *.
  set (d := doc_of_entries es ∅) in *.
  pose proof (ConfFacts.read_shape_parsed ct es Hes) as Hshape. fold d in Hshape.
  destruct (RunFacts.tuned_defined args (phys_mem (host w)) d false Hmem)
    as (T & c0 & Ht).
  (* the first run *)
  pose proof (RunFacts.do_system_check_run g args w ct ht es T c0 Hc Hes Hh Ht)
    as Hrun1.
  fold cp hp in Hrun1.
  set (P := (policy_rules T c0).1) in *.
  set (changed := (policy_rules T c0).2) in *.
  set (table := (hba_rule (parse_hba ht)).1) in *.
  set (hba_changed := (hba_rule (parse_hba ht)).2) in *.
  assert (safe_doc P) as HsafeP.
  { apply CheckFacts.policy_rules_safe. eapply RunFacts.tuned_safe; [done|].
    by apply RunFacts.read_shape_safe. }
  assert (passable P = true) as HpassP.
  { apply ConfFacts.passable_spec in Hpass as [Hs Hcp].
    apply ConfFacts.passable_spec. unfold P.
    rewrite !CheckFacts.policy_rules_other by compute_done.
    rewrite !(RunFacts.tuned_other _ _ _ _ _ _ _ Ht) by compute_done. done. }
  assert (files w2 !! cp
            = Some (if changed then render_conf (dict_items P) else ct)
          ∧ files w2 !! hp
            = Some (if hba_changed then render_table table else ht))
    as [Hc2 Hh2].
  { rewrite Hfiles, Hrun1.
    rewrite !(RunFacts.keeps_after files _ _ w _ _
                (surjective_pairing _))
      by (intros ?; repeat RunFacts.keeps_step).
    apply RunFacts.commit_changes_files; try done.
    - apply RunFacts.gate_paths_differ.
    - apply RunFacts.gate_conf_backup_not_hba.
    - apply RunFacts.gate_hba_backup_not_conf.
    - intros _. split; [done|]. apply CheckFacts.policy_rules_not_empty.
    - apply HbaFacts.hba_rule_not_nil. }
  (* the second run: the configuration *)
  assert (∃ es2 T2 c2,
            parse_lines (readlines (if changed then render_conf (dict_items P)
                                    else ct)) = inr es2
            ∧ tuned args (phys_mem (host w2)) (doc_of_entries es2 ∅) false
              = inr (T2, c2)
            ∧ (policy_rules T2 c2).2 = false)
    as (es2 & T2 & c2 & Hes2 & Ht2 & Hflag).
  { rewrite Hmem2. destruct changed eqn:Hch.
    - destruct (ConfFacts.parse_render_conf P) as (es2 & Hes2 & Hd2).
      { by apply RunFacts.safe_doc_clean. }
      destruct (RunFacts.settled_after_write args (phys_mem (host w)) d T c0
                  Hshape Ht) as (T2 & Ht2 & Hcomp).
      exists es2, T2, false. rewrite Hd2. fold P in Ht2.
      split_and!; [done..|]. by apply CheckFacts.policy_rules_quiet.
    - exists es, T, c0. by split_and!. }
  (* the second run: the records *)
  assert ((hba_rule (parse_hba (if hba_changed then render_table table else ht))).2
          = false) as Hhba.
  { unfold hba_changed, table, hba_rule.
    destruct (bool_decide (replication_cfg ∈ parse_hba ht)) eqn:Hin;
      cbn [negb fst snd]; rewrite ?Hin; [done|].
    by rewrite bool_decide_eq_true_2 by apply HbaFacts.parse_hba_appended. }
  rewrite (RunFacts.do_system_check_run g args w2 _ _ es2 T2 c2 Hc2 Hes2 Hh2 Ht2).
  rewrite Hflag, Hhba.
  erewrite ConfFacts.bind_ok by apply RunFacts.commit_changes_quiet.
  unfold bind, emit, modify, ret. cbn [set_trace trace files dirs db_running cwd host].
  by rewrite <- app_assoc.
Qed.

Lemma C5_witness :
  (do_system_check sample_gate ["autotuning"]
     (do_system_check sample_gate ["autotuning"]
        (check_world conf_ten_senders)).1).2
  = inr true.
Proof.
  erewrite (C5_second_check_changes_nothing sample_gate ["autotuning"]
              (check_world conf_ten_senders) conf_ten_senders hba_with_rule
              ten_senders_entries).
  - reflexivity.
  - compute_done.
  - compute_done.
  - compute_done.
  - compute_done.
  - intros _. eexists. reflexivity.
  - reflexivity.
  - reflexivity.
Defined.




(** ** Further properties of the code *)



(** X2.  Binary rounding is idempotent: a value it returns is returned
    unchanged. *)
Theorem X2_br_idempotent (value : Z) :
  PgTune.br (PgTune.br value) = PgTune.br value.
Proof.
  destruct value as [|p|p]; [done| |done]. rewrite TuneFacts.br_pos.
  pose proof (TuneFacts.br_pos_positive p) as Hpos.
  pose proof (TuneFacts.br_pos_fixed p) as Hfix.
  destruct (PgTune.br_pos p 1) as [|q|q] eqn:E; [lia| |lia].
  by rewrite TuneFacts.br_pos.
Qed.

(** X3.  The estimate of the tuner stays within the memory of the host:
    for a memory size it accepts, [shared_buffers] is at most a quarter of
    it, [effective_cache_size] at most three quarters, [work_mem] at most
    one part in [max_connections], and [maintenance_work_mem] at most a
    sixteenth and never more than 1024MB. *)
Theorem X3_estimate_within_memory (mem : Z) (config : gmap string value) :
  0 < mem →
  PgTune.estimate (Some mem) = inr config →
  ∃ shared cache work maintenance : Z,
    config !! "shared_buffers" = Some (VStr (str_of_Z shared +:+ "MB"))
    ∧ config !! "effective_cache_size" = Some (VStr (str_of_Z cache +:+ "MB"))
    ∧ config !! "work_mem" = Some (VStr (str_of_Z work +:+ "MB"))
    ∧ config !! "maintenance_work_mem"
      = Some (VStr (str_of_Z maintenance +:+ "MB"))
    ∧ 0 ≤ shared ∧ 4 * (shared * 2 ^ 20) ≤ mem
    ∧ 0 ≤ cache ∧ 4 * (cache * 2 ^ 20) ≤ 3 * mem
    ∧ 0 ≤ work ∧ PgTune.max_connections * (work * 2 ^ 20) ≤ mem
    ∧ 0 ≤ maintenance ≤ 1024 ∧ 16 * (maintenance * 2 ^ 20) ≤ mem.
Proof.
  intros Hmem. unfold PgTune.estimate, PgTune.toMB.
  rewrite (proj2 (Z.eqb_neq mem 0)) by lia.
  destruct (mem / PgTune.KB >? 255 * PgTune.MB); [done|]. intros [= <-].
  set (kb := mem / PgTune.KB).
  assert (0 ≤ kb ∧ 1024 * kb ≤ mem) as [Hkb0 Hkb].
  { unfold kb, PgTune.KB. split; [apply Z.div_pos; lia|].
    apply Z.mul_div_le. lia. }
  assert (∀ v, 0 ≤ v →
            0 ≤ PgTune.br v / 1024 ∧ 1024 * (PgTune.br v / 1024) ≤ v) as Hbr.
  { intros v Hv. pose proof (TuneFacts.br_le v Hv).
    pose proof (TuneFacts.br_nonneg v Hv).
    split; [apply Z.div_pos; lia|].
    etrans; [apply Z.mul_div_le; lia|done]. }
  assert (∀ a b, 0 < b → 0 ≤ a → 0 ≤ a / b ∧ b * (a / b) ≤ a) as Hdiv.
  { intros a b Hb Ha. split; [apply Z.div_pos; lia|by apply Z.mul_div_le]. }
  eexists _, _, _, _. split_and!.
  - by rewrite !lookup_insert_ne, lookup_insert_eq by done.
  - by rewrite !lookup_insert_ne, lookup_insert_eq by done.
  - by rewrite !lookup_insert_ne, lookup_insert_eq by done.
  - by rewrite !lookup_insert_ne, lookup_insert_eq by done.
  - apply Hbr, Hdiv; lia.
  - destruct (Hdiv kb 4) as [? ?]; [lia..|].
    destruct (Hbr (kb / 4)) as [? ?]; [done|]. lia.
  - apply Hbr, Hdiv; lia.
  - destruct (Hdiv (kb * 3) 4) as [? ?]; [lia..|].
    destruct (Hbr (kb * 3 / 4)) as [? ?]; [done|]. lia.
  - apply Hbr, Hdiv; [done|lia].
  - unfold PgTune.max_connections in *.
    destruct (Hdiv kb 80) as [? ?]; [lia..|].
    destruct (Hbr (kb / 80)) as [? ?]; [done|]. lia.
  - destruct (Hdiv kb 16) as [? ?]; [lia..|].
    destruct (kb / 16 >? PgTune.MB); apply Hbr; [done|lia].
  - destruct (Hdiv kb 16) as [? ?]; [lia..|].
    destruct (kb / 16 >? PgTune.MB) eqn:E.
    + destruct (Hbr PgTune.MB) as [? ?]; [done|]. unfold PgTune.MB, PgTune.KB in *.
      lia.
    + rewrite Z.gtb_ltb in E. apply Z.ltb_ge in E.
      destruct (Hbr (kb / 16)) as [? ?]; [done|].
      unfold PgTune.MB, PgTune.KB in E. lia.
  - destruct (Hdiv kb 16) as [? ?]; [lia..|].
    destruct (kb / 16 >? PgTune.MB) eqn:E.
    + rewrite Z.gtb_ltb in E. apply Z.ltb_lt in E.
      destruct (Hbr PgTune.MB) as [? ?]; [done|]. unfold PgTune.MB, PgTune.KB in *.
      lia.
    + destruct (Hbr (kb / 16)) as [? ?]; [done|]. lia.
Qed.

Lemma X3_witness :
  ∃ (config : gmap string value) (maintenance : Z),
    PgTune.estimate (Some 8589934592) = inr config
    ∧ config !! "maintenance_work_mem"
      = Some (VStr (str_of_Z maintenance +:+ "MB"))
    ∧ 0 ≤ maintenance ≤ 1024.
Proof.
  assert (∃ config, PgTune.estimate (Some 8589934592) = inr config)
    as [config E] by (eexists; reflexivity).
  assert (0 < 8589934592) as Hmem by lia.
  destruct (X3_estimate_within_memory 8589934592 config Hmem E)
    as (s & c & w & m & _ & _ & _ & H1 & _ & _ & _ & _ & _ & _ & H2 & _).
  by exists config, m.
Defined.








(** X7.  Every command comes back to the working directory it was started
    in, whether it returns or raises: [do_db_start] and [do_db_stop] go to
    the data directory for [pg_ctl] and [_perform_enable_backups] for
    [pg_basebackup], and each returns before anything can fail. *)
Theorem X7_commands_restore_working_directory `{DictOrder} :
  ∀ (g : Gate) (w : World),
    cwd (do_db_start g w).1 = cwd w
    ∧ cwd (do_db_stop g w).1 = cwd w
    ∧ cwd (_restart_db g w).1 = cwd w
    ∧ (∀ args, cwd (do_system_check g args w).1 = cwd w)
    ∧ (∀ enable backup_dir,
         cwd (_perform_enable_backups g enable backup_dir w).1 = cwd w)
    ∧ (∀ opts, cwd (do_backup_status g opts w).1 = cwd w)
    ∧ cwd (do_backup_restore g w).1 = cwd w.
Proof.
  intros g w. split_and!.
  - apply FrameFacts.keeps_cwd_do_db_start.
  - apply FrameFacts.keeps_cwd_do_db_stop.
  - apply FrameFacts.keeps_cwd__restart_db.
  - intros args. apply FrameFacts.keeps_cwd_do_system_check.
  - intros enable bd. apply FrameFacts.keeps_cwd__perform_enable_backups.
  - intros opts. by apply (FrameFacts.keeps_do_backup_status cwd).
  - apply FrameFacts.keeps_cwd_do_backup_restore.
Qed.



(** X9.  Two writes of the same file while the clock shows the same second
    leave one backup: [_write_conf] names the backup after the path and the
    time to the second, so the second write moves the file of the first
    write over the backup of the first.  That backup then holds what the
    first write wrote, and the content from before the two writes is in
    neither file. *)
Theorem X9_backups_of_one_second_collide `{DictOrder} :
  ∀ (stem ext c0 : string) (d1 d2 : gmap string value) (w w1 : World),
    has_char "." ext = false →
    files w !! (stem +:+ "." +:+ ext) = Some c0 →
    d1 ≠ ∅ → d2 ≠ ∅ →
    files w1 = files (_write_conf (stem +:+ "." +:+ ext) [] d1 w).1 →
    timestamp (host w1) = timestamp (host w) →
    let bk := stem +:+ "." +:+ timestamp (host w) +:+ "." +:+ ext in
    let r1 := _write_conf (stem +:+ "." +:+ ext) [] d1 w in
    let r2 := _write_conf (stem +:+ "." +:+ ext) [] d2 w1 in
    r1.2 = inr (Some bk)
    ∧ files r1.1 !! bk = Some c0
    ∧ r2.2 = inr (Some bk)
    ∧ files r2.1 !! (stem +:+ "." +:+ ext) = Some (render_conf (dict_items d2))
    ∧ files r2.1 !! bk = Some (render_conf (dict_items d1))
    ∧ ∀ p, p ≠ stem +:+ "." +:+ ext → p ≠ bk → files r2.1 !! p = files w !! p.
Proof.
  intros stem ext c0 d1 d2 w w1 Hext Hf Hd1 Hd2 Hw1 Hclock bk r1 r2.
  set (cp := stem +:+ "." +:+ ext) in *.
  assert (bk ≠ cp) as Hbk by apply PathFacts.backup_name_fresh.
  assert (∀ pref, backup_name cp pref = stem +:+ "." +:+ pref +:+ "." +:+ ext)
    as Hname by (intros pref; by apply PathFacts.backup_name_ext).
  assert (r1 = (set_files (<[cp := render_conf (dict_items d1)]>
                             (<[bk := c0]> (delete cp (files w)))) w,
                inr (Some bk))) as Hr1.
  { unfold r1. rewrite ConfFacts._write_conf_data; [|by rewrite Hf|done].
    by rewrite (ConfFacts.backed_up_some _ _ _ c0), Hname by done. }
  assert (files w1 !! cp = Some (render_conf (dict_items d1))) as Hf1.
  { rewrite Hw1. fold r1. rewrite Hr1. cbn [fst files set_files].
    apply lookup_insert_eq. }
  assert (r2 = (set_files (<[cp := render_conf (dict_items d2)]>
                             (<[bk := render_conf (dict_items d1)]>
                                (delete cp (files w1)))) w1,
                inr (Some bk))) as Hr2.
  { unfold r2. rewrite ConfFacts._write_conf_data; [|by rewrite Hf1|done].
    rewrite (ConfFacts.backed_up_some _ _ _ (render_conf (dict_items d1)))
      by done.
    by rewrite Hname, Hclock. }
  rewrite Hr1, Hr2. cbn [fst snd files set_files]. split_and!.
  - done.
  - rewrite lookup_insert_ne by done. apply lookup_insert_eq.
  - done.
  - apply lookup_insert_eq.
  - rewrite lookup_insert_ne by done. apply lookup_insert_eq.
  - intros p Hp1 Hp2. rewrite !lookup_insert_ne by done.
    rewrite lookup_delete_ne by done. rewrite Hw1. fold r1. rewrite Hr1.
    cbn [fst files set_files]. rewrite !lookup_insert_ne by done.
    by rewrite lookup_delete_ne.
Qed.

Lemma X9_witness :
  let cp := "/var/lib/pgsql/data/postgresql" +:+ "." +:+ "conf" in
  let w := with_file sample_conf_path "port = 5431" empty_world in
  let r1 := _write_conf cp [] {["port" := VStr "5432"]} w in
  let r2 := _write_conf cp [] {["port" := VStr "5433"]} r1.1 in
  files r2.1
    !! ("/var/lib/pgsql/data/postgresql" +:+ "." +:+ timestamp (host w)
          +:+ "." +:+ "conf")
  = Some (render_conf (dict_items {["port" := VStr "5432"]})).
Proof.
  intros cp w r1 r2.
  apply (X9_backups_of_one_second_collide "/var/lib/pgsql/data/postgresql"
           "conf" "port = 5431" {["port" := VStr "5432"]}
           {["port" := VStr "5433"]} w r1.1).
  - reflexivity.
  - compute_done.
  - compute_done.
  - compute_done.
  - reflexivity.
  - reflexivity.
Defined.



(** X11.  After archival is disabled there is nothing to restore from.
    When [_perform_enable_backups] with [off] has completed, a silent
    [do_backup_status] returns no destination and [False], and
    [do_backup_restore] prints that no backup snapshots are available and
    exits with status 1, having done nothing else. *)
Theorem X11_no_restore_after_disable `{DictOrder} :
  ∀ (g : Gate) (backup_dir : string) (w w' : World),
    _perform_enable_backups g "off" backup_dir w = (w', inr tt) →
    do_backup_status g ["--silent"] w' = (w', inr (Some ("", false)))
    ∧ do_backup_restore g w'
      = (set_trace (trace w' ++ [Stderr "No backup snapshots are available."])
           w',
         inl (SystemExit 1)).
Proof.
  intros g bd w w' Hrun.
  assert (do_backup_status g ["--silent"] w' = (w', inr (Some ("", false))))
    as Hst.
  { apply StatusFacts.do_backup_status_disabled.
    by eapply ArchivalFacts.disable_settles. }
  split; [done|]. by apply StatusFacts.do_backup_restore_disabled.
Qed.

Lemma X11_witness :
  let w' := (_perform_enable_backups sample_gate "off" "/backup"
               (archived_world "/backup")).1 in
  do_backup_status sample_gate ["--silent"] w' = (w', inr (Some ("", false)))
  ∧ do_backup_restore sample_gate w'
    = (set_trace (trace w' ++ [Stderr "No backup snapshots are available."])
         w',
       inl (SystemExit 1)).
Proof.
  intros w'.
  apply (X11_no_restore_after_disable sample_gate "/backup"
           (archived_world "/backup") w').
  assert ((_perform_enable_backups sample_gate "off" "/backup"
             (archived_world "/backup")).2 = inr tt) as E by compute_done.
  rewrite <- E. apply surjective_pairing.
Defined.

(** X12.  A silent [do_backup_status] that returns has changed nothing, and
    it never returns a destination with the status off: a destination
    read from the archive command that is not a directory makes it raise
    (in [os.listdir]) instead.  With no destination the status is off. *)
Theorem X12_status_is_on_with_a_destination :
  ∀ (g : Gate) (w w' : World) (r : option (string * bool)),
    do_backup_status g ["--silent"] w = (w', inr r) →
    w' = w
    ∧ ∃ backup_dst backup_on,
        r = Some (backup_dst, backup_on)
        ∧ (backup_dst ≠ "" → backup_dst ∈ dirs w ∧ backup_on = true)
        ∧ (backup_dst = "" → files w !! "" = None → "" ∉ dirs w →
           backup_on = false).
Proof.
  intros g w w' r Hrun.
  assert (∃ text es,
            files w !! (pcnf_pg_data g +:+ "/postgresql.conf") = Some text
            ∧ parse_lines (readlines text) = inr es) as (text & es & Hf & Hes).
  { unfold do_backup_status in Hrun.
    apply ArchivalFacts.bind_inv in Hrun as (w1 & conf & Hconf & _).
    apply ArchivalFacts._get_conf_inv in Hconf as (_ & text & es & ? & ? & _).
    eauto. }
  rewrite (StatusFacts.do_backup_status_silent g w text es Hf Hes) in Hrun.
  destruct (destination_word _ false) as [comp|].
  - cbn zeta in Hrun.
    set (dst := dirname (remove_char "'" (remove_char DQUOTE comp))) in *.
    destruct (is_empty dst) eqn:Hempty; cbn [negb andb] in Hrun.
    + injection Hrun as <- <-. split; [done|]. eexists _, _. split; [done|].
      apply StrFacts.is_empty_true in Hempty. split; [done|].
      intros _ Hfile Hdir. rewrite Hempty, Hfile.
      rewrite (bool_decide_eq_false_2 (is_Some None)) by (by intros []).
      by rewrite bool_decide_eq_false_2.
    + destruct (bool_decide (dst ∈ dirs w)) eqn:Hdir; cbn [negb] in Hrun;
        [|done].
      injection Hrun as <- <-. split; [done|]. eexists _, _. split; [done|].
      apply bool_decide_eq_true in Hdir. split.
      * intros _. split; [done|]. by rewrite orb_true_r.
      * intros ->. done.
  - injection Hrun as <- <-. split; [done|]. by exists "", false.
Qed.

Lemma X12_witness :
  (do_backup_status sample_gate ["--silent"] restore_world).1 = restore_world
  ∧ ∃ backup_dst backup_on,
      Some ("/backup", true) = Some (backup_dst, backup_on)
      ∧ (backup_dst ≠ "" → backup_dst ∈ dirs restore_world ∧ backup_on = true).
Proof.
  destruct (X12_status_is_on_with_a_destination sample_gate restore_world
              (do_backup_status sample_gate ["--silent"] restore_world).1
              (Some ("/backup", true)))
    as (Hw & dst & on & Hr & Hon & _).
  - assert ((do_backup_status sample_gate ["--silent"] restore_world).2
            = inr (Some ("/backup", true))) as E by compute_done.
    rewrite <- E. apply surjective_pairing.
  - split; [exact Hw|]. exists dst, on. by split.
Defined.





(** X15.  Enabling archival on a stopped server whose data directory is
    not in the configuration of the gate (as after [__init__] on a stopped
    server) fails half way.  When the archive command has to change,
    [_perform_enable_backups] starts the server, rewrites postgresql.conf
    with the new command and then, restarting, raises [GateException]
    because it cannot find the data directory: the file has the new command
    and the server runs with the old one. *)
Theorem X15_enable_fails_after_the_rewrite `{DictOrder} :
  ∀ (g : Gate) (backup_dir : string) (w : World) (text : string)
    (es : list (string * string)),
    is_empty (default "" (pcnf_data_directory g)) = true →
    db_running w = false →
    pg_ctl_start_ok (host w) = true →
    files w !! (pcnf_pg_data g +:+ "/postgresql.conf") = Some text →
    parse_lines (readlines text) = inr es →
    passable (doc_of_entries es ∅) = true →
    doc_of_entries es ∅ !! "archive_command"
      ≠ Some (VStr (archive_command_for backup_dir)) →
    (_perform_enable_backups g "on" backup_dir w).2
    = inl (GateException "Cannot find data directory.")
    ∧ db_running (_perform_enable_backups g "on" backup_dir w).1 = true
    ∧ files (_perform_enable_backups g "on" backup_dir w).1
        !! (pcnf_pg_data g +:+ "/postgresql.conf")
      = Some (render_conf
                (dict_items
                   (<["archive_command" := VStr (archive_command_for backup_dir)]>
                      (doc_of_entries es ∅)))).
Proof.
  intros g bd w text es. apply HotFacts.enable_without_data_directory.
Qed.

Lemma X15_witness :
  (_perform_enable_backups bare_gate "on" "/backup" stopped_world).2
  = inl (GateException "Cannot find data directory.")
  ∧ db_running (_perform_enable_backups bare_gate "on" "/backup"
                  stopped_world).1 = true.
Proof.
  destruct (X15_enable_fails_after_the_rewrite bare_gate "/backup" stopped_world
              conf_ten_senders ten_senders_entries)
    as (H1 & H2 & _).
  - reflexivity.
  - reflexivity.
  - reflexivity.
  - compute_done.
  - compute_done.
  - compute_done.
  - compute_done.
  - by split.
Defined.

(** X16.  When [_get_pg_data] returns, the configuration names a data
    directory that is not empty and exists on the host; no other entry and
    nothing on the host has changed.  With no line that starts with
    [POSTGRES_DATADIR] in /etc/sysconfig/postgresql and no directory in the
    configuration it is given, the directory is /var/lib/pgsql/data. *)
Theorem X16_pg_data_is_set_and_exists :
  ∀ (home : string → string) (config config' : gmap string string) (w w' : World),
    _get_pg_data home config w = (w', inr config') →
    w' = w
    ∧ (∃ d, config' !! "pcnf_pg_data" = Some d ∧ d ≠ ""
            ∧ (is_Some (files w !! d) ∨ d ∈ dirs w))
    ∧ (∀ k, k ≠ "pcnf_pg_data" → config' !! k = config !! k)
    ∧ (∀ text,
         files w !! "/etc/sysconfig/postgresql" = Some text →
         Forall (λ line, startswith line "POSTGRES_DATADIR" = false)
           (readlines text) →
         default "" (config !! "pcnf_pg_data") = "" →
         config' !! "pcnf_pg_data" = Some "/var/lib/pgsql/data").
Proof.
  intros home config config' w w' Hrun.
  destruct (InitFacts._get_pg_data_inv _ _ _ _ _ Hrun) as (Hw & Hd & Hk).
  split_and!; [done..|]. intros text Hf Hlines Hc.
  by eapply InitFacts._get_pg_data_default.
Qed.

Lemma X16_witness :
  ∃ d, (default ∅ (match (_get_pg_data sample_home ∅ init_world).2 with
                   | inr c => Some c | inl _ => None end)) !! "pcnf_pg_data"
       = Some d ∧ d ≠ "".
Proof.
  destruct (X16_pg_data_is_set_and_exists sample_home ∅
              (default ∅ (match (_get_pg_data sample_home ∅ init_world).2 with
                          | inr c => Some c | inl _ => None end))
              init_world (_get_pg_data sample_home ∅ init_world).1)
    as (_ & (d & Hd & Hne & _) & _).
  - assert ((_get_pg_data sample_home ∅ init_world).2
            = inr (default ∅ (match (_get_pg_data sample_home ∅ init_world).2 with
                              | inr c => Some c | inl _ => None end))) as E
      by compute_done.
    rewrite <- E. apply surjective_pairing.
  - by exists d.
Defined.

(** X17.  Building the gate on a stopped server.  When [__init__] returns
    and the server is down, it has not asked the server for its settings:
    the configuration names an existing data directory, and
    [pcnf_data_directory], which [do_db_stop] needs, is what the caller
    passed in, if anything.  Nothing on the host has changed but the
    output. *)
Theorem X17_init_on_stopped_server :
  ∀ (home : string → string) (stdout stderr : string)
    (config config' : gmap string string) (size_pretty : Q → string) (w w' : World),
    db_running w = false →
    gate_init home stdout stderr config w = (w', inr config') →
    files w' = files w ∧ dirs w' = dirs w ∧ db_running w' = false
    ∧ cwd w' = cwd w
    ∧ (∃ d, config' !! "pcnf_pg_data" = Some d ∧ d ≠ ""
            ∧ (is_Some (files w !! d) ∨ d ∈ dirs w)
            ∧ pcnf_pg_data (gate_of_config config' size_pretty) = d)
    ∧ pcnf_data_directory (gate_of_config config' size_pretty)
      = config !! "pcnf_data_directory".
Proof.
  intros home stdout stderr config config' sp w w' Hdown Hrun.
  unfold gate_init in Hrun.
  apply ArchivalFacts.bind_inv in Hrun as (w1 & c1 & Hsys & Hrun).
  apply InitFacts._get_sysconfig_inv in Hsys
    as (Hf1 & Hd1 & Hr1 & Hc1 & _ & Hk1).
  apply ArchivalFacts.bind_inv in Hrun as (w2 & c2 & Hdata & Hrun).
  apply InitFacts._get_pg_data_inv in Hdata as (-> & (d & Hd & Hne & Hex) & Hk2).
  apply ArchivalFacts.bind_inv in Hrun as (w3 & st & [= <- <-] & Hrun).
  rewrite Hr1, Hdown in Hrun. injection Hrun as <- <-.
  split_and!; [done| done| congruence| done| |].
  - exists d. split_and!; [done..| |].
    + by rewrite <- Hf1, <- Hd1.
    + unfold gate_of_config. cbn [pcnf_pg_data]. by rewrite Hd.
  - unfold gate_of_config. cbn [pcnf_data_directory].
    rewrite Hk2 by done. by apply Hk1.
Qed.

Lemma X17_witness :
  pcnf_data_directory
    (gate_of_config
       (default ∅ (match (gate_init sample_home "" "" ∅ init_world).2 with
                   | inr c => Some c | inl _ => None end)) (λ _, ""))
  = (∅ : gmap string string) !! "pcnf_data_directory".
Proof.
  apply (X17_init_on_stopped_server sample_home "" "" ∅
           (default ∅ (match (gate_init sample_home "" "" ∅ init_world).2 with
                       | inr c => Some c | inl _ => None end))
           (λ _, "") init_world (gate_init sample_home "" "" ∅ init_world).1).
  - reflexivity.
  - assert ((gate_init sample_home "" "" ∅ init_world).2
            = inr (default ∅ (match (gate_init sample_home "" "" ∅ init_world).2
                              with inr c => Some c | inl _ => None end))) as E
      by compute_done.
    rewrite <- E. apply surjective_pairing.
Defined.

(** X18.  Reading the settings tolerates malformed input.  With
    /etc/sysconfig/postgresql in place [_get_sysconfig] returns, and with a
    non-empty answer of [psql] so does [_get_pg_config]: a line they cannot
    split is reported and skipped.  Neither changes anything on the host but
    the output, and each only sets keys of its own name space, [sysconfig_]
    and [pcnf_]. *)
Theorem X18_settings_readers_skip_bad_lines :
  ∀ (config : gmap string string) (w : World),
    (∀ text,
       files w !! "/etc/sysconfig/postgresql" = Some text →
       ∃ t config',
         _get_sysconfig config w = (set_trace (trace w ++ t) w, inr config')
         ∧ (∀ k, startswith k "sysconfig_" = false →
                 config' !! k = config !! k))
    ∧ (∀ stdout stderr,
         stdout ≠ "" →
         ∃ t config',
           _get_pg_config stdout stderr config w
           = (set_trace (trace w ++ t) w, inr config')
           ∧ (∀ k, startswith k "pcnf_" = false → config' !! k = config !! k)).
Proof.
  intros config w. split.
  - intros text Hf.
    destruct (InitFacts._get_sysconfig_spec config w text Hf)
      as (t & config' & Hrun & Hk & _).
    by exists t, config'.
  - intros stdout stderr Hne. unfold _get_pg_config.
    destruct stdout as [|c stdout]; [done|]. cbn [is_empty negb].
    apply InitFacts.pg_config_lines_spec.
Qed.

Lemma X18_witness :
  ∃ t config',
    _get_sysconfig ∅ init_world
    = (set_trace (trace init_world ++ t) init_world, inr config')
    ∧ (∀ k, startswith k "sysconfig_" = false →
            config' !! k = (∅ : gmap string string) !! k).
Proof.
  destruct (X18_settings_readers_skip_bad_lines ∅ init_world) as [Hsys _].
  apply (Hsys sample_sysconfig). compute_done.
Defined.

(** X19.  [check] changes nothing and fails with [GateException] only.  It
    returns [True] exactly when the last word that
    [postmaster --version] prints is, as a string, not below [9.1] and the
    five components exist.  The comparison is one of strings: an output
    whose last word starts with a character below [9], as every version
    from 10 to 89 does, is refused as too old. *)
Theorem X19_check_compares_versions_as_strings :
  ∀ (version_output : string) (w : World),
    (check version_output w).1 = w
    ∧ (∀ e, (check version_output w).2 = inl e → ∃ msg, e = GateException msg)
    ∧ ((check version_output w).2 = inr true
       ↔ String.ltb (List.last (split " " (strip version_output)) "") "9.1"
         = false
         ∧ Forall (λ p, is_Some (files w !! p) ∨ p ∈ dirs w)
             ["/etc/sysconfig/postgresql"; "/usr/bin/psql";
              "/usr/bin/postmaster"; "/usr/bin/pg_ctl";
              "/usr/bin/pg_basebackup"])
    ∧ (∀ c rest,
         List.last (split " " (strip version_output)) "" = String c rest →
         Ascii.ltb c "9" = true →
         (check version_output w).2
         = inl (GateException "Core component is too old version.")).
Proof.
  intros out w. unfold check.
  set (word := List.last (split " " (strip out)) "").
  assert (∀ p, (bool_decide (is_Some (files w !! p)) || bool_decide (p ∈ dirs w))
               = true
               ↔ is_Some (files w !! p) ∨ p ∈ dirs w) as Hex.
  { intros p. by rewrite orb_true_iff, !bool_decide_eq_true. }
  rewrite !Forall_cons, Forall_nil, <- !Hex.
  destruct (String.ltb word "9.1") eqn:Hv.
  - split_and!; [done|intros e [= <-]; by eexists| |done].
    split; [done|]. by intros [? _].
  - unfold bind, path_exists, gets, raise, ret. cbn beta iota.
    destruct (bool_decide (is_Some (files w !! "/etc/sysconfig/postgresql"))
              || bool_decide ("/etc/sysconfig/postgresql" ∈ dirs w));
      cbn [negb fst snd];
      destruct (bool_decide (is_Some (files w !! "/usr/bin/psql"))
                || bool_decide ("/usr/bin/psql" ∈ dirs w));
      destruct (bool_decide (is_Some (files w !! "/usr/bin/postmaster"))
                || bool_decide ("/usr/bin/postmaster" ∈ dirs w));
      destruct (bool_decide (is_Some (files w !! "/usr/bin/pg_ctl"))
                || bool_decide ("/usr/bin/pg_ctl" ∈ dirs w));
      destruct (bool_decide (is_Some (files w !! "/usr/bin/pg_basebackup"))
                || bool_decide ("/usr/bin/pg_basebackup" ∈ dirs w));
      cbn [negb fst snd];
      (split_and!;
       [ done
       | intros e [= <-]; by eexists
       | split; [try done; intros _; by split_and! | intuition congruence]
       | intros c rest Hw Hc; rewrite Hw, HotFacts.ltb_head in Hv by done;
         done ]).
Qed.

Lemma X19_witness :
  (check "postgres (PostgreSQL) 10.4" complete_world).2
  = inl (GateException "Core component is too old version.").
Proof.
  destruct (X19_check_compares_versions_as_strings
              "postgres (PostgreSQL) 10.4" complete_world)
    as (_ & _ & _ & Hold).
  apply (Hold "1"%char "0.4"); reflexivity.
Defined.

(** X20.  The search for the root of an unpacked backup,
    [_rst_get_backup_root], is sound and complete: a path it returns is the
    directory searched, or a directory below it reached through
    directories, that has an entry named [backup_label]; it returns nothing
    only when there is no such directory; and the directory searched is
    returned when it has the entry itself. *)
Theorem X20_backup_root_search :
  ∀ (path : string) (entries : list (string * node)),
    (∀ found, _rst_get_backup_root path entries = Some found →
              located path (Dir entries) found)
    ∧ (_rst_get_backup_root path entries = None →
       ∀ found, ¬ located path (Dir entries) found)
    ∧ ("backup_label" ∈ entries.*1 →
       _rst_get_backup_root path entries = Some path).
Proof.
  intros path entries. unfold _rst_get_backup_root. split_and!.
  - intros found. apply RootFacts.backup_root_sound.
  - intros Hnone found Hloc.
    apply RootFacts.backup_root_complete in Hloc as [r Hr]. congruence.
  - intros Hl. rewrite RootFacts.backup_root_dir.
    by rewrite bool_decide_eq_true_2.
Qed.

Lemma X20_witness :
  located "/tmp/tmpAbCdEf"
    (Dir [("lost+found", Dir []);
          ("data", Dir [("base", Dir []); ("backup_label", File)])])
    "/tmp/tmpAbCdEf/data".
Proof.
  apply (X20_backup_root_search "/tmp/tmpAbCdEf"
           [("lost+found", Dir []);
            ("data", Dir [("base", Dir []); ("backup_label", File)])]).
  reflexivity.
Defined.

(** X21.  A system check with autotuning settles the parameters of the
    tuner.  After a run, however it ended, postgresql.conf parses and holds,
    for every parameter the tuner has estimated, the estimate as a
    string. *)
Theorem X21_autotuning_settles_tuner_parameters `{DictOrder} :
  ∀ (g : Gate) (args : list string) (w : World) (ct ht : string)
    (es : list (string * string)) (config : gmap string value),
    files w !! (pcnf_pg_data g +:+ "/postgresql.conf") = Some ct →
    files w !! (pcnf_pg_data g +:+ "/pg_hba.conf") = Some ht →
    parse_lines (readlines ct) = inr es →
    passable (doc_of_entries es ∅) = true →
    "autotuning" ∈ args →
    PgTune.estimate (phys_mem (host w)) = inr config →
    ∃ ct' es',
      files (do_system_check g args w).1
        !! (pcnf_pg_data g +:+ "/postgresql.conf") = Some ct'
      ∧ parse_lines (readlines ct') = inr es'
      ∧ ∀ k v, config !! k = Some v →
               doc_of_entries es' ∅ !! k = Some (VStr (py_str v)).
Proof.
  intros g args w ct ht es config Hc Hh Hes Hpass Hauto Hest.
  destruct (CheckRound.do_system_check_files g args w ct ht es Hc Hh Hes Hpass)
    as (T & c0 & Ht & Hsafe & Hfile & _); [by eauto|].
  pose proof (ConfFacts.read_shape_parsed ct es Hes) as Hshape.
  apply RunFacts.tuned_inv in Ht
    as [(Hno & _)|(config' & _ & Hest' & -> & ->)]; [done|].
  assert (config' = config) as -> by congruence.
  destruct ((policy_rules _ _).2) eqn:Hch.
  - destruct (ConfFacts.parse_render_conf (policy_rules _ _).1
                (RunFacts.safe_doc_clean _ Hsafe))
      as (es' & Hes' & Hd').
    eexists _, es'. split_and!; [done..|]. intros k v Hk.
    rewrite Hd', CheckFacts.lookup_as_read.
    rewrite CheckFacts.policy_rules_other.
    + by rewrite (lookup_union_Some_l _ _ _ _ Hk).
    + intros Hin.
      rewrite (CheckFacts.estimate_keys _ _ Hest k) in Hk; [done|].
      apply elem_of_app. by left.
  - exists ct, es. split_and!; [done..|]. intros k v Hk.
    apply CheckRound.policy_rules_unflagged in Hch as [Hc0 _].
    by eapply TuneCheck.tune_loop_settled.
Qed.

Lemma X21_witness :
  ∃ ct' es',
    files (do_system_check sample_gate ["autotuning"] plain_hba_world).1
      !! (pcnf_pg_data sample_gate +:+ "/postgresql.conf") = Some ct'
    ∧ parse_lines (readlines ct') = inr es'
    ∧ doc_of_entries es' ∅ !! "max_connections" = Some (VStr "80").
Proof.
  assert (∃ config, PgTune.estimate (phys_mem (host plain_hba_world))
                    = inr config
                    ∧ config !! "max_connections" = Some (VInt 80))
    as (config & E & Hmax).
  { eexists. split; [reflexivity|]. apply lookup_insert_eq. }
  destruct (X21_autotuning_settles_tuner_parameters sample_gate ["autotuning"]
              plain_hba_world conf_ten_senders hba_without_rule
              ten_senders_entries config)
    as (ct' & es' & Hf & Hes' & Hk).
  - compute_done.
  - compute_done.
  - compute_done.
  - compute_done.
  - by left.
  - exact E.
  - exists ct', es'.
    exact (conj Hf (conj Hes' (Hk "max_connections" (VInt 80) Hmax))).
Defined.
